(** * n8n-xlsx-to-docx service manager: the file-acquisition and
    export/import flows

    A shallow embedding of [src/service-manager/sheet_downloader.py] and of
    the export/import functions of [src/service-manager/main.py].

    Conventions of the embedding.
    - A Python [str] is a [string]; its characters are code points below 256.
    - A [pathlib] path is the list of its components ([Path.parts] without
      the root); every path handled by the program is absolute.
    - File contents are [list Byte.byte].
    - Calls that leave the process (HTTP, the browser, the container
      runtime, the clock) are answered by an explicit environment record,
      and the calls a function makes are recorded, in order, in a trace.
    - [print] statements are not part of the model. *)

From Stdlib Require Import ZArith Ascii String List.
From Stdlib.Strings Require Import Byte.
From stdpp Require Import gmap strings list fin_maps.

Local Open Scope Z_scope.

(** ** Python string primitives *)

Module Str.

(** [s.startswith(p)], returning the rest of [s] when it holds. *)
Fixpoint strip_prefix (p s : string) : option string :=
  match p, s with
  | EmptyString, _ => Some s
  | String a p', String b s' =>
      if Ascii.eqb a b then strip_prefix p' s' else None
  | String _ _, EmptyString => None
  end.

Definition startswith (s p : string) : bool :=
  match strip_prefix p s with Some _ => true | None => false end.

(** [needle in hay] *)
Fixpoint contains (needle hay : string) : bool :=
  if startswith hay needle then true
  else match hay with
       | EmptyString => false
       | String _ hay' => contains needle hay'
       end.

(** [s.endswith("/")] *)
Fixpoint ends_with_slash (s : string) : bool :=
  match s with
  | EmptyString => false
  | String c EmptyString => Ascii.eqb c "/"
  | String _ s' => ends_with_slash s'
  end.

(** [s[n:]] *)
Fixpoint drop (n : nat) (s : string) : string :=
  match n, s with
  | O, _ => s
  | S n', String _ s' => drop n' s'
  | S _, EmptyString => EmptyString
  end.

(** [s.split("/")] *)
Fixpoint split_slash (s : string) : list string :=
  match s with
  | EmptyString => [EmptyString]
  | String c s' =>
      if Ascii.eqb c "/" then EmptyString :: split_slash s'
      else match split_slash s' with
           | h :: t => String c h :: t
           | [] => [String c EmptyString]
           end
  end.

(** ["/".join(parts)] *)
Fixpoint join_slash (parts : list string) : string :=
  match parts with
  | [] => EmptyString
  | [p] => p
  | p :: rest => p +:+ String "/" (join_slash rest)
  end.

Fixpoint forallb (f : ascii → bool) (s : string) : bool :=
  match s with
  | EmptyString => true
  | String c s' => f c && forallb f s'
  end.

End Str.

(** ** sheet_downloader.py *)

Module SheetDownloader.

Abbreviation path := (list string).

(** *** get_google_sheet_download_link *)

Definition sheet_link_prefix : string :=
  "https://docs.google.com/spreadsheets/d/".

(** The character class [[a-zA-Z0-9-_]]. *)
Definition is_id_char (c : ascii) : bool :=
  let n := nat_of_ascii c in
  ((97 <=? n) && (n <=? 122) || (65 <=? n) && (n <=? 90)
   || (48 <=? n) && (n <=? 57) || (n =? 45) || (n =? 95))%nat.

(** The greedy group [([a-zA-Z0-9-_]+)] read at the front of [s]. *)
Fixpoint take_id (s : string) : string :=
  match s with
  | String c s' => if is_id_char c then String c (take_id s') else EmptyString
  | EmptyString => EmptyString
  end.

(** The pattern tried at the front of [s]; the result is [group(1)]. *)
Definition match_here (s : string) : option string :=
  match Str.strip_prefix sheet_link_prefix s with
  | Some rest =>
      match take_id rest with
      | EmptyString => None
      | id => Some id
      end
  | None => None
  end.

(** [re.search]: the leftmost position at which the pattern matches. *)
Fixpoint re_search (s : string) : option string :=
  match match_here s with
  | Some id => Some id
  | None =>
      match s with
      | EmptyString => None
      | String _ s' => re_search s'
      end
  end.

Inductive value_error := ValueError (msg : string).

Definition get_google_sheet_download_link (url : string)
  : value_error + string :=
  match re_search url with
  | None =>
      inl (ValueError "Invalid Google Sheets URL or unable to extract file ID.")
  | Some file_id =>
      inr (sheet_link_prefix +:+ file_id +:+ "/export?format=xlsx")
  end.

(** *** is_valid_url and open_browser *)

(** Python's [\s] on a [str] pattern, restricted to code points below 256. *)
Definition is_space (c : ascii) : bool :=
  let n := nat_of_ascii c in
  ((9 <=? n) && (n <=? 13) || (28 <=? n) && (n <=? 32)
   || (n =? 133) || (n =? 160))%nat.

(** [\S+$]: a non-empty run of non-space characters that reaches the end of
    the string, or the line feed that ends it. *)
Fixpoint nonspace_to_end (s : string) : bool :=
  match s with
  | EmptyString => false
  | String c s' =>
      negb (is_space c)
      && match s' with
         | EmptyString => true
         | String "010"%char EmptyString => true
         | _ => nonspace_to_end s'
         end
  end.

(** [re.compile(r'^(https?://\S+)$').match(url)] *)
Definition is_valid_url (url : string) : bool :=
  match Str.strip_prefix "https://" url with
  | Some rest => nonspace_to_end rest
  | None =>
      match Str.strip_prefix "http://" url with
      | Some rest => nonspace_to_end rest
      | None => false
      end
  end.

(** *** Exceptions

    The classes that [requests.get] raises and the handlers of
    [download_sheet] name, with their base classes as the [requests]
    package and the Python builtins declare them. *)
Inductive exn_class :=
| Exception | OSError | ValueError_ | RuntimeError
| RequestException | HTTPError | ConnectionError | ProxyError | SSLError
| Timeout | ConnectTimeout | ReadTimeout | TooManyRedirects
| ChunkedEncodingError.

Global Instance exn_class_eq_dec : EqDecision exn_class.
Proof. solve_decision. Defined.

Definition bases (c : exn_class) : list exn_class :=
  match c with
  | Exception => []
  | OSError | ValueError_ | RuntimeError => [Exception]
  | RequestException => [OSError]
  | HTTPError | ConnectionError | Timeout | TooManyRedirects
  | ChunkedEncodingError => [RequestException]
  | ProxyError | SSLError => [ConnectionError]
  | ConnectTimeout => [ConnectionError; Timeout]
  | ReadTimeout => [Timeout]
  end.

Fixpoint issubclass_upto (depth : nat) (c d : exn_class) : bool :=
  bool_decide (c = d)
  || match depth with
     | O => false
     | S depth' => existsb (fun b => issubclass_upto depth' b d) (bases c)
     end.

(** The hierarchy above is four levels deep. *)
Definition issubclass : exn_class → exn_class → bool := issubclass_upto 4.

(** *** The environment of one call *)

Record response := {
  status_code : Z;
  content_type_header : option string;   (* the Content-Type header, if sent *)
  content : list byte
}.

Inductive http_outcome :=
| Responds (r : response)
| Raises (e : exn_class).

(** The calls on the local machine that [download_sheet] makes inside its
    [try], directly or through [open_browser], and that nothing guards. *)
Inductive local_call :=
| ScanDownloads        (* get_latest_xlsx(get_downloads_folder()) *)
| WebbrowserOpen       (* webbrowser.open(url, 2, autoraise=True) *)
| StartThread          (* thread.start() *)
| AppDownloadsFolder   (* get_app_downloads_folder() *)
| OpenStaged           (* open(output_path, "wb") *)
| WriteStaged          (* f.write(response.content) *)
| Callback.            (* callback(output_path) *)

Global Instance local_call_eq_dec : EqDecision local_call.
Proof. solve_decision. Defined.

Record env := {
  requests_get : string → http_outcome;  (* GET with the fixed headers, timeout=3 *)
  latest_download : option path;         (* get_latest_xlsx(get_downloads_folder()) *)
  is_wsl : bool;
  cmd_start : string → bool;             (* the cmd.exe start subprocess succeeds *)
  webbrowser_open : string → bool;       (* webbrowser.open(url, 2, autoraise=True) *)
  app_downloads_folder : path;           (* get_app_downloads_folder() *)
  time_now : string;                     (* the text of time.time() *)
  local_raises : local_call → option exn_class;
                                         (* what the local call raises, if it raises *)
  partial_write : list byte              (* what a write that raises leaves in the file *)
}.

(** [EvCallback]: the callback was called and returned;
    [EvCallbackRaised]: it was called and raised. *)
Inductive event :=
| EvHttpGet (url : string)
| EvLatestXlsx (latest : option path)
| EvBrowser (url : string)
| EvThreadStart (baseline : option path)
| EvWrite (file : path) (data : list byte)
| EvCallback (file : path)
| EvCallbackRaised (file : path)
| EvSleep.

(** [open_browser]: its answer, or the exception that leaves it. Under WSL
    the subprocess call is guarded and a failure is answered [False]; the
    call of [webbrowser.open] is not guarded. The quoted [safe_url] it
    computes is not used by the code, and so is not modelled. *)
Definition open_browser (e : env) (url : string)
  : (exn_class + bool) * list event :=
  if negb (is_valid_url url) then (inr false, [])
  else if is_wsl e then (inr (cmd_start e url), [EvBrowser url])
  else match local_raises e WebbrowserOpen with
       | Some ex => (inl ex, [])
       | None => (inr (webbrowser_open e url), [EvBrowser url])
       end.

(** *** _watch_for_download *)

Inductive poll :=
| Latest (f : option path)     (* get_latest_xlsx returned f *)
| PollError.                   (* it raised *)

Record watch_env := {
  clock : nat → Z;     (* successive readings of time.time(), reading 0 being start_time *)
  observe : nat → poll (* successive results of get_latest_xlsx(downloads) *)
}.

Inductive watch_end := Detected | TimedOut | Failed.

Global Instance watch_end_eq_dec : EqDecision watch_end.
Proof. solve_decision. Defined.

Definition default_timeout : Z := 300.

(** Iteration [i] of the [while] loop. [None]: the fuel ran out first. *)
Fixpoint watch_loop (fuel : nat) (w : watch_env) (baseline_file : option path)
    (timeout : Z) (i : nat) : option (watch_end * list event) :=
  match fuel with
  | O => None
  | S fuel' =>
      let next :=
        '(r, evs) ← watch_loop fuel' w baseline_file timeout (S i);
        Some (r, EvSleep :: evs) in
      if clock w (S i) - clock w 0 <? timeout then
        match observe w i with
        | PollError => Some (Failed, [])
        | Latest current_latest =>
            if bool_decide (current_latest ≠ baseline_file) then
              match current_latest with
              | Some f =>
                  Some (Detected, [EvLatestXlsx current_latest; EvCallback f])
              | None =>
                  '(r, evs) ← next; Some (r, EvLatestXlsx current_latest :: evs)
              end
            else
              '(r, evs) ← next; Some (r, EvLatestXlsx current_latest :: evs)
        end
      else Some (TimedOut, [])
  end.

Definition _watch_for_download (fuel : nat) (w : watch_env)
    (baseline_file : option path) (timeout : Z)
  : option (watch_end * list event) :=
  watch_loop fuel w baseline_file timeout 0.

(** *** download_sheet

    Every call inside the [try] can raise: the request, and the calls on the
    local machine (the scan of the downloads folder, launching the browser,
    starting the thread, finding the staging folder, opening and writing the
    staged file, the callback). Whatever is raised goes through the
    [except] clauses. *)

(** The [threading.Thread] object: its target is [_watch_for_download] and
    its arguments are the callback and the baseline. *)
Record thread := { thread_baseline : option path }.

(** The [except] clauses, tried in the order in which they are written. *)
Definition handle_exception (e : exn_class) : Z :=
  if issubclass e RequestException then -4
  else if issubclass e Timeout then -5
  else -6.

(** What [download_sheet] returns when [ex] is raised inside its [try]
    after the events [evs]. *)
Definition raised (ex : exn_class) (evs : list event)
  : (Z * option thread) * list event :=
  ((handle_exception ex, None), evs).

Definition download_sheet (e : env) (url : string)
  : (Z * option thread) * list event :=
  match get_google_sheet_download_link url with
  | inl _ => ((-1, None), [])
  | inr download_url =>
      match requests_get e download_url with
      | Raises ex => raised ex [EvHttpGet download_url]
      | Responds r =>
          let content_type := default EmptyString (content_type_header r) in
          let is_unexpected_content :=
            Str.contains "text/html" content_type
            || Str.contains "application/json" content_type in
          if (status_code r =? 401) || is_unexpected_content then
            match local_raises e ScanDownloads with
            | Some ex => raised ex [EvHttpGet download_url]
            | None =>
                let baseline_file := latest_download e in
                let t := {| thread_baseline := baseline_file |} in
                let '(res, opened) := open_browser e download_url in
                let before :=
                  [EvHttpGet download_url; EvLatestXlsx baseline_file]
                  ++ opened in
                match res with
                | inl ex => raised ex before
                | inr false => ((-2, None), before)
                | inr true =>
                    match local_raises e StartThread with
                    | Some ex => raised ex before
                    | None =>
                        ((1, Some t), before ++ [EvThreadStart baseline_file])
                    end
                end
            end
          else if status_code r =? 200 then
            let got := [EvHttpGet download_url] in
            match local_raises e AppDownloadsFolder with
            | Some ex => raised ex got
            | None =>
                let output_path :=
                  app_downloads_folder e
                  ++ ["sheet_" +:+ time_now e +:+ ".xlsx"] in
                match local_raises e OpenStaged with
                | Some ex => raised ex got
                | None =>
                    match local_raises e WriteStaged with
                    | Some ex =>
                        raised ex
                          (got ++ [EvWrite output_path (partial_write e)])
                    | None =>
                        let written :=
                          got ++ [EvWrite output_path (content r)] in
                        match local_raises e Callback with
                        | Some ex =>
                            raised ex
                              (written ++ [EvCallbackRaised output_path])
                        | None =>
                            ((0, None), written ++ [EvCallback output_path])
                        end
                    end
                end
            end
          else ((-3, None), [EvHttpGet download_url])
      end
  end.

End SheetDownloader.

(** ** The file system and pathlib *)

Module Fs.

Abbreviation path := (list string).

Inductive node :=
| File (data : list byte)
| Dir.

(** A file-system state maps the paths that exist to what is there. The
    root [[]] is always a directory and is not stored. Components are
    compared as text, as pathlib compares them. The operating system
    resolves a component [..] when a path is used, which the state does not
    do: the paths that the program builds itself have none, and what is
    proved of paths that come from an archive is proved of member names
    without that component. Permissions, links and time stamps are not part
    of the state, so the errors that it shows are those of a file or a
    directory being in the way; an error that it does not show is an
    answer of the host. *)
Abbreviation fs := (gmap path node).

(** [Path.parent] (the parent of the root is the root) and [Path.name]. *)
Definition parent (p : path) : path := removelast p.
Definition name (p : path) : string := List.last p EmptyString.

(** [str(p)] *)
Definition str (p : path) : string := String "/" (Str.join_slash p).

(** The components pathlib keeps of a text: empty ones and [.] are
    dropped. *)
Definition parse_parts (s : string) : list string :=
  filter (fun c => c ≠ EmptyString ∧ c ≠ ".") (Str.split_slash s).

(** [base / s]: an absolute [s] replaces [base]. *)
Definition joinpath (base : path) (s : string) : path :=
  if Str.startswith s "/" then parse_parts s else base ++ parse_parts s.

(** [p.relative_to(base)] *)
Fixpoint relative_to (base p : path) : option path :=
  match base, p with
  | [], _ => Some p
  | b :: base', c :: p' =>
      if decide (b = c) then relative_to base' p' else None
  | _ :: _, [] => None
  end.

Definition exists_ (m : fs) (p : path) : bool :=
  bool_decide (p = []) || bool_decide (is_Some (m !! p)).

Definition is_dir (m : fs) (p : path) : bool :=
  bool_decide (p = [])
  || match m !! p with Some Dir => true | _ => false end.

Definition is_file (m : fs) (p : path) : bool :=
  match m !! p with Some (File _) => true | _ => false end.

Inductive os_error :=
| FileNotFoundError (p : path)
| FileExistsError (p : path)
| NotADirectoryError (p : path)
| IsADirectoryError (p : path).

(** [str(e)] for an [OSError] raised on a path. *)
Definition str_error (e : os_error) : string :=
  match e with
  | FileNotFoundError p =>
      "[Errno 2] No such file or directory: '" +:+ str p +:+ "'"
  | FileExistsError p => "[Errno 17] File exists: '" +:+ str p +:+ "'"
  | NotADirectoryError p => "[Errno 20] Not a directory: '" +:+ str p +:+ "'"
  | IsADirectoryError p => "[Errno 21] Is a directory: '" +:+ str p +:+ "'"
  end.

(** The non-empty prefixes of [p], shortest first; the last one is [p]. *)
Definition prefixes (p : path) : list path :=
  map (fun n => take n p) (seq 1 (length p)).

(** [p.mkdir(parents=True, exist_ok=True)]: it fails, changing nothing,
    when [p] or one of its ancestors is a file; otherwise [p] and its
    ancestors are directories afterwards. *)
Definition mkdir_parents (m : fs) (p : path) : os_error + fs :=
  if existsb (is_file m) (prefixes p) then
    inl (if is_file m p then FileExistsError p else NotADirectoryError p)
  else inr (foldr (fun q acc => <[q := Dir]> acc) m (prefixes p)).

(** [open(p, 'wb')] followed by [write(data)]. *)
Definition write_file (m : fs) (p : path) (data : list byte)
  : os_error + fs :=
  if is_dir m p then inl (IsADirectoryError p)
  else if is_dir m (parent p) then inr (<[p := File data]> m)
  else if is_file m (parent p) then inl (NotADirectoryError p)
  else inl (FileNotFoundError p).

(** The bytes of the file at [p], if a file is there. *)
Definition file_at (m : fs) (p : path) : option (list byte) :=
  match m !! p with Some (File d) => Some d | _ => None end.

End Fs.

(** ** The zipfile library

    The archive format is the library's business. The program relies on
    four operations: what [ZipFile(path, 'w', ZIP_DEFLATED)] leaves on disk
    once the given entries (name, data) were written in order and the
    archive was closed, what [is_zipfile] answers on the bytes of a file,
    the entries that [ZipFile(path, 'r')] finds there ([None]: it raises
    [BadZipFile]), and whether reading a member of such an archive fails. *)

Definition entry : Type := string * list byte.

(** Reading a member fails when [zipf.open(member)] raises, on a bad local
    header, or when [source.read()] raises, on data that does not inflate
    or does not match its CRC; either way with the text of the exception. *)
Inductive damage :=
| BadHeader (text : string)
| BadData (text : string).

Class ZipFormat := {
  zip_pack : list entry → list byte;
  zip_is_zipfile : list byte → bool;
  zip_unpack : list byte → option (list entry);
  zip_damage : list byte → string → option damage
}.

(** What the library promises of an archive it wrote itself. *)
Definition zip_sound (fmt : ZipFormat) : Prop :=
  ∀ es,
    zip_is_zipfile (zip_pack es) = true
    ∧ zip_unpack (zip_pack es) = Some es
    ∧ ∀ member, zip_damage (zip_pack es) member = None.

(** [ZipFile.namelist()] and [ZipFile.open(name).read()]: a name that occurs
    more than once denotes its last entry. *)
Definition namelist (es : list entry) : list string := map fst es.

Definition zip_read (es : list entry) (member : string) : list byte :=
  match List.find (fun e => bool_decide (fst e = member)) (rev es) with
  | Some e => snd e
  | None => []
  end.

(** ** main.py: export and import of the container's data *)

Module Main.
Import Fs.

(** What the host answers to the calls that leave the program. *)
(** An exception raised on a file for a reason that the state does not
    show (its mode, a lock on it, its time stamp): whether it is a
    [PermissionError], and its text. *)
Record raised_error := {
  is_permission_error : bool;
  error_text : string
}.

Record host := {
  script_path : path;          (* Path(__file__).parent.resolve() *)
  docker_ps : option string;   (* stdout of the docker ps call; None: it raised *)
  strftime_now : string;       (* time.strftime("%Y%m%d_%H%M%S") *)
  zipf_write : path → option raised_error
                               (* what zipf.write(file, arcname) raises, if it raises *)
}.

Definition docker_n8n_dir (h : host) : path :=
  parent (script_path h) ++ ["docker-n8n"].
Definition n8n_data_dir (h : host) : path := docker_n8n_dir h ++ ["n8n-data"].
Definition env_file (h : host) : path := docker_n8n_dir h ++ [".env"].
Definition user_data_dir (h : host) : path :=
  parent (parent (script_path h)) ++ ["n8n-files"; "user-data"].

Definition is_docker_running (h : host) : bool :=
  match docker_ps h with
  | Some stdout => Str.contains "n8n-custom" stdout
  | None => false
  end.

(** The filter of the comprehension over [rglob('*')], on the path of a
    file relative to the data directory. *)
Definition kept (rel : path) : bool :=
  bool_decide (name rel ≠ ".first_run_done")
  && bool_decide ("nodes" ∉ rel).

(** [all_files], each with its relative path and its bytes. *)
Definition all_files (h : host) (m : fs) : list (path * list byte) :=
  if is_dir m (n8n_data_dir h) then
    omap (fun '(p, n) =>
            match n, relative_to (n8n_data_dir h) p with
            | File d, Some (c :: rel) =>
                if kept (c :: rel) then Some (c :: rel, d) else None
            | _, _ => None
            end)
         (map_to_list m)
  else [].

(** [str(Path("n8n-data") / rel)] *)
Definition arcname (rel : path) : string := Str.join_slash ("n8n-data" :: rel).

(** The entries written into the archive, in order. An environment file
    that is a directory is stored as the directory entry [.env/]. *)
Definition export_entries (h : host) (m : fs) : list entry :=
  map (fun '(rel, d) => (arcname rel, d)) (all_files h m)
  ++ match m !! env_file h with
     | Some (File d) => [(".env", d)]
     | Some Dir => [(".env/", [])]
     | None => []
     end.

Definition archive_path (h : host) : path :=
  user_data_dir h ++ ["n8n_export_" +:+ strftime_now h +:+ ".zip"].

(** The files that go into the archive, in order, each with the entry it
    becomes. *)
Definition export_sources (h : host) (m : fs) : list (path * entry) :=
  map (fun '(rel, d) => (n8n_data_dir h ++ rel, (arcname rel, d)))
      (all_files h m)
  ++ match m !! env_file h with
     | Some (File d) => [(env_file h, (".env", d))]
     | Some Dir => [(env_file h, (".env/", []))]
     | None => []
     end.

(** The calls of [zipf.write] in order: the entries written, up to the
    first file on which it raises. *)
Fixpoint zipf_write_all (h : host) (sources : list (path * entry))
  : list entry * option raised_error :=
  match sources with
  | [] => ([], None)
  | (file_path, e) :: rest =>
      match zipf_write h file_path with
      | Some r => ([], Some r)
      | None =>
          let '(written, r) := zipf_write_all h rest in (e :: written, r)
      end
  end.

(** The two handlers of an exception; mkdir and the opening of the archive
    raise an [OSError] of another class than [PermissionError]. *)
Definition export_error (r : raised_error) : string :=
  if is_permission_error r then
    "Permission denied: Files may be locked by the running container. Error: "
    +:+ error_text r
  else "Export failed: " +:+ error_text r.

(** The archive is created before the first file is read, and closed with
    the entries written so far when a [zipf.write] raises. *)
Definition export_n8n_data `{ZipFormat} (h : host) (m : fs)
  : (bool * string) * fs :=
  if is_docker_running h then
    ((false,
      "Cannot export while n8n container is running. Please stop the container first."),
     m)
  else
    match mkdir_parents m (user_data_dir h) with
    | inl e => ((false, "Export failed: " +:+ str_error e), m)
    | inr m1 =>
        if negb (exists_ m1 (n8n_data_dir h)) then
          ((false, "n8n-data directory not found: " +:+ str (n8n_data_dir h)),
           m1)
        else
          let total_files :=
            (length (all_files h m1)
             + (if exists_ m1 (env_file h) then 1 else 0))%nat in
          if (total_files =? 0)%nat then
            ((false, "No files found in n8n-data directory"), m1)
          else
            match write_file m1 (archive_path h) (zip_pack []) with
            | inl e => ((false, "Export failed: " +:+ str_error e), m1)
            | inr m2 =>
                let '(written, failure) :=
                  zipf_write_all h (export_sources h m1) in
                let m3 :=
                  <[archive_path h := File (zip_pack written)]> m2 in
                match failure with
                | Some r => ((false, export_error r), m3)
                | None => ((true, str (archive_path h)), m3)
                end
            end
    end.

(** Why an import stops. *)
Inductive failure :=
| Os (e : os_error)
| BadZip (text : string).

Definition failure_text (f : failure) : string :=
  match f with
  | Os e => str_error e
  | BadZip text => text
  end.

(** [with zipf.open(member) as source, open(target, 'wb') as target:
    target.write(source.read())]: the member is opened first, then the
    target is created or truncated, then the data is read. *)
Definition extract (es : list entry) (broken : string → option damage)
    (member : string) (target : path) (m : fs) : option failure * fs :=
  match broken member with
  | Some (BadHeader text) => (Some (BadZip text), m)
  | Some (BadData text) =>
      match write_file m target [] with
      | inl e => (Some (Os e), m)
      | inr m1 => (Some (BadZip text), m1)
      end
  | None =>
      match write_file m target (zip_read es member) with
      | inl e => (Some (Os e), m)
      | inr m1 => (None, m1)
      end
  end.

(** The body of the loop over [namelist()] for one member. On an error the
    state reached so far stays. *)
Definition import_member (h : host) (es : list entry)
    (broken : string → option damage) (member : string) (m : fs)
  : option failure * fs :=
  if Str.startswith member "n8n-data/" then
    let target_path := joinpath (n8n_data_dir h) (Str.drop 9 member) in
    if Str.ends_with_slash member then
      match mkdir_parents m target_path with
      | inl e => (Some (Os e), m)
      | inr m1 => (None, m1)
      end
    else
      match mkdir_parents m (parent target_path) with
      | inl e => (Some (Os e), m)
      | inr m1 => extract es broken member target_path m1
      end
  else if bool_decide (member = ".env") then
    extract es broken member (env_file h) m
  else (None, m).

Fixpoint import_members (h : host) (es : list entry)
    (broken : string → option damage) (members : list string) (m : fs)
  : option failure * fs :=
  match members with
  | [] => (None, m)
  | member :: rest =>
      match import_member h es broken member m with
      | (Some e, m1) => (Some e, m1)
      | (None, m1) => import_members h es broken rest m1
      end
  end.

Definition import_n8n_data `{ZipFormat} (h : host) (archive : path) (m : fs)
  : (bool * string) * fs :=
  if is_docker_running h then
    ((false,
      "Cannot import while n8n container is running. Please stop the container first."),
     m)
  else if negb (exists_ m archive) then
    ((false, "Archive file not found: " +:+ str archive), m)
  else
    match file_at m archive with
    | None => ((false, "File is not a valid zip archive"), m)
    | Some b =>
        if negb (zip_is_zipfile b) then
          ((false, "File is not a valid zip archive"), m)
        else
          match zip_unpack b with
          | None => ((false, "Import failed: File is not a zip file"), m)
          | Some es =>
              match import_members h es (zip_damage b) (namelist es) m with
              | (Some e, m1) =>
                  ((false, "Import failed: " +:+ failure_text e), m1)
              | (None, m1) =>
                  ((true,
                    "Successfully imported n8n data and .env file from "
                    +:+ name archive),
                   m1)
              end
          end
    end.

(** *** The messages of download_from_sheets *)

Definition error_messages : gmap Z string :=
  list_to_map
    [(-1, "Invalid Google Sheets URL");
     (-2, "Failed to open browser for authentication");
     (-3, "HTTP error during download");
     (-4, "Network error during download");
     (-5, "Timeout during download")].

(** [error_messages.get(res, 'Unknown error')]. *)
Definition download_failed_message (res : Z) : string :=
  default "Unknown error" (error_messages !! res).

End Main.

(** ** A stored (uncompressed) container

    An instance of the three archive operations that can be run: every
    entry is kept verbatim, a payload byte [b] as [01 b] and the end of a
    field as [00]. It is what the examples below are evaluated with. *)

Module Stored.

Definition enc_bytes (l : list byte) : list byte :=
  flat_map (fun b => [x01; b]) l ++ [x00].

Fixpoint dec_bytes (l : list byte) : option (list byte * list byte) :=
  match l with
  | x00 :: rest => Some ([], rest)
  | x01 :: b :: rest =>
      match dec_bytes rest with
      | Some (d, r) => Some (b :: d, r)
      | None => None
      end
  | _ => None
  end.

(** The check value kept with the data of an entry: the sum of its bytes,
    modulo 256. *)
Definition checksum (d : list byte) : byte :=
  default x00
    (Byte.of_N
       (fold_right (fun b acc => ((Byte.to_N b + acc) mod 256)%N) 0%N d)).

(** An entry as it is on disk, with the check value found there. *)
Definition enc_entry (e : entry * byte) : list byte :=
  enc_bytes (list_byte_of_string (fst (fst e))) ++ enc_bytes (snd (fst e))
  ++ [snd e].

Definition pack_raw (es : list (entry * byte)) : list byte :=
  flat_map (fun e => x01 :: enc_entry e) es ++ [x00].

Definition pack (es : list entry) : list byte :=
  pack_raw (map (fun e => (e, checksum (snd e))) es).

Fixpoint unpack_go (fuel : nat) (l : list byte)
  : option (list (entry * byte)) :=
  match fuel with
  | O => None
  | S fuel' =>
      match l with
      | [x00] => Some []
      | x01 :: rest =>
          match dec_bytes rest with
          | Some (n, r1) =>
              match dec_bytes r1 with
              | Some (d, c :: r2) =>
                  match unpack_go fuel' r2 with
                  | Some es => Some ((string_of_list_byte n, d, c) :: es)
                  | None => None
                  end
              | _ => None
              end
          | None => None
          end
      | _ => None
      end
  end.

Definition unpack_raw (l : list byte) : option (list (entry * byte)) :=
  unpack_go (length l) l.

Definition unpack (l : list byte) : option (list entry) :=
  option_map (map fst) (unpack_raw l).

(** Reading a member fails when the check value kept with the entry that
    is read, the last one of that name, is not the one of its data. *)
Definition broken (l : list byte) (member : string) : option damage :=
  match unpack_raw l with
  | Some es =>
      match List.find (fun e => bool_decide (fst (fst e) = member)) (rev es)
      with
      | Some (e, c) =>
          if Byte.eqb c (checksum (snd e)) then None
          else Some (BadData ("Bad CRC-32 for file '" +:+ member +:+ "'"))
      | None => None
      end
  | None => None
  end.

Definition format : ZipFormat := {|
  zip_pack := pack;
  zip_is_zipfile := fun b => bool_decide (is_Some (unpack b));
  zip_unpack := unpack;
  zip_damage := broken
|}.

End Stored.

(** ** Sample inputs, for running the model *)

Module Examples.
Import SheetDownloader.

Definition sheet_url : string :=
  "https://docs.google.com/spreadsheets/d/1AbC-d_9/edit#gid=0".

Definition export_url : string :=
  "https://docs.google.com/spreadsheets/d/1AbC-d_9/export?format=xlsx".

Definition xlsx_response : response := {|
  status_code := 200;
  content_type_header :=
    Some "application/vnd.openxmlformats-officedocument.spreadsheetml.sheet";
  content := [x50; x4b; x03; x04]
|}.

Definition unauthorized_response : response := {|
  status_code := 401;
  content_type_header := None;
  content := []
|}.

(** The error page of a server that does not know the document. *)
Definition not_found_page : response := {|
  status_code := 404;
  content_type_header := Some "text/html; charset=utf-8";
  content := [x3c; x68; x31; x3e]
|}.

Definition old_download : path := ["home"; "user"; "Downloads"; "old.xlsx"].
Definition new_download : path := ["home"; "user"; "Downloads"; "new.xlsx"].

(** A Linux desktop on which every request is answered by [o] and the
    browser launcher answers [browser]. *)
Definition desktop (o : http_outcome) (browser : bool) : env := {|
  requests_get := fun _ => o;
  latest_download := Some old_download;
  is_wsl := false;
  cmd_start := fun _ => false;
  webbrowser_open := fun _ => browser;
  app_downloads_folder := ["app"; "n8n-files"; "downloads"];
  time_now := "1700000000.5";
  local_raises := fun _ => None;
  partial_write := []
|}.


(** An answer in JSON whose content type is spelled in capitals. *)
Definition capitalised_json : response := {|
  status_code := 200;
  content_type_header := Some "Application/JSON";
  content := [x7b; x7d]
|}.

(** A watch in which the clock advances three seconds per reading and the
    download shows up at the third poll. *)
Definition arriving : watch_env := {|
  clock := fun i => 3 * Z.of_nat i;
  observe := fun i =>
    if (i <? 2)%nat then Latest (Some old_download)
    else Latest (Some new_download)
|}.

(** A watch in which nothing ever arrives. *)
Definition idle : watch_env := {|
  clock := fun i => 3 * Z.of_nat i;
  observe := fun _ => Latest (Some old_download)
|}.


(** A project checked out at [/app], the container stopped. *)
Definition stopped : Main.host := {|
  Main.script_path := ["app"; "src"; "service-manager"];
  Main.docker_ps := Some EmptyString;
  Main.strftime_now := "20250101_000000";
  Main.zipf_write := fun _ => None
|}.

(** The same project while the container runs. *)
Definition running : Main.host := {|
  Main.script_path := ["app"; "src"; "service-manager"];
  Main.docker_ps :=
    Some ("postgres" +:+ String "010" ("n8n-custom" +:+ String "010" EmptyString));
  Main.strftime_now := "20250101_000000";
  Main.zipf_write := fun _ => None
|}.

Definition data : Fs.path := ["app"; "src"; "docker-n8n"; "n8n-data"].

Definition skeleton : list (Fs.path * Fs.node) :=
  [(["app"], Fs.Dir); (["app"; "src"], Fs.Dir);
   (["app"; "src"; "docker-n8n"], Fs.Dir); (data, Fs.Dir)].

(** A data directory with a database, the first-run marker and an
    environment file beside it. *)
Definition installed : Fs.fs :=
  list_to_map
    (skeleton
     ++ [(data ++ ["database.sqlite"], Fs.File [x53; x51; x4c]);
         (data ++ ["config"], Fs.File [x7b; x7d]);
         (data ++ [".first_run_done"], Fs.File []);
         (["app"; "src"; "docker-n8n"; ".env"], Fs.File [x41; x3d; x31])]).

Definition archive : Fs.path :=
  ["app"; "n8n-files"; "user-data"; "n8n_export_20250101_000000.zip"].



(** A fresh checkout holding nothing but the given file at [archive]. *)
Definition fresh (b : list byte) : Fs.fs :=
  list_to_map
    (skeleton
     ++ [(["app"; "n8n-files"], Fs.Dir);
         (["app"; "n8n-files"; "user-data"], Fs.Dir);
         (archive, Fs.File b)]).

End Examples.

(** The sample installation exported, and the archive imported into a fresh
    checkout, with the stored container. *)

Module Roundtrip.

Definition exported : (bool * string) * Fs.fs :=
  @Main.export_n8n_data Stored.format Examples.stopped Examples.installed.

Definition archive_bytes : list byte :=
  default [] (Fs.file_at (snd exported) Examples.archive).

Definition reimported : (bool * string) * Fs.fs :=
  @Main.import_n8n_data Stored.format Examples.stopped Examples.archive
    (Examples.fresh archive_bytes).

End Roundtrip.

(** ** What the claims speak of, in the specification's words *)

Module Spec.
Import SheetDownloader.

(** The spreadsheet-link pattern matches somewhere in [url]: the fixed
    prefix followed by at least one identifier character. *)
Definition link_pattern_matches (url : string) : Prop :=
  ∃ pre id post,
    url = pre +:+ sheet_link_prefix +:+ id +:+ post
    ∧ id ≠ EmptyString ∧ Str.forallb is_id_char id = true.

(** [needle] occurs in [hay]. *)
Definition occurs_in (needle hay : string) : Prop :=
  ∃ pre post, hay = pre +:+ needle +:+ post.

Definition is_callback (ev : event) : bool :=
  match ev with EvCallback _ => true | _ => false end.

Definition is_http_get (ev : event) : bool :=
  match ev with EvHttpGet _ => true | _ => false end.

(** No event of the trace is a call of the callback. *)
Definition quiet (evs : list event) : Prop :=
  Forall (fun ev => is_callback ev = false) evs.

(** The local calls of the staging branch of [download_sheet] return: the
    staging folder is found, the staged file is opened and written, and the
    callback returns. *)
Definition staging_returns (e : env) : Prop :=
  ∀ c, c ∈ [AppDownloadsFolder; OpenStaged; WriteStaged; Callback] →
       local_raises e c = None.

(** The local calls of the fallback branch return: the scan of the
    downloads folder, the browser launcher and the start of the thread. *)
Definition fallback_returns (e : env) : Prop :=
  ∀ c, c ∈ [ScanDownloads; WebbrowserOpen; StartThread] →
       local_raises e c = None.

(** Reading [i + 1] of the watcher's clock is still before the deadline, so
    that poll [i] is made. *)
Definition in_time (w : watch_env) (timeout : Z) (i : nat) : Prop :=
  clock w (S i) - clock w 0 < timeout.


(** A name a directory entry can have. *)
Definition valid_name (c : string) : Prop :=
  c ≠ EmptyString ∧ c ≠ "." ∧ Str.contains "/" c = false.

(** [p] lies strictly below the directory [dir]. *)
Definition below (dir p : Fs.path) : Prop :=
  ∃ rel, rel ≠ [] ∧ p = dir ++ rel.

(** The data directory of [m] is a tree of properly named entries: on the
    way from the data directory down to a file there are only directories. *)
Definition data_dir_tree (h : Main.host) (m : Fs.fs) : Prop :=
  ∀ rel d,
    rel ≠ [] → Fs.file_at m (Main.n8n_data_dir h ++ rel) = Some d →
    Forall valid_name rel
    ∧ ∀ k, (k < length rel)%nat →
           m !! (Main.n8n_data_dir h ++ take k rel) = Some Fs.Dir.

(** The data directory of [m] exists, with its ancestors, and is empty. *)
Definition data_dir_empty (h : Main.host) (m : Fs.fs) : Prop :=
  (∀ q, q ∈ Fs.prefixes (Main.n8n_data_dir h) → m !! q = Some Fs.Dir)
  ∧ ∀ p, below (Main.n8n_data_dir h) p → m !! p = None.

(** The member name has no component [..], so the path it is extracted to
    is, as it is written, the one that the operating system writes. *)
Definition plain (member : string) : Prop := ".." ∉ Str.split_slash member.

(** Where import may write for the archive member [member]: the target of
    an [n8n-data/] member and the directories leading to it, or the
    environment file for the member [.env]. *)
Definition destination (h : Main.host) (member : string) (p : Fs.path)
  : Prop :=
  (Str.startswith member "n8n-data/" = true
   ∧ p ∈ Fs.prefixes
           (Fs.joinpath (Main.n8n_data_dir h) (Str.drop 9 member)))
  ∨ (member = ".env" ∧ p = Main.env_file h).

(** The data directory of [m] holds exactly the files [written], below
    directories that lead to them. *)
Definition restored (h : Main.host) (written : list (Fs.path * list byte))
    (m : Fs.fs) : Prop :=
  (∀ q, q ∈ Fs.prefixes (Main.n8n_data_dir h) → m !! q = Some Fs.Dir)
  ∧ (∀ r d, (r, d) ∈ written →
            m !! (Main.n8n_data_dir h ++ r) = Some (Fs.File d))
  ∧ (∀ r d, r ≠ [] → m !! (Main.n8n_data_dir h ++ r) = Some (Fs.File d) →
            (r, d) ∈ written)
  ∧ (∀ r, r ≠ [] → m !! (Main.n8n_data_dir h ++ r) = Some Fs.Dir →
          ∃ r' d', (r', d') ∈ written ∧ r `prefix_of` r' ∧ r ≠ r').

End Spec.

(** ** Further vocabulary for stating what the code does *)

Module Behaviour.
Import SheetDownloader.

(** A text [is_valid_url] is meant to accept: a scheme, a non-empty body
    without white space, and nothing else but possibly one final line
    feed. *)
Definition well_formed_url (url : string) : Prop :=
  ∃ scheme body tail,
    url = scheme +:+ body +:+ tail
    ∧ (scheme = "http://" ∨ scheme = "https://")
    ∧ body ≠ EmptyString
    ∧ Str.forallb (fun c => negb (is_space c)) body = true
    ∧ (tail = EmptyString ∨ tail = String "010" EmptyString).

(** The content type of a response, as [download_sheet] reads it. *)
Definition content_type_of (r : response) : string :=
  default EmptyString (content_type_header r).

(** The response looks like a login page or an API answer. *)
Definition looks_like_page (r : response) : Prop :=
  Spec.occurs_in "text/html" (content_type_of r)
  ∨ Spec.occurs_in "application/json" (content_type_of r).

(** Poll [i] of a watch is made and shows nothing new: the newest file is
    the baseline, or there is no file at all. *)
Definition nothing_new (w : watch_env) (baseline : option path) (timeout : Z)
    (i : nat) : Prop :=
  Spec.in_time w timeout i
  ∧ ∃ o, observe w i = Latest o ∧ (o = baseline ∨ o = None).

(** The events of [k] polls of a watch that goes on, from poll [i]; and of
    its first [n] polls. *)
Definition polls_from (w : watch_env) (i k : nat) : list event :=
  flat_map (fun i => match observe w i with
                     | Latest o => [EvLatestXlsx o; EvSleep]
                     | PollError => []
                     end)
           (seq i k).

Definition polls (w : watch_env) (n : nat) : list event := polls_from w 0 n.

(** The file that import writes for the archive member [member], if it
    writes one: directory members and members it skips have none. *)
Definition file_target (h : Main.host) (member : string) : option Fs.path :=
  if Str.startswith member "n8n-data/" then
    if Str.ends_with_slash member then None
    else Some (Fs.joinpath (Main.n8n_data_dir h) (Str.drop 9 member))
  else if bool_decide (member = ".env") then Some (Main.env_file h)
  else None.

End Behaviour.


(** ** More Python string primitives *)

Module Text.

(** [str.isspace] on one character (code points below 256). *)
Definition is_space : ascii → bool := SheetDownloader.is_space.

(** [str.lower] on one character: the ASCII capitals and the capitals of
    Latin-1 (all of 0xC0..0xDE but the multiplication sign). *)
Definition lower_char (c : ascii) : ascii :=
  let n := nat_of_ascii c in
  if ((65 <=? n) && (n <=? 90)
      || (192 <=? n) && (n <=? 222) && negb (n =? 215))%nat
  then ascii_of_nat (n + 32) else c.

(** [s.lower()] *)
Fixpoint lower (s : string) : string :=
  match s with
  | EmptyString => EmptyString
  | String c s' => String (lower_char c) (lower s')
  end.

(** [s.lstrip()], [s.rstrip()] and [s.strip()] *)
Fixpoint lstrip (s : string) : string :=
  match s with
  | String c s' => if is_space c then lstrip s' else s
  | EmptyString => EmptyString
  end.

Fixpoint rstrip (s : string) : string :=
  match s with
  | EmptyString => EmptyString
  | String c s' =>
      match rstrip s' with
      | EmptyString => if is_space c then EmptyString else String c EmptyString
      | r => String c r
      end
  end.

Definition strip (s : string) : string := rstrip (lstrip s).

(** [s.endswith(suffix)] *)
Definition endswith (s suffix : string) : bool :=
  bool_decide (Str.drop (String.length s - String.length suffix) s = suffix)
  && (String.length suffix <=? String.length s)%nat.

(** [s.rfind('.')]; [None] stands for -1. *)
Fixpoint rfind_dot_from (s : string) (i : nat) (found : option nat)
  : option nat :=
  match s with
  | EmptyString => found
  | String c s' =>
      rfind_dot_from s' (S i) (if Ascii.eqb c "." then Some i else found)
  end.

Definition rfind_dot (s : string) : option nat := rfind_dot_from s 0 None.

End Text.

(** ** sheet_downloader.py: get_latest_xlsx *)

Module Downloads.

(** A folder as its scan returns it: the entries in the order of the scan,
    each with its modification time. *)
Definition listing : Type := list (string * Z).

(** The pattern [*.xlsx] of [folder.glob]. *)
Definition is_xlsx (f : string * Z) : bool := Text.endswith (fst f) ".xlsx".

(** [max(files, key=mtime)]: the first of the entries of greatest key. *)
Fixpoint max_by_mtime (best : string * Z) (l : listing) : string * Z :=
  match l with
  | [] => best
  | f :: l' =>
      max_by_mtime (if snd best <? snd f then f else best) l'
  end.

Definition get_latest_xlsx (folder : listing) : option string :=
  match List.filter is_xlsx folder with
  | [] => None
  | f :: xlsx_files => Some (fst (max_by_mtime f xlsx_files))
  end.

End Downloads.

(** ** main.py: handing the acquired file to the workflow *)

Module Handoff.
Import Fs.

(** [Path.suffix]: the part of the name from its last dot on, unless that
    dot is the first or the last character of the name. *)
Definition suffix (p : path) : string :=
  let name := Fs.name p in
  match Text.rfind_dot name with
  | Some i =>
      if ((0 <? i) && (i <? String.length name - 1))%nat
      then Str.drop i name else EmptyString
  | None => EmptyString
  end.

Definition webhook_url : string := "http://localhost:5678/webhook/trigger".
Definition test_webhook_url : string :=
  "http://localhost:5678/webhook-test/trigger".

(** What a [requests.post] comes to. *)
Inductive post_outcome :=
| Answers (status_code : Z)
| PostRaises (e : SheetDownloader.exn_class).

(** The two endpoints of the workflow engine. *)
Record n8n := {
  test_webhook : post_outcome;
  webhook : post_outcome
}.

(** A POST of the JSON body [{"filename": ..., "template": ...}]. *)
Inductive post := Post (url filename template : string).

Inductive copy_error :=
| OsError (e : os_error)
| SameFileError (src dst : path).

(** [shutil.copy2(src, dst)]: a destination that is a directory stands for
    the file of the source's name in it; the source is opened before the
    destination is; modification times and modes are not part of the
    state. *)
Definition copy2 (m : fs) (src dst : path) : copy_error + fs :=
  let dst := if is_dir m dst then dst ++ [name src] else dst in
  if exists_ m src && bool_decide (src = dst) then inl (SameFileError src dst)
  else if is_dir m src then inl (OsError (IsADirectoryError src))
  else
    match file_at m src with
    | None => inl (OsError (FileNotFoundError src))
    | Some d =>
        match write_file m dst d with
        | inl e => inl (OsError e)
        | inr m1 => inr m1
        end
    end.

(** How [get_file_callback] ends, with the text it leaves in the progress
    label. *)
Inductive ending :=
| NoFile
| InvalidFileType
| ErrorProcessing (e : copy_error + SheetDownloader.exn_class)
| Waiting
| WebhookFailed (status_code : Z)
| CannotReach (e : SheetDownloader.exn_class).

Definition progress_text (e : ending) : string :=
  match e with
  | NoFile => "Error: No file"
  | InvalidFileType => "Error: Invalid file type"
  | ErrorProcessing _ => "Error processing file"
  | Waiting => "Processing file..."
  | WebhookFailed _ => "Error: Webhook failed"
  | CannotReach _ => "Error: Cannot reach n8n"
  end.

Record handoff := {
  ended : ending;
  files : fs;               (* the file system afterwards *)
  posts : list post;        (* the POSTs sent, in order *)
  processing : bool;        (* self.processing afterwards *)
  bar : bool                (* the progress bar runs afterwards *)
}.

Definition sheets_dir (h : Main.host) : path :=
  parent (parent (Main.script_path h)) ++ ["n8n-files"; "sheets"].

(** [f"sheet_{int(time.time())}.xlsx"] and the place of the sheet. *)
Definition new_name (now : string) : string := "sheet_" +:+ now +:+ ".xlsx".

Definition destination (h : Main.host) (now : string) : path :=
  sheets_dir h ++ [new_name now].

(** The two POSTs, with the progress bar running and [self.processing] set
    when they start; the last component tells whether they still are at the
    end. A [RequestException] is handled here; any other exception goes to
    the handler around the whole move. *)
Definition trigger (w : n8n) (new_name : string)
  : ending * list post * bool :=
  let test := Post test_webhook_url new_name "default.docx" in
  let prod := Post webhook_url new_name "default.docx" in
  let raised (e : SheetDownloader.exn_class) (sent : list post) :=
    if SheetDownloader.issubclass e SheetDownloader.RequestException
    then (CannotReach e, sent, false)
    else (ErrorProcessing (inr e), sent, true) in
  match test_webhook w with
  | PostRaises e => raised e [test]
  | Answers _ =>
      match webhook w with
      | PostRaises e => raised e [test; prod]
      | Answers code =>
          if code =? 200 then (Waiting, [test; prod], true)
          else (WebhookFailed code, [test; prod], false)
      end
  end.

(** [callback_in_main_thread] of [get_file_callback(file)], but for the
    buttons, which it enables first of all; [now] is the text of
    [int(time.time())], [was_processing] the flag before. Lines of the log
    are not kept. *)
Definition get_file_callback (h : Main.host) (now : string) (w : n8n)
    (was_processing : bool) (file : option path) (m : fs) : handoff :=
  match file with
  | None =>
      {| ended := NoFile; files := m; posts := [];
         processing := was_processing; bar := false |}
  | Some file =>
      if negb (bool_decide (Text.lower (suffix file) = ".xlsx")) then
        {| ended := InvalidFileType; files := m; posts := [];
           processing := was_processing; bar := false |}
      else
        let new_name := new_name now in
        let destination := destination h now in
        match mkdir_parents m (parent destination) with
        | inl e =>
            {| ended := ErrorProcessing (inl (OsError e)); files := m;
               posts := []; processing := was_processing; bar := false |}
        | inr m1 =>
            match copy2 m1 file destination with
            | inl e =>
                {| ended := ErrorProcessing (inl e); files := m1;
                   posts := []; processing := was_processing;
                   bar := false |}
            | inr m2 =>
                let m3 :=
                  if bool_decide (parent file ≠ parent destination)
                  then delete file m2 else m2 in
                let '(e, sent, flag) := trigger w new_name in
                {| ended := e; files := m3; posts := sent;
                   processing := flag; bar := flag |}
            end
        end
  end.

End Handoff.

(** Names for what the hand-off leaves behind. *)

Module Delivery.
Import Fs Handoff.

(** The two POSTs of one hand-off. *)
Definition test_post (now : string) : post :=
  Post test_webhook_url (new_name now) "default.docx".

Definition prod_post (now : string) : post :=
  Post webhook_url (new_name now) "default.docx".

(** Where the copy of [file] lands: under the new name, or, when a directory
    of that name is in the way, inside it under the name of [file]. *)
Definition landing (h : Main.host) (now : string) (m : fs) (file : path)
  : path :=
  if is_dir m (destination h now) then destination h now ++ [name file]
  else destination h now.

(** The file name has a stem and an extension that is [.xlsx] up to the
    case of its letters. *)
Definition spreadsheet_name (file : path) : Prop :=
  ∃ stem ext, name file = stem +:+ ext ∧ stem ≠ EmptyString
              ∧ Text.lower ext = ".xlsx".

End Delivery.


(** ** main.py: the download panel *)

Module Panel.
Import SheetDownloader.

(** The widgets that the download handlers configure, and the attribute
    [download_thread]. A button is [true] when its state is [normal]; the
    progress bar is [true] while it runs. *)
Record panel := {
  download_btn : bool;
  local_file_btn : bool;
  progress_label : string;
  progress_bar : bool;
  download_thread : option thread
}.

Inductive dialog :=
| ShowWarning (title message : string).

(** [download_from_sheets]: the panel it leaves, the dialogs it shows and
    what its call of [download_sheet] did; [entry] is the text of the entry
    field. *)
Definition download_from_sheets (e : env) (entry : string) (g : panel)
  : panel * list dialog * list event :=
  let url := Text.strip entry in
  if bool_decide (url = EmptyString) then
    (g, [ShowWarning "Input Required" "Please enter a Google Sheets URL"], [])
  else
    let '((res, thread), evs) := download_sheet e url in
    if (res =? 1) && bool_decide (is_Some thread) then
      ({| download_btn := false; local_file_btn := false;
          progress_label := "Waiting for download...";
          progress_bar := true; download_thread := thread |}, [], evs)
    else if res =? 0 then
      ({| download_btn := false; local_file_btn := false;
          progress_label := progress_label g;
          progress_bar := progress_bar g; download_thread := thread |},
       [], evs)
    else if res <? 0 then
      ({| download_btn := true; local_file_btn := true;
          progress_label := "Error: " +:+ Main.download_failed_message res;
          progress_bar := false; download_thread := thread |}, [], evs)
    else
      ({| download_btn := true; local_file_btn := true;
          progress_label := progress_label g;
          progress_bar := progress_bar g; download_thread := thread |},
       [], evs).

(** What [callback_in_main_thread] of [get_file_callback] does to the
    panel, its hand-off having gone as [r] tells. *)
Definition callback_in_main_thread (r : Handoff.handoff) (g : panel)
  : panel :=
  {| download_btn := true; local_file_btn := true;
     progress_label := Handoff.progress_text (Handoff.ended r);
     progress_bar := Handoff.bar r;
     download_thread := download_thread g |}.

(** What the events of a trace amount to: the files written, the watcher
    thread started, the files on which the callback was called and
    returned, having queued its part for the main thread. *)
Definition written (evs : list event) (m : Fs.fs) : Fs.fs :=
  foldl (fun m ev => match ev with
                     | EvWrite p d => <[p := Fs.File d]> m
                     | _ => m
                     end) m evs.

Definition started (evs : list event) : option (option path) :=
  head (omap (fun ev => match ev with
                        | EvThreadStart b => Some b
                        | _ => None
                        end) evs).

Definition called_back (evs : list event) : list path :=
  omap (fun ev => match ev with EvCallback f => Some f | _ => None end) evs.

(** The state of the application that a download touches. *)
Record app := {
  widgets : panel;
  disk : Fs.fs;
  sent : list Handoff.post;
  busy : bool                 (* self.processing *)
}.

(** One call of the callback: [get_file_callback] queues
    [callback_in_main_thread] with [root.after], and Tk runs it. *)
Definition run_callback (h : Main.host) (now : string) (w : Handoff.n8n)
    (a : app) (file : path) : app :=
  let r := Handoff.get_file_callback h now w (busy a) (Some file) (disk a) in
  {| widgets := callback_in_main_thread r (widgets a);
     disk := Handoff.files r;
     sent := sent a ++ Handoff.posts r;
     busy := Handoff.processing r |}.

(** One click on the download button and what follows from it: the handler
    runs; the watcher thread runs if the handler started it; and the calls
    of the callback that either of them made are served on the main thread.
    [None]: the watcher needs more fuel. *)
Definition click_download (fuel : nat) (e : env) (we : watch_env)
    (h : Main.host) (now : string) (w : Handoff.n8n) (entry : string)
    (a : app) : option app :=
  let '(g, _, evs) := download_from_sheets e entry (widgets a) in
  watched ← match started evs with
            | Some baseline =>
                '(_, wevs) ← _watch_for_download fuel we baseline
                               default_timeout;
                Some wevs
            | None => Some []
            end;
  Some (foldl (run_callback h now w)
          {| widgets := g; disk := written evs (disk a);
             sent := sent a; busy := busy a |}
          (called_back (evs ++ watched))).

End Panel.


(** ** More sample inputs *)

Module Samples.

(** An archive that holds the configuration twice, under two spellings of
    its name, and a file that import does not look at. *)
Definition update_entries : list entry :=
  [("n8n-data/config", [x31]);
   ("n8n-data/./config", [x32]);
   ("README.md", [x68; x69])].

(** An installation with a configuration, and that archive ready to be
    imported. *)
Definition before_update : Fs.fs :=
  list_to_map
    (Examples.skeleton
     ++ [(Examples.data ++ ["config"], Fs.File [x30]);
         (["app"; "n8n-files"], Fs.Dir);
         (["app"; "n8n-files"; "user-data"], Fs.Dir);
         (Examples.archive, Fs.File (Stored.pack update_entries))]).

(** A checkout and, in the downloads folder of the user, a sheet that the
    browser just saved under a name in capitals. *)
Definition budget : Fs.path := ["home"; "user"; "Downloads"; "Budget.XLSX"].

Definition with_download : Fs.fs :=
  list_to_map
    (Examples.skeleton
     ++ [(["home"], Fs.Dir); (["home"; "user"], Fs.Dir);
         (["home"; "user"; "Downloads"], Fs.Dir);
         (budget, Fs.File [x50; x4b; x03; x04])]).

(** A workflow engine whose test endpoint is not armed and whose production
    endpoint is. *)
Definition engine_up : Handoff.n8n := {|
  Handoff.test_webhook := Handoff.Answers 404;
  Handoff.webhook := Handoff.Answers 200
|}.

(** The application as it starts, on that disk. *)
Definition ready : Panel.app := {|
  Panel.widgets :=
    {| Panel.download_btn := true; Panel.local_file_btn := true;
       Panel.progress_label := "Ready"; Panel.progress_bar := false;
       Panel.download_thread := None |};
  Panel.disk := with_download;
  Panel.sent := [];
  Panel.busy := false
|}.

End Samples.


(** * Properties *)

(** ** Strings *)

Section StringFacts.

Lemma append_nil_l (s : string) : EmptyString +:+ s = s.
Proof. reflexivity. Qed.

Lemma append_cons (a : ascii) (s t : string) :
  String a s +:+ t = String a (s +:+ t).
Proof. reflexivity. Qed.

Lemma strip_prefix_spec (p s r : string) :
  Str.strip_prefix p s = Some r ↔ s = p +:+ r.
Proof.
  revert s. induction p as [|a p IH]; intros s; simpl.
  - rewrite append_nil_l. split; congruence.
  - destruct s as [|b s]; [split; [done|by rewrite append_cons]|].
    rewrite append_cons. destruct (Ascii.eqb_spec a b) as [->|Hne].
    + rewrite IH. split; congruence.
    + split; [done|]. congruence.
Qed.

Lemma strip_prefix_append (p r : string) :
  Str.strip_prefix p (p +:+ r) = Some r.
Proof. by apply strip_prefix_spec. Qed.

Lemma startswith_spec (s p : string) :
  Str.startswith s p = true ↔ ∃ r, s = p +:+ r.
Proof.
  unfold Str.startswith. destruct (Str.strip_prefix p s) as [r|] eqn:E.
  - apply strip_prefix_spec in E. split; eauto.
  - split; [done|]. intros [r Hr].
    apply strip_prefix_spec in Hr. congruence.
Qed.

Lemma contains_spec (needle hay : string) :
  Str.contains needle hay = true ↔ Spec.occurs_in needle hay.
Proof.
  unfold Spec.occurs_in. induction hay as [|a hay IH]; simpl.
  - destruct (Str.startswith EmptyString needle) eqn:E.
    + apply startswith_spec in E as [r Hr]. split; [|done].
      intros _. exists EmptyString, r. by rewrite append_nil_l.
    + split; [done|]. intros (pre & post & H).
      destruct pre; [|by rewrite append_cons in H].
      rewrite append_nil_l in H.
      assert (Str.startswith EmptyString needle = true)
        by (apply startswith_spec; eauto).
      congruence.
  - destruct (Str.startswith (String a hay) needle) eqn:E.
    + apply startswith_spec in E as [r Hr]. split; [|done].
      intros _. exists EmptyString, r. by rewrite append_nil_l.
    + rewrite IH. split.
      * intros (pre & post & H). exists (String a pre), post.
        by rewrite append_cons, H.
      * intros (pre & post & H). destruct pre as [|b pre].
        -- rewrite append_nil_l in H.
           assert (Str.startswith (String a hay) needle = true)
             by (apply startswith_spec; eauto).
           congruence.
        -- rewrite append_cons in H. injection H as -> ->. eauto.
Qed.

End StringFacts.

(** ** The link resolver *)

Section LinkResolver.
Import SheetDownloader.

Lemma take_id_split (s : string) :
  ∃ post, s = take_id s +:+ post ∧ Str.forallb is_id_char (take_id s) = true.
Proof.
  induction s as [|c s (post & Hs & Hall)]; simpl.
  - by exists EmptyString.
  - destruct (is_id_char c) eqn:Hc.
    + exists post. rewrite append_cons, <- Hs. simpl. by rewrite Hc, Hall.
    + by exists (String c s).
Qed.

Lemma take_id_append (id post : string) :
  id ≠ EmptyString → Str.forallb is_id_char id = true →
  take_id (id +:+ post) ≠ EmptyString.
Proof.
  destruct id as [|c id]; [done|]. intros _ Hall. simpl in Hall.
  apply andb_true_iff in Hall as [Hc _].
  rewrite append_cons. simpl. by rewrite Hc.
Qed.

Lemma match_here_matches (s id : string) :
  match_here s = Some id → Spec.link_pattern_matches s.
Proof.
  unfold match_here.
  destruct (Str.strip_prefix sheet_link_prefix s) as [rest|] eqn:E; [|done].
  apply strip_prefix_spec in E.
  destruct (take_id_split rest) as (post & Hrest & Hall).
  destruct (take_id rest) as [|c t] eqn:Et; [done|]. intros _.
  exists EmptyString, (String c t), post. by rewrite append_nil_l, <- Hrest.
Qed.

Lemma re_search_unfold (s : string) :
  re_search s =
  match match_here s with
  | Some id => Some id
  | None =>
      match s with
      | EmptyString => None
      | String _ s' => re_search s'
      end
  end.
Proof. by destruct s. Qed.

Lemma re_search_matches (s id : string) :
  re_search s = Some id → Spec.link_pattern_matches s.
Proof.
  induction s as [|a s IH]; intros H.
  - by vm_compute in H.
  - simpl in H. destruct (match_here (String a s)) eqn:E.
    + by eapply match_here_matches.
    + destruct (IH H) as (pre & i & post & -> & ? & ?).
      by exists (String a pre), i, post.
Qed.

Lemma matches_re_search (s : string) :
  Spec.link_pattern_matches s → is_Some (re_search s).
Proof.
  intros (pre & id & post & -> & Hne & Hall).
  induction pre as [|a pre IH].
  - rewrite append_nil_l.
    assert (is_Some (match_here (sheet_link_prefix +:+ id +:+ post))) as [x Hx].
    { unfold match_here. rewrite strip_prefix_append.
      pose proof (take_id_append id post Hne Hall).
      destruct (take_id (id +:+ post)); [done|eauto]. }
    rewrite re_search_unfold. by rewrite Hx.
  - rewrite append_cons, re_search_unfold. by destruct (match_here _).
Qed.

(** The resolver fails exactly on the strings the pattern does not match. *)
Lemma resolver_fails_iff (url : string) :
  (∃ e, get_google_sheet_download_link url = inl e)
  ↔ ¬ Spec.link_pattern_matches url.
Proof.
  unfold get_google_sheet_download_link.
  destruct (re_search url) as [id|] eqn:E.
  - split; [by intros [? ?]|].
    intros []. by eapply re_search_matches.
  - split; [|eauto]. intros _ [x Hx]%matches_re_search. congruence.
Qed.

(** A resolved link is the prefix, an identifier and the export suffix. *)
Lemma resolver_result (url download_url : string) :
  get_google_sheet_download_link url = inr download_url →
  ∃ id, Str.forallb is_id_char id = true
        ∧ download_url = sheet_link_prefix +:+ id +:+ "/export?format=xlsx".
Proof.
  unfold get_google_sheet_download_link.
  destruct (re_search url) as [id|] eqn:E; [|done]. intros [= <-].
  exists id. split; [|done].
  induction url as [|a url IH].
  - by vm_compute in E.
  - simpl in E. destruct (match_here (String a url)) as [i|] eqn:Em; [|by apply IH].
    injection E as ->. unfold match_here in Em.
    destruct (Str.strip_prefix _ _) as [rest|]; [|done].
    destruct (take_id_split rest) as (post & _ & Hall).
    destruct (take_id rest); [done|]. by injection Em as <-.
Qed.

Lemma id_char_not_space (c : ascii) :
  is_id_char c = true → is_space c = false.
Proof.
  destruct c as [[] [] [] [] [] [] [] []]; vm_compute; congruence.
Qed.

Lemma nonspace_to_end_append (s t : string) :
  Str.forallb (fun c => negb (is_space c)) s = true →
  nonspace_to_end t = true → nonspace_to_end (s +:+ t) = true.
Proof.
  intros Hs Ht. induction s as [|c s IH]; [done|].
  simpl in Hs. apply andb_true_iff in Hs as [Hc Hs].
  rewrite append_cons. simpl. rewrite Hc. simpl.
  specialize (IH Hs). destruct (s +:+ t) as [|d [|]]; try done.
  - by destruct d as [[] [] [] [] [] [] [] []].
  - by destruct d as [[] [] [] [] [] [] [] []].
Qed.

Lemma forallb_impl (f g : ascii → bool) (s : string) :
  (∀ c, f c = true → g c = true) →
  Str.forallb f s = true → Str.forallb g s = true.
Proof.
  intros Hfg. induction s as [|c s IH]; [done|]. simpl.
  rewrite !andb_true_iff. intros [? ?]. auto.
Qed.

(** Every link the resolver produces passes [is_valid_url]. *)
Lemma resolved_link_is_valid (url download_url : string) :
  get_google_sheet_download_link url = inr download_url →
  is_valid_url download_url = true.
Proof.
  intros (id & Hall & ->)%resolver_result. unfold is_valid_url.
  change (sheet_link_prefix +:+ id +:+ "/export?format=xlsx")
    with ("https://" +:+ "docs.google.com/spreadsheets/d/" +:+ id
          +:+ "/export?format=xlsx").
  rewrite strip_prefix_append.
  apply (nonspace_to_end_append "docs.google.com/spreadsheets/d/"); [done|].
  apply nonspace_to_end_append; [|done].
  eapply forallb_impl; [|exact Hall].
  intros c Hc. by rewrite (id_char_not_space c Hc).
Qed.

End LinkResolver.

(** ** download_sheet *)

Section DownloadSheet.
Import SheetDownloader.


(** C2. When the spreadsheet-link pattern matches nowhere in the input, the
    resolver raises its ValueError, [download_sheet] returns the status -1
    with no thread, and its trace is empty: no HTTP request is issued. *)
Theorem invalid_url_is_rejected_offline (e : env) (url : string) :
  ¬ Spec.link_pattern_matches url →
  (∃ err, get_google_sheet_download_link url = inl err)
  ∧ download_sheet e url = ((-1, None), [])
  ∧ Forall (fun ev => Spec.is_http_get ev = false) (snd (download_sheet e url)).
Proof.
  intros [err Herr]%resolver_fails_iff.
  assert (download_sheet e url = ((-1, None), [])) as Hd
    by (unfold download_sheet; by rewrite Herr).
  split; [eauto|]. split; [done|]. rewrite Hd. constructor.
Qed.

Lemma invalid_url_is_rejected_offline_witness :
  download_sheet (Examples.desktop (Responds Examples.xlsx_response) true)
    "https://example.com/spreadsheets/d/1AbC" = ((-1, None), []).
Proof.
  apply (invalid_url_is_rejected_offline
           (Examples.desktop (Responds Examples.xlsx_response) true)
           "https://example.com/spreadsheets/d/1AbC").
  apply resolver_fails_iff. eexists. vm_compute. reflexivity.
Defined.

(** An exception raised inside the [try] is answered -4 or -6. *)
Lemma handle_exception_cases (ex : exn_class) :
  handle_exception ex = -4 ∨ handle_exception ex = -6.
Proof. destruct ex; vm_compute; auto. Qed.









(** The statuses that [download_sheet] can return, with the thread that
    goes with each. *)
Lemma download_sheet_returns (e : env) (url : string) :
  (fst (download_sheet e url)
   = (1, Some {| thread_baseline := latest_download e |}))
  ∨ (snd (fst (download_sheet e url)) = None
     ∧ fst (fst (download_sheet e url)) ∈ [0; -1; -2; -3; -4; -6]).
Proof.
  unfold download_sheet, raised.
  destruct (get_google_sheet_download_link url) as [?|dl];
    [right; simpl; set_solver|].
  destruct (requests_get e dl) as [r|ex].
  2:{ right. simpl. destruct (handle_exception_cases ex) as [-> | ->];
        set_solver. }
  assert (∀ ex evs, snd (fst (raised ex evs)) = None
                    ∧ fst (fst (raised ex evs)) ∈ [0; -1; -2; -3; -4; -6])
    as Hraised.
  { intros ex evs. unfold raised. simpl.
    destruct (handle_exception_cases ex) as [-> | ->]; set_solver. }
  unfold raised in Hraised.
  destruct (_ || _).
  - destruct (local_raises e ScanDownloads); [right; apply Hraised|].
    destruct (open_browser e dl) as [[ex|[]] opened];
      [right; apply Hraised| |right; simpl; set_solver].
    destruct (local_raises e StartThread); [right; apply Hraised|by left].
  - destruct (status_code r =? 200); [|right; simpl; set_solver].
    destruct (local_raises e AppDownloadsFolder); [right; apply Hraised|].
    destruct (local_raises e OpenStaged); [right; apply Hraised|].
    destruct (local_raises e WriteStaged); [right; apply Hraised|].
    destruct (local_raises e Callback); [right; apply Hraised|].
    right. simpl. set_solver.
Qed.

(** C5. The two error kinds are not told apart: [download_sheet] never
    returns -5. The handler for RequestException is tried first and Timeout
    is one of its subclasses, so a timeout is answered -4 like a connection
    error, although the UI holds distinct messages for -4 and -5. *)
Theorem timeout_is_reported_as_network_error :
  (∀ e url, fst (fst (download_sheet e url)) ≠ -5)
  ∧ handle_exception ConnectionError = -4
  ∧ (∀ ex, issubclass ex Timeout = true → handle_exception ex = -4)
  ∧ fst (download_sheet (Examples.desktop (Raises ReadTimeout) true)
           Examples.sheet_url) = (-4, None)
  ∧ Main.download_failed_message (-4) ≠ Main.download_failed_message (-5).
Proof.
  split; [|split; [done|split; [|by vm_compute]]].
  - intros e url.
    destruct (download_sheet_returns e url) as [-> |[_ Hin]]; [done|].
    intros Heq. rewrite Heq in Hin. set_solver.
  - intros ex. by destruct ex.
Qed.

(** C10. [download_sheet] returns a thread exactly when the status is 1,
    and the status is one of 1, 0, -1, -2, -3, -4, -5, -6. *)
Theorem thread_iff_manual_download (e : env) (url : string) :
  (is_Some (snd (fst (download_sheet e url)))
   ↔ fst (fst (download_sheet e url)) = 1)
  ∧ (fst (fst (download_sheet e url)) ≠ 1
     → snd (fst (download_sheet e url)) = None)
  ∧ fst (fst (download_sheet e url)) ∈ [1; 0; -1; -2; -3; -4; -5; -6].
Proof.
  destruct (download_sheet_returns e url) as [-> |[-> Hin]]; simpl.
  - split_and!; [split; eauto|done|set_solver].
  - split_and!; [|done|set_solver].
    split; [by intros [? ?]|]. intros Heq. rewrite Heq in Hin. set_solver.
Qed.

End DownloadSheet.

(** ** The fallback watcher *)

Section Watcher.
Import SheetDownloader.

Variable w : watch_env.
Variable baseline_file : option path.
Variable timeout : Z.

Local Abbreviation in_time := (Spec.in_time w timeout).
Local Abbreviation quiet := Spec.quiet.

Lemma quiet_count (evs : list event) :
  quiet evs → List.filter Spec.is_callback evs = [].
Proof.
  induction 1 as [|ev evs Hev _ IH]; [done|]. simpl. by rewrite Hev.
Qed.

Lemma watch_loop_unfold (fuel i : nat) :
  watch_loop (S fuel) w baseline_file timeout i =
  let next :=
    '(r, evs) ← watch_loop fuel w baseline_file timeout (S i);
    Some (r, EvSleep :: evs) in
  if clock w (S i) - clock w 0 <? timeout then
    match observe w i with
    | PollError => Some (Failed, [])
    | Latest current_latest =>
        if bool_decide (current_latest ≠ baseline_file) then
          match current_latest with
          | Some f => Some (Detected, [EvLatestXlsx current_latest; EvCallback f])
          | None => '(r, evs) ← next; Some (r, EvLatestXlsx current_latest :: evs)
          end
        else '(r, evs) ← next; Some (r, EvLatestXlsx current_latest :: evs)
    end
  else Some (TimedOut, []).
Proof. reflexivity. Qed.

(** What a finished watch looks like, from iteration [i] on. *)
Lemma watch_loop_shape (fuel i : nat) (r : watch_end) (evs : list event) :
  watch_loop fuel w baseline_file timeout i = Some (r, evs) →
  (r = Detected →
   ∃ pre f j,
     evs = pre ++ [EvLatestXlsx (Some f); EvCallback f]
     ∧ quiet pre ∧ Some f ≠ baseline_file
     ∧ (i ≤ j)%nat ∧ (∀ k, (i ≤ k ≤ j)%nat → in_time k)
     ∧ observe w j = Latest (Some f))
  ∧ (r ≠ Detected → quiet evs).
Proof.
  revert i r evs. induction fuel as [|fuel IH]; intros i r evs; [done|].
  rewrite watch_loop_unfold. cbv zeta.
  destruct (Z.ltb_spec (clock w (S i) - clock w 0) timeout) as [Hin|Hout];
    [|intros [= <- <-]; split; [done|constructor]].
  assert (∀ o,
    ('(r0, evs0) ← ('(r1, evs1) ← watch_loop fuel w baseline_file timeout (S i);
                    Some (r1, EvSleep :: evs1));
     Some (r0, EvLatestXlsx o :: evs0)) = Some (r, evs) →
    (r = Detected →
     ∃ pre f j,
       evs = pre ++ [EvLatestXlsx (Some f); EvCallback f]
       ∧ quiet pre ∧ Some f ≠ baseline_file
       ∧ (i ≤ j)%nat ∧ (∀ k, (i ≤ k ≤ j)%nat → in_time k)
       ∧ observe w j = Latest (Some f))
    ∧ (r ≠ Detected → quiet evs)) as Hnext.
  { intros o.
    destruct (watch_loop fuel w baseline_file timeout (S i)) as [[r1 evs1]|]
      eqn:E; [|done].
    simpl. intros [= <- <-]. destruct (IH _ _ _ E) as [Hd Hq]. split.
    - intros Hr. destruct (Hd Hr) as (pre & f & j & -> & Hpre & Hf & Hj & Hk & Ho).
      exists (EvLatestXlsx o :: EvSleep :: pre), f, j.
      split_and!; [done| by repeat constructor | done | lia | | done].
      intros k Hk'. destruct (decide (k = i)) as [->|]; [done|]. apply Hk. lia.
    - intros Hr. repeat constructor; auto. by apply Hq. }
  destruct (observe w i) as [[f|]|] eqn:Ho.
  - case_bool_decide as Hne; [|apply Hnext].
    intros [= <- <-]. split; [|done]. intros _.
    exists [], f, i. split_and!; try done; [constructor|].
    intros k Hk. by replace k with i by lia.
  - case_bool_decide; apply Hnext.
  - intros [= <- <-]. split; [done|constructor].
Qed.

(** More fuel does not change the answer of a watch that finished. *)
Lemma watch_loop_more_fuel (fuel extra i : nat) (x : watch_end * list event) :
  watch_loop fuel w baseline_file timeout i = Some x →
  watch_loop (fuel + extra) w baseline_file timeout i = Some x.
Proof.
  revert i x. induction fuel as [|fuel IH]; intros i x; [done|].
  change (S fuel + extra)%nat with (S (fuel + extra)).
  rewrite !watch_loop_unfold. cbv zeta.
  destruct (_ <? _); [|done].
  destruct (watch_loop fuel w baseline_file timeout (S i)) as [y|] eqn:E.
  - by rewrite (IH _ _ E).
  - destruct (observe w i) as [[f|]|]; [|..|done].
    + by case_bool_decide.
    + by case_bool_decide.
Qed.

(** The watch finishes once the clock has passed the deadline. *)
Lemma watch_loop_finishes (k i : nat) :
  timeout ≤ clock w (S (i + k)) - clock w 0 →
  is_Some (watch_loop (S k) w baseline_file timeout i).
Proof.
  revert i. induction k as [|k IH]; intros i Hout.
  - rewrite watch_loop_unfold. cbv zeta.
    replace (i + 0)%nat with i in Hout by lia.
    destruct (Z.ltb_spec (clock w (S i) - clock w 0) timeout); [lia|eauto].
  - rewrite watch_loop_unfold. cbv zeta.
    destruct (_ <? _); [|eauto].
    destruct (IH (S i)) as [[r evs] E];
      [by replace (S i + k)%nat with (i + S k)%nat by lia|].
    rewrite E. simpl.
    destruct (observe w i) as [[f|]|]; [|..|eauto].
    + case_bool_decide; eauto.
    + case_bool_decide; eauto.
Qed.

Lemma only_callback_is_last (pre0 pre post : list event) (o : option path)
    (f0 f : path) :
  quiet pre0 →
  pre0 ++ [EvLatestXlsx o; EvCallback f0] = pre ++ EvCallback f :: post →
  pre = pre0 ++ [EvLatestXlsx o] ∧ f = f0 ∧ post = [].
Proof.
  intros Hq. revert pre. induction Hq as [|a pre0 Ha _ IH]; intros pre Heq.
  - destruct pre as [|x [|y pre]]; [done|by injection Heq as <- <- <-|].
    injection Heq as _ _ Heq. by destruct pre.
  - destruct pre as [|x pre]; simplify_eq/=.
    destruct (IH pre) as (-> & -> & ->); done.
Qed.

Lemma quiet_no_callback (pre post : list event) (f : path) :
  ¬ quiet (pre ++ EvCallback f :: post).
Proof.
  unfold Spec.quiet. by intros [_ [? _]%Forall_cons]%Forall_app.
Qed.

(** C6. Once the clock has passed the deadline, a watch has finished, with a
    result that does not depend on the fuel. Its trace holds at most one
    call of the callback. A call of the callback is the last event of the
    trace, it comes right after a poll that was made before the deadline and
    returned that file, and that file differs from the baseline. When no poll
    made before the deadline returns a file other than the baseline, the
    watch ends without any call of the callback. *)
Theorem watcher_fires_once_after_new_file (N : nat) :
  timeout ≤ clock w (S N) - clock w 0 →
  ∃ r evs,
    _watch_for_download (S N) w baseline_file timeout = Some (r, evs)
    ∧ (∀ fuel x,
         _watch_for_download fuel w baseline_file timeout = Some x →
         x = (r, evs))
    ∧ (length (List.filter Spec.is_callback evs) ≤ 1)%nat
    ∧ (∀ pre f post,
         evs = pre ++ EvCallback f :: post →
         post = []
         ∧ Some f ≠ baseline_file
         ∧ ∃ pre' j,
             pre = pre' ++ [EvLatestXlsx (Some f)] ∧ quiet pre'
             ∧ observe w j = Latest (Some f)
             ∧ ∀ k, (k ≤ j)%nat → in_time k)
    ∧ ((∀ j f,
          (∀ k, (k ≤ j)%nat → in_time k) →
          observe w j = Latest (Some f) → Some f = baseline_file) →
       r ≠ Detected ∧ quiet evs).
Proof.
  intros Hout. unfold _watch_for_download.
  destruct (watch_loop_finishes N 0 Hout) as [[r evs] E].
  exists r, evs. destruct (watch_loop_shape _ _ _ _ E) as [Hd Hq].
  split; [done|]. split; [|split; [|split]].
  - intros fuel x Hx.
    apply (watch_loop_more_fuel _ (S N)) in Hx.
    apply (watch_loop_more_fuel _ fuel) in E.
    rewrite (Nat.add_comm fuel) in Hx. congruence.
  - destruct (decide (r = Detected)) as [Hr|Hr].
    + destruct (Hd Hr) as (pre & f & j & -> & Hpre & _).
      rewrite List.filter_app, (quiet_count _ Hpre). simpl. lia.
    + rewrite (quiet_count _ (Hq Hr)). simpl. lia.
  - intros pre f post ->. destruct (decide (r = Detected)) as [Hr|Hr].
    + destruct (Hd Hr) as (pre0 & f0 & j & Heq & Hpre & Hf & _ & Hk & Ho).
      symmetry in Heq.
      destruct (only_callback_is_last _ _ _ _ _ _ Hpre Heq) as (-> & -> & ->).
      split_and!; [done..|]. exists pre0, j. split_and!; [done..|].
      intros k Hk'. apply Hk. lia.
    + by destruct (quiet_no_callback pre post f (Hq Hr)).
  - intros Hnone. destruct (decide (r = Detected)) as [Hr|Hr]; [|auto].
    destruct (Hd Hr) as (pre & f & j & _ & _ & Hf & _ & Hk & Ho).
    destruct Hf. apply (Hnone j); [|done]. intros k Hk'. apply Hk. lia.
Qed.

End Watcher.

Lemma watcher_fires_once_after_new_file_witness :
  ∃ r evs,
    SheetDownloader._watch_for_download 101 Examples.arriving
      (Some Examples.old_download) SheetDownloader.default_timeout
    = Some (r, evs)
    ∧ (length (List.filter Spec.is_callback evs) ≤ 1)%nat.
Proof.
  destruct (watcher_fires_once_after_new_file Examples.arriving
              (Some Examples.old_download) SheetDownloader.default_timeout 100)
    as (r & evs & Hrun & _ & Hcount & _).
  - vm_compute. congruence.
  - exists r, evs. split; [exact Hrun | exact Hcount].
Defined.

(** ** The file system *)

Section FsFacts.
Import Fs.

Lemma lookup_mkdir (m m1 : fs) (t p : path) :
  mkdir_parents m t = inr m1 →
  m1 !! p = if decide (p ∈ prefixes t) then Some Dir else m !! p.
Proof.
  unfold mkdir_parents. destruct (existsb _ _); [done|]. intros [= <-].
  induction (prefixes t) as [|q qs IH]; simpl; [done|].
  - destruct (decide (q = p)) as [->|Hne].
    + rewrite lookup_insert_eq.
      destruct (decide (p ∈ p :: qs)); [done|set_solver].
    + rewrite lookup_insert_ne by done. rewrite IH.
      destruct (decide (p ∈ qs)) as [Hin|Hout],
        (decide (p ∈ q :: qs)) as [Hin'|Hout']; try done.
      * destruct Hout'. by right.
      * apply elem_of_cons in Hin' as [->|?]; done.
Qed.

Lemma mkdir_succeeds (m : fs) (t : path) :
  (∀ q, q ∈ prefixes t → is_file m q = false) →
  ∃ m1, mkdir_parents m t = inr m1.
Proof.
  intros H. unfold mkdir_parents.
  destruct (existsb _ _) eqn:E; [|eauto].
  apply existsb_exists in E as (q & Hq%list_elem_of_In & Hf).
  rewrite (H q Hq) in Hf. done.
Qed.

Lemma lookup_write (m m1 : fs) (t p : path) (d : list byte) :
  write_file m t d = inr m1 →
  m1 !! p = if decide (p = t) then Some (File d) else m !! p.
Proof.
  unfold write_file. destruct (is_dir m t); [done|].
  destruct (is_dir m (parent t)); [|by destruct (is_file _ _)].
  intros [= <-]. destruct (decide (p = t)) as [->|].
  - by rewrite lookup_insert_eq.
  - by rewrite lookup_insert_ne.
Qed.

Lemma write_succeeds (m : fs) (t : path) (d : list byte) :
  is_dir m t = false → is_dir m (parent t) = true →
  write_file m t d = inr (<[t := File d]> m).
Proof. intros H1 H2. unfold write_file. by rewrite H1, H2. Qed.

Lemma file_at_Some (m : fs) (p : path) (d : list byte) :
  file_at m p = Some d ↔ m !! p = Some (File d).
Proof.
  unfold file_at. destruct (m !! p) as [[d'|]|]; split; congruence.
Qed.

Lemma exists_of_lookup (m : fs) (p : path) (n : node) :
  m !! p = Some n → exists_ m p = true.
Proof.
  intros H. unfold exists_. rewrite H.
  rewrite (bool_decide_eq_true_2 (is_Some _)) by eauto. apply orb_true_r.
Qed.

Lemma elem_of_rev {A} (x : A) (l : list A) : x ∈ rev l ↔ x ∈ l.
Proof. rewrite !list_elem_of_In. symmetry. apply in_rev. Qed.

Lemma parent_prefix (p : path) : parent p `prefix_of` p.
Proof.
  unfold parent. rewrite removelast_firstn_len.
  exists (drop (Nat.pred (length p)) p). by rewrite take_drop.
Qed.

Lemma elem_of_prefixes (p q : path) :
  q ∈ prefixes p ↔ q ≠ [] ∧ q `prefix_of` p.
Proof.
  unfold prefixes. rewrite list_elem_of_fmap. split.
  - intros (n & -> & Hn%elem_of_seq). split.
    + destruct p, n; simpl in *; (done || lia).
    + exists (drop n p). by rewrite take_drop.
  - intros [Hne [k ->]]. exists (length q). split.
    + by rewrite take_app_length.
    + apply elem_of_seq. rewrite length_app. destruct q; simpl in *; [done|lia].
Qed.

End FsFacts.


(** ** Archive names and pathlib joins *)

Section ArchiveNames.
Import Fs Main.

Local Abbreviation slash_free c := (Str.contains "/" c = false).

Lemma contains_slash_cons (a : ascii) (s : string) :
  Str.contains "/" (String a s) = Ascii.eqb "/" a || Str.contains "/" s.
Proof.
  change (Str.contains "/" (String a s))
    with (if Str.startswith (String a s) "/" then true
          else Str.contains "/" s).
  unfold Str.startswith. cbn [Str.strip_prefix].
  by destruct (Ascii.eqb "/" a).
Qed.

Lemma slash_free_cons (a : ascii) (s : string) :
  slash_free (String a s) → Ascii.eqb a "/" = false ∧ slash_free s.
Proof.
  rewrite contains_slash_cons, orb_false_iff, Ascii.eqb_sym. tauto.
Qed.

Lemma split_slash_one (c : string) :
  slash_free c → Str.split_slash c = [c].
Proof.
  induction c as [|a c IH]; [done|]. intros [Ha Hc]%slash_free_cons.
  simpl. by rewrite Ha, (IH Hc).
Qed.

Lemma split_slash_append (c rest : string) :
  slash_free c →
  Str.split_slash (c +:+ String "/" rest) = c :: Str.split_slash rest.
Proof.
  induction c as [|a c IH]; [done|]. intros [Ha Hc]%slash_free_cons.
  rewrite append_cons. simpl. by rewrite Ha, (IH Hc).
Qed.

Lemma split_join (parts : list string) :
  parts ≠ [] → Forall (fun c => slash_free c) parts →
  Str.split_slash (Str.join_slash parts) = parts.
Proof.
  induction parts as [|c parts IH]; [done|]. intros _ Hall.
  apply Forall_cons in Hall as [Hc Hall]. destruct parts as [|c' parts].
  - by apply split_slash_one.
  - change (Str.join_slash (c :: c' :: parts))
      with (c +:+ String "/" (Str.join_slash (c' :: parts))).
    rewrite split_slash_append by done. by rewrite IH.
Qed.

Lemma valid_names_slash_free (r : path) :
  Forall Spec.valid_name r → Forall (fun c => slash_free c) r.
Proof.
  intros H. eapply Forall_impl; [exact H|]. by intros c (_ & _ & ?).
Qed.

(** pathlib reads back the components that were joined. *)
Lemma parse_join (r : path) :
  Forall Spec.valid_name r → parse_parts (Str.join_slash r) = r.
Proof.
  intros Hv. unfold parse_parts. destruct (decide (r = [])) as [->|Hne].
  { by vm_compute. }
  rewrite split_join by auto using valid_names_slash_free.
  clear Hne. induction Hv as [|c r (? & ? & _) _ IH]; [done|].
  rewrite filter_cons_True by done. by rewrite IH.
Qed.

Lemma startswith_slash_cons (a : ascii) (s : string) :
  Str.startswith (String a s) "/" = Ascii.eqb "/" a.
Proof.
  unfold Str.startswith. cbn [Str.strip_prefix].
  by destruct (Ascii.eqb "/" a).
Qed.

Lemma join_relative (r : path) :
  Forall Spec.valid_name r → Str.startswith (Str.join_slash r) "/" = false.
Proof.
  intros Hv. destruct Hv as [|c r (Hne & _ & Hc) _]; [done|].
  destruct c as [|a c]; [done|].
  apply slash_free_cons in Hc as [Ha _].
  assert (∃ s, Str.join_slash (String a c :: r) = String a s) as [s ->].
  { destruct r; simpl; eauto. }
  by rewrite startswith_slash_cons, Ascii.eqb_sym.
Qed.

Lemma ends_with_slash_contains (s : string) :
  Str.ends_with_slash s = true → Str.contains "/" s = true.
Proof.
  induction s as [|a s IH]; [done|]. rewrite contains_slash_cons. simpl.
  destruct s as [|b s].
  - intros ->%Ascii.eqb_eq. done.
  - intros H. rewrite (IH H). apply orb_true_r.
Qed.

Lemma ends_with_slash_append (s t : string) :
  t ≠ EmptyString →
  Str.ends_with_slash (s +:+ t) = Str.ends_with_slash t.
Proof.
  intros Ht. induction s as [|a s IH]; [done|].
  rewrite append_cons. simpl. rewrite IH.
  destruct (s +:+ t) eqn:E; [|done]. by destruct s, t.
Qed.

Lemma join_slash_ne (r : path) :
  r ≠ [] → Forall Spec.valid_name r → Str.join_slash r ≠ EmptyString.
Proof.
  intros Hne Hv. destruct Hv as [|c r (Hc & _) _]; [done|].
  destruct c; [done|]. destruct r; simpl; [done|]. by rewrite append_cons.
Qed.

Lemma join_no_trailing_slash (r : path) :
  r ≠ [] → Forall Spec.valid_name r →
  Str.ends_with_slash (Str.join_slash r) = false.
Proof.
  induction r as [|c r IH]; [done|]. intros _ Hv.
  apply Forall_cons in Hv as [(Hne & _ & Hc) Hv]. destruct r as [|c' r].
  - simpl. destruct (Str.ends_with_slash c) eqn:E; [|done].
    apply ends_with_slash_contains in E. congruence.
  - change (Str.join_slash (c :: c' :: r))
      with (c +:+ String "/" (Str.join_slash (c' :: r))).
    rewrite ends_with_slash_append by done.
    specialize (IH ltac:(done) Hv).
    pose proof (join_slash_ne (c' :: r) ltac:(done) Hv).
    destruct (Str.join_slash (c' :: r)) as [|b s]; [done|]. exact IH.
Qed.

Lemma arcname_unfold (r : path) :
  r ≠ [] → arcname r = "n8n-data/" +:+ Str.join_slash r.
Proof. by destruct r. Qed.

(** The member written for the file [r] is read back as the file [r] of
    the data directory. *)
Lemma arcname_target (h : host) (r : path) :
  r ≠ [] → Forall Spec.valid_name r →
  Str.startswith (arcname r) "n8n-data/" = true
  ∧ Str.ends_with_slash (arcname r) = false
  ∧ joinpath (n8n_data_dir h) (Str.drop 9 (arcname r)) = n8n_data_dir h ++ r.
Proof.
  intros Hne Hv. rewrite arcname_unfold by done. split_and!.
  - apply startswith_spec. eauto.
  - rewrite ends_with_slash_append by by apply join_slash_ne.
    by apply join_no_trailing_slash.
  - change (Str.drop 9 ("n8n-data/" +:+ Str.join_slash r))
      with (Str.join_slash r).
    unfold joinpath. by rewrite join_relative, parse_join.
Qed.

Lemma arcname_inj (r r' : path) :
  r ≠ [] → r' ≠ [] → Forall Spec.valid_name r → Forall Spec.valid_name r' →
  arcname r = arcname r' → r = r'.
Proof.
  intros Hne Hne' Hv Hv'. rewrite !arcname_unfold by done.
  intros H%(inj (String.append _)).
  by rewrite <- (parse_join r), <- (parse_join r'), H.
Qed.

Lemma arcname_not_env (r : path) :
  r ≠ [] → arcname r ≠ ".env" ∧ arcname r ≠ ".env/".
Proof. intros Hne. rewrite arcname_unfold by done. by split. Qed.

End ArchiveNames.


(** ** The layout of the project directories *)

Section Layout.
Import Fs Main.

Lemma parent_split (p : path) :
  ∃ tail, p = parent p ++ tail ∧ (length tail ≤ 1)%nat.
Proof.
  destruct (decide (p = [])) as [->|Hne].
  - exists []. split; [done|simpl; lia].
  - exists [List.last p EmptyString]. split; [|simpl; lia].
    by apply app_removelast_last.
Qed.

(** The three directories, from the grandparent of the script directory. *)
Lemma layout (h : host) :
  ∃ root tail,
    (length tail ≤ 1)%nat
    ∧ docker_n8n_dir h = root ++ tail ++ ["docker-n8n"]
    ∧ user_data_dir h = root ++ ["n8n-files"; "user-data"].
Proof.
  unfold docker_n8n_dir, user_data_dir.
  destruct (parent_split (parent (script_path h))) as (tail & Hp & Hlen).
  exists (parent (parent (script_path h))), tail. split; [done|].
  split; [|done]. rewrite Hp at 1. by rewrite <- !app_assoc.
Qed.

(** Nothing on the way to the archive directory is the environment file, or
    the data directory, or something below it. *)
Lemma user_data_apart (h : host) (q : path) :
  q `prefix_of` user_data_dir h →
  q ≠ env_file h ∧ ¬ (n8n_data_dir h `prefix_of` q).
Proof.
  unfold env_file, n8n_data_dir.
  destruct (layout h) as (root & tail & Hlen & -> & ->). intros Hq.
  assert (∀ x, ¬ ((root ++ tail ++ ["docker-n8n"]) ++ [x]
                  `prefix_of` root ++ ["n8n-files"; "user-data"])) as Hno.
  { intros x. rewrite <- !app_assoc. intros Hp%prefix_app_inv.
    destruct tail as [|a [|b tail]]; simpl in *; [..|lia].
    - by apply prefix_cons_inv_1 in Hp.
    - apply prefix_length in Hp. simpl in Hp. lia. }
  split.
  - intros ->. by apply (Hno ".env").
  - intros Hd. apply (Hno "n8n-data"). by etrans.
Qed.

Lemma env_file_apart (h : host) :
  env_file h ≠ []
  ∧ (env_file h ∉ prefixes (n8n_data_dir h))
  ∧ ¬ (n8n_data_dir h `prefix_of` env_file h)
  ∧ parent (env_file h) = docker_n8n_dir h
  ∧ docker_n8n_dir h ∈ prefixes (n8n_data_dir h).
Proof.
  unfold env_file, n8n_data_dir. split_and!.
  - by destruct (docker_n8n_dir h).
  - rewrite elem_of_prefixes. intros [_ Hp].
    apply prefix_app_inv in Hp. by apply prefix_cons_inv_1 in Hp.
  - intros Hp. apply prefix_app_inv in Hp. by apply prefix_cons_inv_1 in Hp.
  - apply removelast_last.
  - rewrite elem_of_prefixes. split; [|by eexists].
    unfold docker_n8n_dir. by destruct (parent (script_path h)).
Qed.

Lemma relative_to_spec (base p rel : path) :
  relative_to base p = Some rel ↔ p = base ++ rel.
Proof.
  revert p. induction base as [|b base IH]; intros p; simpl.
  - split; congruence.
  - destruct p as [|c p]; [done|]. case_decide as Hbc.
    + subst. rewrite IH. split; congruence.
    + split; [done|]. congruence.
Qed.

(** [all_files] lists the files below the data directory that the filter
    keeps. *)
Lemma elem_of_all_files (h : host) (m : fs) (rel : path) (d : list byte) :
  (rel, d) ∈ all_files h m ↔
  is_dir m (n8n_data_dir h) = true ∧ rel ≠ []
  ∧ file_at m (n8n_data_dir h ++ rel) = Some d ∧ kept rel = true.
Proof.
  unfold all_files. destruct (is_dir m (n8n_data_dir h));
    [|split; [by intros ?%elem_of_nil|by intros [? _]]].
  rewrite list_elem_of_omap. split.
  - intros ([p n] & Hin%elem_of_map_to_list & Hf).
    destruct n as [d'|]; [|done].
    destruct (relative_to (n8n_data_dir h) p) as [[|c r]|] eqn:Hr; [done| |done].
    apply relative_to_spec in Hr as ->.
    destruct (kept (c :: r)) eqn:Hk; [|done]. injection Hf as <- <-.
    unfold file_at. by rewrite Hin.
  - intros (_ & Hne & E%file_at_Some & Hk).
    exists (n8n_data_dir h ++ rel, File d). split.
    + by apply elem_of_map_to_list.
    + simpl. rewrite (proj2 (relative_to_spec _ _ rel)) by done.
      destruct rel; [done|]. by rewrite Hk.
Qed.

(** A name all of whose entries carry the same bytes is read as them. *)
Lemma zip_read_agree (es : list entry) (n : string) (d : list byte) :
  (∃ d', (n, d') ∈ es) → (∀ d', (n, d') ∈ es → d' = d) →
  zip_read es n = d.
Proof.
  intros [d0 Hin] Hall. unfold zip_read.
  destruct (List.find (fun e => bool_decide (fst e = n)) (rev es))
    as [[n' d']|] eqn:E.
  - apply find_some in E as [Hin'%in_rev%list_elem_of_In Hn].
    apply bool_decide_eq_true in Hn. simpl in Hn. subst n'.
    by apply Hall.
  - apply list_elem_of_In, in_rev in Hin.
    pose proof (find_none _ _ E _ Hin) as Hn. simpl in Hn.
    by rewrite bool_decide_eq_true_2 in Hn.
Qed.

End Layout.


(** ** Restoring the files of an archive *)

Section Restore.
Import Fs Main.

Variable h : host.
Variable es : list entry.

(** No member of the archive is damaged. *)
Variable broken : string → option damage.
Hypothesis intact : ∀ member, broken member = None.

(** The files the archive was made of. *)
Variable src : path → list byte → Prop.
Hypothesis src_valid : ∀ r d, src r d → r ≠ [] ∧ Forall Spec.valid_name r.
Hypothesis src_fun : ∀ r d d', src r d → src r d' → d = d'.
Hypothesis src_tree : ∀ r d r' d', src r d → src r' d' → r `prefix_of` r' → r = r'.
Hypothesis src_read : ∀ r d, src r d → zip_read es (arcname r) = d.

Lemma prefix_app_cases (q l1 l2 : path) :
  q `prefix_of` l1 ++ l2 →
  q `prefix_of` l1 ∨ ∃ k, k ≠ [] ∧ q = l1 ++ k ∧ k `prefix_of` l2.
Proof.
  intros Hq.
  destruct (prefix_weak_total q l1 (l1 ++ l2) Hq (prefix_app_r l1 l1 l2 (reflexivity _)))
    as [?|[k ->]]; [by left|].
  apply prefix_app_inv in Hq. destruct k as [|c k].
  - left. by rewrite app_nil_r.
  - right. by exists (c :: k).
Qed.

Lemma parent_shorter (r k : path) :
  r ≠ [] → k `prefix_of` parent r → k `prefix_of` r ∧ k ≠ r.
Proof.
  intros Hne Hk. split; [etrans; [exact Hk|apply parent_prefix]|].
  intros ->. apply prefix_length in Hk. unfold parent in Hk.
  rewrite (app_removelast_last EmptyString Hne) in Hk at 1.
  rewrite length_app in Hk. simpl in Hk. lia.
Qed.

Lemma parent_below (r : path) :
  r ≠ [] → parent (n8n_data_dir h ++ r) = n8n_data_dir h ++ parent r.
Proof. intros Hne. unfold parent. by apply removelast_app. Qed.

Lemma data_dir_ne : n8n_data_dir h ≠ [].
Proof. unfold n8n_data_dir. by destruct (docker_n8n_dir h). Qed.

(** The directories made for the file [r], seen from below the data
    directory and from above it. *)
Lemma lookup_mkdir_below (m m1 : fs) (r r0 : path) :
  mkdir_parents m (n8n_data_dir h ++ parent r) = inr m1 → r0 ≠ [] →
  m1 !! (n8n_data_dir h ++ r0)
  = if decide (r0 `prefix_of` parent r) then Some Dir
    else m !! (n8n_data_dir h ++ r0).
Proof.
  intros E Hne. rewrite (lookup_mkdir _ _ _ _ E).
  destruct (decide (r0 `prefix_of` parent r)) as [Hp|Hp].
  - rewrite decide_True; [done|]. apply elem_of_prefixes. split.
    + pose proof data_dir_ne. by destruct (n8n_data_dir h).
    + by apply prefix_app.
  - rewrite decide_False; [done|]. rewrite elem_of_prefixes.
    intros [_ Hq]. by apply prefix_app_inv in Hq.
Qed.

Lemma lookup_mkdir_above (m m1 : fs) (r q : path) :
  mkdir_parents m (n8n_data_dir h ++ parent r) = inr m1 →
  ¬ (n8n_data_dir h `prefix_of` q) ∨ q = n8n_data_dir h →
  m1 !! q = if decide (q ∈ prefixes (n8n_data_dir h)) then Some Dir
            else m !! q.
Proof.
  intros E Hq. rewrite (lookup_mkdir _ _ _ _ E).
  destruct (decide (q ∈ prefixes (n8n_data_dir h))) as [Hp|Hp].
  - rewrite decide_True; [done|]. rewrite elem_of_prefixes in *.
    split; [tauto|]. apply prefix_app_r, Hp.
  - rewrite decide_False; [done|]. rewrite elem_of_prefixes in *.
    intros [Hne [Hpre|(k & _ & -> & _)]%prefix_app_cases]; [tauto|].
    destruct Hq as [Hq|Hq]; [apply Hq; by eexists|].
    apply Hp. split; [done|]. by rewrite Hq.
Qed.

Lemma lookup_insert_below (m : fs) (r r0 : path) (d : list byte) :
  <[n8n_data_dir h ++ r := File d]> m !! (n8n_data_dir h ++ r0)
  = if decide (r0 = r) then Some (File d) else m !! (n8n_data_dir h ++ r0).
Proof.
  destruct (decide (r0 = r)) as [->|Hne].
  - by rewrite lookup_insert_eq.
  - rewrite lookup_insert_ne; [done|]. by intros ?%(inj (app _)).
Qed.

(** Importing the member of one file, into a data directory that holds
    some of the other files already. *)
Lemma restore_file (written : list (path * list byte)) (m : fs) (r : path)
    (d : list byte) :
  Spec.restored h written m →
  (∀ r0 d0, (r0, d0) ∈ written → src r0 d0) →
  src r d →
  ∃ m2,
    import_member h es broken (arcname r) m = (None, m2)
    ∧ Spec.restored h ((r, d) :: written) m2
    ∧ m2 !! env_file h = m !! env_file h.
Proof.
  intros (Hdirs & Hfiles & Honly & Hsub) Hsrc Hr.
  destruct (src_valid _ _ Hr) as [Hne Hv].
  destruct (arcname_target h r Hne Hv) as (Hs & He & Ht).
  pose proof data_dir_ne as Hdata.
  unfold import_member, extract.
  rewrite Hs, He, Ht, (parent_below r Hne), intact, (src_read _ _ Hr).
  destruct (mkdir_succeeds m (n8n_data_dir h ++ parent r)) as [m1 E].
  { intros q [Hqne Hq]%elem_of_prefixes. unfold is_file.
    destruct (prefix_app_cases _ _ _ Hq) as [Hpre|(k & Hk & -> & Hkp)].
    - rewrite (Hdirs q); [done|]. by apply elem_of_prefixes.
    - destruct (m !! _) as [[d0|]|] eqn:Ek; [|done..].
      apply Honly in Ek; [|done]. apply Hsrc in Ek.
      destruct (parent_shorter r k Hne Hkp) as [Hkr Hkne].
      destruct Hkne. by eapply src_tree. }
  rewrite E.
  assert (m1 !! (n8n_data_dir h ++ r) = m !! (n8n_data_dir h ++ r)) as Hsame.
  { rewrite (lookup_mkdir_below _ _ _ _ E Hne). rewrite decide_False; [done|].
    intros Hp. by destruct (parent_shorter r r Hne Hp). }
  assert (m !! (n8n_data_dir h ++ r) ≠ Some Dir) as Hnd.
  { intros Hd. destruct (Hsub r Hne Hd) as (r' & d' & Hin & Hp & Hneq).
    apply Hneq. eapply src_tree; eauto. }
  rewrite write_succeeds; cycle 1.
  { unfold is_dir. rewrite Hsame, bool_decide_eq_false_2.
    - by destruct (m !! _) as [[|]|].
    - by destruct (n8n_data_dir h). }
  { unfold is_dir. rewrite (lookup_mkdir _ _ _ _ E), decide_True.
    - apply orb_true_r.
    - rewrite (parent_below r Hne). apply elem_of_prefixes.
      split; [by destruct (n8n_data_dir h)|done]. }
  eexists. split; [done|]. split; [split_and!|].
  - intros q Hq. rewrite lookup_insert_ne.
    + rewrite (lookup_mkdir_above _ _ _ _ E), decide_True; [done..|].
      apply elem_of_prefixes in Hq as [_ Hq].
      destruct (decide (q = n8n_data_dir h)); [by right|left].
      intros Hq'. by destruct (anti_symm _ _ _ Hq Hq').
    + intros <-. apply elem_of_prefixes in Hq as [_ Hq%prefix_length].
      rewrite length_app in Hq. destruct r; simpl in *; [done|lia].
  - intros r0 d0 Hin. rewrite lookup_insert_below.
    destruct (decide (r0 = r)) as [->|Hr0].
    + apply elem_of_cons in Hin as [Heq|Hin%Hsrc]; [by simplify_eq|].
      by rewrite (src_fun _ _ _ Hin Hr).
    + apply elem_of_cons in Hin as [Heq|Hin]; [by simplify_eq|].
      pose proof (Hsrc _ _ Hin) as Hs0.
      rewrite (lookup_mkdir_below _ _ _ _ E) by apply (src_valid _ _ Hs0).
      rewrite decide_False; [by apply Hfiles|].
      intros Hp. destruct Hr0. eapply src_tree; [done..|].
      by destruct (parent_shorter r r0 Hne Hp).
  - intros r0 d0 Hr0 Hl. rewrite lookup_insert_below in Hl.
    destruct (decide (r0 = r)) as [->|Hr0r].
    + injection Hl as ->. by left.
    + right. rewrite (lookup_mkdir_below _ _ _ _ E Hr0) in Hl.
      destruct (decide (r0 `prefix_of` parent r)); [done|]. by apply Honly.
  - intros r0 Hr0 Hl. rewrite lookup_insert_below in Hl.
    destruct (decide (r0 = r)) as [->|Hr0r]; [done|].
    rewrite (lookup_mkdir_below _ _ _ _ E Hr0) in Hl.
    destruct (decide (r0 `prefix_of` parent r)) as [Hp|Hp].
    + exists r, d. destruct (parent_shorter r r0 Hne Hp).
      split_and!; [by left|done..].
    + destruct (Hsub r0 Hr0 Hl) as (r' & d' & ? & ? & ?).
      exists r', d'. split_and!; [by right|done..].
  - destruct (env_file_apart h) as (_ & Henv & Hab & _).
    rewrite lookup_insert_ne by (intros Heq; apply Hab; rewrite <- Heq; by eexists).
    rewrite (lookup_mkdir_above _ _ _ _ E) by by left.
    by rewrite decide_False.
Qed.

(** Importing the members of a list of files, in order. *)
Lemma restore_files (files written : list (path * list byte)) (m : fs)
    (rest : list string) :
  Spec.restored h written m →
  (∀ r0 d0, (r0, d0) ∈ written → src r0 d0) →
  (∀ r0 d0, (r0, d0) ∈ files → src r0 d0) →
  ∃ m2,
    import_members h es broken (map (fun f => arcname (fst f)) files ++ rest)
      m
    = import_members h es broken rest m2
    ∧ Spec.restored h (rev files ++ written) m2
    ∧ m2 !! env_file h = m !! env_file h.
Proof.
  revert written m. induction files as [|[r d] files IH];
    intros written m Hinv Hw Hf.
  - by exists m.
  - destruct (restore_file written m r d Hinv Hw) as (m1 & E & Hinv1 & Henv1).
    { apply Hf. by left. }
    destruct (IH ((r, d) :: written) m1 Hinv1) as (m2 & E2 & Hinv2 & Henv2).
    { intros r0 d0 [[= -> ->]|?]%elem_of_cons; [|by apply Hw].
      apply Hf. by left. }
    { intros r0 d0 ?. apply Hf. by right. }
    exists m2. split_and!.
    + simpl. by rewrite E.
    + simpl. by rewrite <- app_assoc.
    + by rewrite Henv2.
Qed.

End Restore.

(** ** Export and import *)

Section ExportImport.
Import Fs Main.
Context {fmt : ZipFormat}.

(** C7. When the name n8n-custom occurs in the output of the process
    listing, the export returns failure with its explanation and leaves the
    file system as it was: no archive is created. *)
Theorem export_refused_while_container_runs (h : host) (m : fs)
    (stdout : string) :
  docker_ps h = Some stdout →
  Spec.occurs_in "n8n-custom" stdout →
  is_docker_running h = true
  ∧ export_n8n_data h m =
      ((false,
        "Cannot export while n8n container is running. Please stop the container first."),
       m).
Proof.
  intros Hps Hin%contains_spec.
  assert (is_docker_running h = true) as Hrun
    by (unfold is_docker_running; by rewrite Hps).
  split; [done|]. unfold export_n8n_data. by rewrite Hrun.
Qed.




(** *** The frame of import *)

Lemma import_member_skips (h : host) (es : list entry)
    (broken : string → option damage) (member : string) (m : fs) :
  Str.startswith member "n8n-data/" = false → member ≠ ".env" →
  import_member h es broken member m = (None, m).
Proof.
  intros Hdata Henv. unfold import_member. rewrite Hdata.
  by rewrite bool_decide_eq_false_2.
Qed.

Lemma extract_frame (es : list entry) (broken : string → option damage)
    (member : string) (target : path) (m : fs) (p : path) :
  p ≠ target → snd (extract es broken member target m) !! p = m !! p.
Proof.
  intros Hp. unfold extract.
  destruct (broken member) as [[text|text]|]; [done|..];
    destruct (write_file m target _) as [?|m1] eqn:E; try done; simpl;
    rewrite (lookup_write _ _ _ p _ E); by rewrite decide_False.
Qed.

Lemma import_member_frame (h : host) (es : list entry)
    (broken : string → option damage) (member : string) (m : fs) (p : path) :
  ¬ Spec.destination h member p →
  snd (import_member h es broken member m) !! p = m !! p.
Proof.
  intros Hp. unfold import_member, Spec.destination in *.
  destruct (Str.startswith member "n8n-data/") eqn:Hdata.
  - set (target := joinpath (n8n_data_dir h) (Str.drop 9 member)) in *.
    assert (p ∉ prefixes target) as Hout by tauto.
    destruct (Str.ends_with_slash member).
    + destruct (mkdir_parents m target) as [?|m1] eqn:E; [done|]. simpl.
      rewrite (lookup_mkdir _ _ _ p E). by rewrite decide_False.
    + destruct (mkdir_parents m (parent target)) as [?|m1] eqn:E; [done|].
      assert (m1 !! p = m !! p) as Hm1.
      { rewrite (lookup_mkdir _ _ _ p E). rewrite decide_False; [done|].
        rewrite elem_of_prefixes in *. intros [? Hpre]. apply Hout.
        split; [done|]. etrans; [exact Hpre|apply parent_prefix]. }
      destruct (decide (p = target)) as [->|Hne];
        [|by rewrite extract_frame].
      destruct target as [|c target'] eqn:Et.
      * unfold extract.
        assert (∀ d, write_file m1 [] d = inl (IsADirectoryError [])) as Hw
          by done.
        destruct (broken member) as [[text|text]|]; rewrite ?Hw; done.
      * destruct Hout. rewrite elem_of_prefixes. by split.
  - case_bool_decide as Henv; [|done].
    apply extract_frame. intros ->. tauto.
Qed.

Lemma import_members_frame (h : host) (es : list entry)
    (broken : string → option damage) (members : list string) (m : fs)
    (p : path) :
  (∀ member, member ∈ members → ¬ Spec.destination h member p) →
  snd (import_members h es broken members m) !! p = m !! p.
Proof.
  revert m. induction members as [|member rest IH]; intros m Hp; [done|].
  simpl. pose proof (import_member_frame h es broken member m p) as Hstep.
  destruct (import_member h es broken member m) as [[e|] m1]; simpl in *.
  - apply Hstep, Hp. set_solver.
  - rewrite IH by (intros ? ?; apply Hp; set_solver).
    apply Hstep, Hp. set_solver.
Qed.

(** C9. The remainder of a member name is joined to the data directory
    unchecked, and an absolute remainder replaces it: a member
    n8n-data/<rest> whose <rest> starts with a slash is extracted to the
    absolute path <rest>. So the member n8n-data//tmp/evil.txt of an
    archive that import accepts is written at /tmp/evil.txt, which is not
    under the data directory. *)
Theorem import_follows_absolute_member_names :
  (∀ h rest,
     Str.startswith rest "/" = true →
     joinpath (n8n_data_dir h) rest = parse_parts rest)
  ∧ (∀ h es broken rest m m',
       Str.startswith rest "/" = true →
       ".." ∉ parse_parts rest →
       import_member h es broken ("n8n-data/" +:+ rest) m = (None, m') →
       Str.ends_with_slash rest = false →
       file_at m' (parse_parts rest)
       = Some (zip_read es ("n8n-data/" +:+ rest)))
  ∧ (let member := "n8n-data//tmp/evil.txt" in
     let m := Examples.fresh (Stored.pack [(member, [x21])]) in
     let r := @import_n8n_data Stored.format Examples.stopped
                Examples.archive m in
     Str.startswith member "n8n-data/" = true
     ∧ fst (fst r) = true
     ∧ file_at m ["tmp"; "evil.txt"] = None
     ∧ file_at (snd r) ["tmp"; "evil.txt"] = Some [x21]
     ∧ ¬ (n8n_data_dir Examples.stopped `prefix_of` ["tmp"; "evil.txt"])).
Proof.
  split_and!.
  - intros h rest Hs. unfold joinpath. by rewrite Hs.
  - intros h es broken rest m m' Hs _ Hrun Hfile.
    unfold import_member in Hrun.
    assert (Str.startswith ("n8n-data/" +:+ rest) "n8n-data/" = true) as Hd
      by (apply startswith_spec; eauto).
    assert (Str.drop 9 ("n8n-data/" +:+ rest) = rest) as Hrest by done.
    assert (Str.ends_with_slash ("n8n-data/" +:+ rest) = false) as He.
    { destruct rest as [|c rest]; [done|]. exact Hfile. }
    rewrite Hd, Hrest, He in Hrun. unfold joinpath in Hrun.
    rewrite Hs in Hrun.
    destruct (mkdir_parents m _) as [?|m1]; [done|].
    unfold extract in Hrun.
    destruct (broken _) as [[?|?]|]; [done|by destruct (write_file _ _ _)|].
    destruct (write_file m1 _ _) as [?|m2] eqn:Ew; [done|].
    injection Hrun as <-. apply file_at_Some.
    rewrite (lookup_write _ _ _ _ _ Ew). by rewrite decide_True.
  - cbv zeta. split_and!; try (vm_compute; reflexivity).
    by intros [k Hk].
Qed.

(** *** Export followed by import *)

Lemma export_sources_entries (h : host) (m : fs) :
  map snd (export_sources h m) = export_entries h m.
Proof.
  unfold export_sources, export_entries. rewrite map_app, map_map. f_equal.
  - apply map_ext. by intros [? ?].
  - by destruct (m !! env_file h) as [[?|]|].
Qed.

Lemma zipf_write_all_done (h : host) (sources : list (path * entry))
    (written : list entry) :
  zipf_write_all h sources = (written, None) → written = map snd sources.
Proof.
  revert written. induction sources as [|[p e] rest IH]; intros written.
  - by intros [= <-].
  - simpl. destruct (zipf_write h p); [done|].
    destruct (zipf_write_all h rest) as [w r]. intros [= <- ->].
    by rewrite (IH w).
Qed.

Lemma export_success (h : host) (m m' : fs) (s : string) :
  export_n8n_data h m = ((true, s), m') →
  is_docker_running h = false
  ∧ ∃ m1,
      mkdir_parents m (user_data_dir h) = inr m1
      ∧ file_at m' (archive_path h) = Some (zip_pack (export_entries h m1)).
Proof.
  unfold export_n8n_data. destruct (is_docker_running h); [done|].
  destruct (mkdir_parents m (user_data_dir h)) as [?|m1] eqn:E; [done|].
  destruct (negb _); [done|]. destruct (_ =? _)%nat; [done|].
  destruct (write_file m1 _ _) as [?|m2] eqn:Ew; [done|].
  destruct (zipf_write_all h (export_sources h m1)) as [written [r|]] eqn:Ez;
    [done|].
  intros [= _ <-]. split; [done|]. exists m1. split; [done|].
  apply zipf_write_all_done in Ez. rewrite export_sources_entries in Ez.
  apply file_at_Some. by rewrite lookup_insert_eq, Ez.
Qed.

Lemma mkdir_user_data_keeps (h : host) (m m1 : fs) (p : path) :
  mkdir_parents m (user_data_dir h) = inr m1 →
  n8n_data_dir h `prefix_of` p ∨ p = env_file h →
  m1 !! p = m !! p.
Proof.
  intros E Hp. rewrite (lookup_mkdir _ _ _ _ E). rewrite decide_False; [done|].
  intros [_ Hq]%elem_of_prefixes.
  destruct (user_data_apart h p Hq). tauto.
Qed.

(** The entries of the exported archive are read back as the files they
    were made of. *)
Lemma export_entries_read (h : host) (m : fs) (r : path) (d : list byte) :
  (∀ r0 d0, (r0, d0) ∈ all_files h m → Forall Spec.valid_name r0) →
  (r, d) ∈ all_files h m →
  zip_read (export_entries h m) (arcname r) = d.
Proof.
  intros Hv Hin. pose proof Hin as (_ & Hne & Hf & _)%elem_of_all_files.
  apply zip_read_agree.
  - exists d. unfold export_entries. apply elem_of_app. left.
    apply list_elem_of_fmap. by exists (r, d).
  - intros d' [Hin'|Hin']%elem_of_app.
    + apply list_elem_of_fmap in Hin' as ([r' d''] & [= Hn ->] & Hin').
      pose proof Hin' as (_ & Hne' & Hf' & _)%elem_of_all_files.
      apply arcname_inj in Hn; eauto. subst r'. congruence.
    + destruct (arcname_not_env r Hne) as [H1 H2].
      destruct (m !! env_file h) as [[?|]|];
        [apply list_elem_of_singleton in Hin'..|by apply elem_of_nil in Hin'];
        congruence.
Qed.

(** C1, as the code has it. When export succeeds on a data directory that
    is a tree of properly named entries, importing the archive it produced
    into an empty data directory succeeds, and the data directory then holds
    exactly the files of the original one that the export keeps: those not
    named .first_run_done and with no path component nodes, each with its
    original bytes; the files the export leaves out are absent. *)
Theorem export_then_import_restores_kept_files (h : host) (m m' dest : fs)
    (s : string) :
  zip_sound fmt →
  Spec.data_dir_tree h m →
  export_n8n_data h m = ((true, s), m') →
  file_at dest (archive_path h) = file_at m' (archive_path h) →
  Spec.data_dir_empty h dest →
  dest !! env_file h ≠ Some Dir →
  ∃ msg final,
    import_n8n_data h (archive_path h) dest = ((true, msg), final)
    ∧ ∀ rel, rel ≠ [] →
        file_at final (n8n_data_dir h ++ rel)
        = if kept rel then file_at m (n8n_data_dir h ++ rel) else None.
Proof.
  intros Hzip Htree (Hrun & m1 & Emk & Harch)%export_success Hdest
    [Hdirs Hempty] Henvdir.
  set (es := export_entries h m1) in *.
  destruct (Hzip es) as (Hz & Hun & Hok).
  assert (Hkeep : ∀ rel, m1 !! (n8n_data_dir h ++ rel) = m !! (n8n_data_dir h ++ rel)).
  { intros rel. apply (mkdir_user_data_keeps h m m1 _ Emk). left. by eexists. }
  assert (Hfile : ∀ rel, file_at m1 (n8n_data_dir h ++ rel)
                         = file_at m (n8n_data_dir h ++ rel)).
  { intros rel. unfold file_at. by rewrite Hkeep. }
  (* what the archive was made of *)
  set (src := fun r d => (r, d) ∈ all_files h m1).
  assert (Hsrc : ∀ r d, src r d ↔
            r ≠ [] ∧ file_at m (n8n_data_dir h ++ r) = Some d ∧ kept r = true).
  { intros r d. unfold src. rewrite elem_of_all_files, Hfile. split; [tauto|].
    intros (Hne & Hf & Hk). split_and!; try done.
    destruct (Htree r d Hne Hf) as [_ Hd]. unfold is_dir.
    specialize (Hkeep []). rewrite app_nil_r in Hkeep. rewrite Hkeep.
    specialize (Hd 0%nat). rewrite take_0, app_nil_r in Hd.
    rewrite Hd; [apply orb_true_r|]. destruct r; simpl; [done|lia]. }
  assert (Hvalid : ∀ r d, src r d → r ≠ [] ∧ Forall Spec.valid_name r).
  { intros r d (Hne & Hf & _)%Hsrc. split; [done|].
    by destruct (Htree r d Hne Hf). }
  assert (Hfun : ∀ r d d', src r d → src r d' → d = d').
  { intros r d d' (_ & Hf & _)%Hsrc (_ & Hf' & _)%Hsrc. congruence. }
  assert (Hpre : ∀ r d r' d', src r d → src r' d' → r `prefix_of` r' → r = r').
  { intros r d r' d' (_ & Hf & _)%Hsrc (Hne' & Hf' & _)%Hsrc [k ->].
    destruct k as [|c k]; [by rewrite app_nil_r|].
    destruct (Htree _ _ Hne' Hf') as [_ Hd].
    specialize (Hd (length r)). rewrite take_app_length in Hd.
    apply file_at_Some in Hf. rewrite Hd in Hf; [done|].
    rewrite length_app. simpl. lia. }
  assert (Hread : ∀ r d, src r d → zip_read es (arcname r) = d).
  { intros r d Hr. apply export_entries_read; [|done].
    intros r0 d0 Hr0. by destruct (Hvalid r0 d0 Hr0). }
  (* the import runs over the names of these entries *)
  unfold import_n8n_data. rewrite Hrun, Hdest, Harch.
  assert (exists_ dest (archive_path h) = true) as ->.
  { rewrite Harch in Hdest. apply file_at_Some in Hdest.
    by eapply exists_of_lookup. }
  simpl. rewrite Hz, Hun. simpl.
  destruct (restore_files h es (zip_damage (zip_pack es)) Hok src Hvalid Hfun
              Hpre Hread (all_files h m1) [] dest
              (map fst (match m1 !! env_file h with
                        | Some (File d) => [(".env", d)]
                        | Some Dir => [(".env/", [])]
                        | None => []
                        end)))
    as (m2 & Erun & (Hdirs2 & Hfiles2 & Honly2 & _) & Henv2).
  { split_and!; [done|by intros ? ? ?%elem_of_nil|..].
    - intros r d Hne Hl. rewrite Hempty in Hl; [done|]. by exists r.
    - intros r Hne Hl. rewrite Hempty in Hl; [done|]. by exists r. }
  { by intros ? ? ?%elem_of_nil. }
  { done. }
  assert (namelist es
          = map (fun f => arcname (fst f)) (all_files h m1)
            ++ map fst (match m1 !! env_file h with
                        | Some (File d) => [(".env", d)]
                        | Some Dir => [(".env/", [])]
                        | None => []
                        end)) as ->.
  { unfold namelist, es, export_entries. rewrite map_app, map_map.
    f_equal. apply map_ext. by intros [? ?]. }
  rewrite Erun. rewrite app_nil_r in Hfiles2, Honly2.
  (* the data directory after the files were written *)
  assert (Hdata2 : ∀ rel, rel ≠ [] →
            file_at m2 (n8n_data_dir h ++ rel)
            = if kept rel then file_at m (n8n_data_dir h ++ rel) else None).
  { intros rel Hne.
    destruct (file_at m2 (n8n_data_dir h ++ rel)) as [d|] eqn:E2.
    - apply file_at_Some, Honly2 in E2; [|done].
      apply elem_of_rev, Hsrc in E2 as (_ & Hf & ->). done.
    - destruct (kept rel) eqn:Hk; [|done].
      destruct (file_at m (n8n_data_dir h ++ rel)) as [d|] eqn:E; [|done].
      assert (src rel d) as Hin by by apply Hsrc.
      apply elem_of_rev, Hfiles2, file_at_Some in Hin. congruence. }
  destruct (env_file_apart h) as (Hene & _ & Hab & Hpar & Hdn).
  destruct (m1 !! env_file h) as [[d|]|] eqn:Eenv; simpl.
  - (* the environment file is written last *)
    assert (Str.startswith ".env" "n8n-data/" = false) as Hs by done.
    unfold import_member, extract.
    rewrite Hs, bool_decide_eq_true_2, Hok by done.
    rewrite write_succeeds; cycle 1.
    { unfold is_dir. rewrite Henv2, bool_decide_eq_false_2 by done.
      by destruct (dest !! env_file h) as [[|]|]. }
    { unfold is_dir. rewrite Hpar, (Hdirs2 _ Hdn). apply orb_true_r. }
    eexists _, _. split; [done|]. intros rel Hne.
    rewrite <- (Hdata2 rel Hne). unfold file_at.
    rewrite lookup_insert_ne; [done|].
    intros Heq. apply Hab. rewrite Heq. by eexists.
  - (* an environment directory was stored as .env/, which is skipped *)
    eexists _, _. split; [done|]. done.
  - eexists _, _. split; [done|]. done.
Qed.

End ExportImport.

Lemma export_refused_while_container_runs_witness :
  Main.is_docker_running Examples.running = true
  ∧ @Main.export_n8n_data Stored.format Examples.running Examples.installed =
      ((false,
        "Cannot export while n8n container is running. Please stop the container first."),
       Examples.installed).
Proof.
  apply (@export_refused_while_container_runs Stored.format Examples.running
           Examples.installed
           ("postgres" +:+ String "010" ("n8n-custom" +:+ String "010" EmptyString))).
  - reflexivity.
  - rewrite <- contains_spec. vm_compute. reflexivity.
Defined.



(** ** The stored container keeps its entries *)

Section StoredContainer.
Import Stored.

Lemma dec_enc_bytes (l rest : list byte) :
  dec_bytes (enc_bytes l ++ rest) = Some (l, rest).
Proof.
  unfold enc_bytes. induction l as [|b l IH]; [done|].
  cbn [flat_map app]. cbn [dec_bytes]. fold dec_bytes. by rewrite IH.
Qed.

Lemma pack_raw_cons (e : entry * byte) (es : list (entry * byte)) :
  pack_raw (e :: es)
  = x01 :: enc_bytes (list_byte_of_string (fst (fst e)))
           ++ enc_bytes (snd (fst e)) ++ snd e :: pack_raw es.
Proof.
  unfold pack_raw, enc_entry. cbn [flat_map].
  repeat (rewrite <- app_assoc || rewrite <- app_comm_cons). reflexivity.
Qed.

Lemma pack_raw_longer (es : list (entry * byte)) :
  (length es < length (pack_raw es))%nat.
Proof.
  induction es as [|e es IH]; [simpl; lia|].
  rewrite pack_raw_cons. cbn [length]. rewrite !length_app. cbn [length]. lia.
Qed.

Lemma unpack_go_pack_raw (es : list (entry * byte)) (fuel : nat) :
  (length es < fuel)%nat → unpack_go fuel (pack_raw es) = Some es.
Proof.
  revert fuel. induction es as [|[[n d] c] es IH]; intros [|fuel] Hlt;
    [simpl in Hlt; lia | done | simpl in Hlt; lia |].
  rewrite pack_raw_cons. cbn [unpack_go fst snd].
  rewrite dec_enc_bytes, dec_enc_bytes, IH by (simpl in Hlt; lia).
  by rewrite string_of_list_byte_of_string.
Qed.

Lemma unpack_raw_pack (es : list entry) :
  unpack_raw (pack es) = Some (map (fun e => (e, checksum (snd e))) es).
Proof. apply unpack_go_pack_raw, pack_raw_longer. Qed.

(** In an archive that [pack] wrote every entry matches its check value. *)
Lemma find_checked (member : string) (es : list entry) :
  match List.find (fun e : entry * byte => bool_decide (fst (fst e) = member))
          (map (fun e => (e, checksum (snd e))) es) with
  | Some (e, c) => c = checksum (snd e)
  | None => True
  end.
Proof.
  induction es as [|e es IH]; [done|]. simpl. by case_bool_decide.
Qed.

Lemma stored_sound : zip_sound format.
Proof.
  intros es. pose proof (unpack_raw_pack es) as Hraw.
  assert (unpack (pack es) = Some es) as H.
  { unfold unpack. rewrite Hraw. simpl. f_equal.
    rewrite map_map. simpl. apply map_id. }
  split_and!; [|done|].
  - simpl. rewrite H. by apply bool_decide_eq_true_2.
  - intros member. simpl. unfold broken. rewrite Hraw, <- map_rev.
    pose proof (find_checked member (rev es)) as Hc.
    destruct (List.find _ _) as [[e c]|]; [|done].
    by rewrite Byte.byte_dec_lb.
Qed.

End StoredContainer.

(** ** The sample installation *)

Section SampleInstallation.
Import Fs Main.

Lemma installed_is_tree :
  Spec.data_dir_tree Examples.stopped Examples.installed.
Proof.
  intros rel d Hne Hf%file_at_Some.
  apply elem_of_list_to_map_2, list_elem_of_In in Hf.
  change (n8n_data_dir Examples.stopped) with Examples.data in *.
  simpl in Hf.
  repeat (destruct Hf as [Hf|Hf]; [try by simplify_eq/=|]); try done;
    simplify_eq/=; (split; [repeat constructor; done|]);
    intros [|k] Hk; simpl in Hk; (lia || by vm_compute).
Qed.

Lemma fresh_is_empty (b : list byte) :
  Spec.data_dir_empty Examples.stopped (Examples.fresh b).
Proof.
  change (n8n_data_dir Examples.stopped) with Examples.data. split.
  - intros q Hq%list_elem_of_In. simpl in Hq.
    repeat (destruct Hq as [<-|Hq]; [by vm_compute|]). done.
  - intros p (rel & Hne & ->).
    destruct (Examples.fresh b !! (Examples.data ++ rel)) as [n|] eqn:E;
      [|done].
    apply elem_of_list_to_map_2, list_elem_of_In in E.
    simpl in E. unfold Examples.data, Examples.archive in E.
    repeat (destruct E as [E|E]; [by simplify_eq/=|]). done.
Qed.

End SampleInstallation.

Lemma export_then_import_restores_kept_files_witness :
  ∃ msg final,
    @Main.import_n8n_data Stored.format Examples.stopped
      (Main.archive_path Examples.stopped)
      (Examples.fresh Roundtrip.archive_bytes)
    = ((true, msg), final)
    ∧ ∀ rel, rel ≠ [] →
        Fs.file_at final (Main.n8n_data_dir Examples.stopped ++ rel)
        = if Main.kept rel
          then Fs.file_at Examples.installed
                 (Main.n8n_data_dir Examples.stopped ++ rel)
          else None.
Proof.
  apply (@export_then_import_restores_kept_files Stored.format
           Examples.stopped Examples.installed (snd Roundtrip.exported)
           (Examples.fresh Roundtrip.archive_bytes)
           (snd (fst Roundtrip.exported))).
  - apply stored_sound.
  - apply installed_is_tree.
  - change (Roundtrip.exported
            = (true, snd (fst Roundtrip.exported), snd Roundtrip.exported)).
    assert (fst (fst Roundtrip.exported) = true) as Hok
      by (vm_compute; reflexivity).
    destruct Roundtrip.exported as [[ok s] m']. simpl in Hok.
    rewrite Hok. reflexivity.
  - vm_compute. reflexivity.
  - apply fresh_is_empty.
  - vm_compute. congruence.
Defined.

(** C1, as the claim states it, fails: the sample installation holds the
    marker file .first_run_done; export and import both succeed, and the
    marker is not in the data directory afterwards. *)
Lemma export_import_drops_first_run_marker :
  fst (fst Roundtrip.exported) = true
  ∧ fst (fst Roundtrip.reimported) = true
  ∧ Fs.file_at Examples.installed (Examples.data ++ [".first_run_done"])
    = Some []
  ∧ Fs.file_at (snd Roundtrip.reimported)
      (Examples.data ++ [".first_run_done"]) = None
  ∧ Fs.file_at (snd Roundtrip.reimported)
      (Examples.data ++ ["database.sqlite"]) = Some [x53; x51; x4c].
Proof. by vm_compute. Qed.

(** ** The model at work *)

Section Runs.
Import SheetDownloader.

Example resolve_share_link :
  get_google_sheet_download_link Examples.sheet_url = inr Examples.export_url.
Proof. reflexivity. Qed.

Example resolve_takes_leftmost_match :
  get_google_sheet_download_link
    "see https://docs.google.com/spreadsheets/d/ then https://docs.google.com/spreadsheets/d/first/x https://docs.google.com/spreadsheets/d/second"
  = inr "https://docs.google.com/spreadsheets/d/first/export?format=xlsx".
Proof. reflexivity. Qed.

Example valid_urls :
  is_valid_url "http://localhost:5678" = true
  ∧ is_valid_url "https://a b" = false
  ∧ is_valid_url "ftp://example.com" = false
  ∧ is_valid_url "https://" = false.
Proof. by vm_compute. Qed.

Example timeouts_are_request_exceptions :
  issubclass ReadTimeout RequestException = true
  ∧ issubclass ConnectTimeout Timeout = true
  ∧ issubclass ConnectionError Timeout = false
  ∧ issubclass OSError RequestException = false.
Proof. by vm_compute. Qed.

Example watch_detects_arrival :
  _watch_for_download 101 Examples.arriving (Some Examples.old_download)
    default_timeout
  = Some (Detected,
          [EvLatestXlsx (Some Examples.old_download); EvSleep;
           EvLatestXlsx (Some Examples.old_download); EvSleep;
           EvLatestXlsx (Some Examples.new_download);
           EvCallback Examples.new_download]).
Proof. by vm_compute. Qed.

Example watch_times_out_silently :
  fst <$> _watch_for_download 101 Examples.idle (Some Examples.old_download)
            default_timeout
  = Some TimedOut.
Proof. by vm_compute. Qed.

Example joinpath_cases :
  Fs.joinpath ["srv"; "n8n-data"] "config/./a//b.json"
  = ["srv"; "n8n-data"; "config"; "a"; "b.json"]
  ∧ Fs.joinpath ["srv"; "n8n-data"] "/tmp/x" = ["tmp"; "x"]
  ∧ Fs.joinpath ["srv"; "n8n-data"] EmptyString = ["srv"; "n8n-data"].
Proof. by vm_compute. Qed.

Example sample_archive_entries :
  Main.export_entries Examples.stopped Examples.installed
  ≡ₚ [("n8n-data/database.sqlite", [x53; x51; x4c]);
      ("n8n-data/config", [x7b; x7d]);
      (".env", [x41; x3d; x31])].
Proof. vm_compute. by rewrite (Permutation_swap _ _ [_]). Qed.

Example last_entry_of_a_name_is_read :
  zip_read [("a", [x01]); ("b", [x02]); ("a", [x03])] "a" = [x03].
Proof. reflexivity. Qed.

(** The test of the content type is a test for the exact texts: an answer
    in JSON under a content type spelled in capitals is staged like a
    spreadsheet. *)
Example capitalised_content_type_is_staged :
  fst (download_sheet
         (Examples.desktop (Responds Examples.capitalised_json) true)
         Examples.sheet_url) = (0, None).
Proof. by vm_compute. Qed.

(** An export that cannot read its second file leaves an archive of the
    first one. *)
Example a_write_that_raises_leaves_a_partial_archive :
  Main.zipf_write_all
    {| Main.script_path := ["app"; "src"; "service-manager"];
       Main.docker_ps := None;
       Main.strftime_now := "20250101_000000";
       Main.zipf_write := fun p =>
         if bool_decide (p = ["b"]) then
           Some {| Main.is_permission_error := true;
                   Main.error_text := "[Errno 13] Permission denied: '/b'" |}
         else None |}
    [(["a"], ("n8n-data/a", [x01])); (["b"], ("n8n-data/b", [x02]));
     (["c"], ("n8n-data/c", [x03]))]
  = ([("n8n-data/a", [x01])],
     Some {| Main.is_permission_error := true;
             Main.error_text := "[Errno 13] Permission denied: '/b'" |}).
Proof. by vm_compute. Qed.

End Runs.

(** * Further properties of the code *)

(** ** The link resolver and the URL check *)

Section ResolverMore.
Import SheetDownloader.

Lemma take_id_exact (id rest : string) :
  Str.forallb is_id_char id = true → take_id rest = EmptyString →
  take_id (id +:+ rest) = id.
Proof.
  intros Hall Hrest. induction id as [|c id IH]; [done|].
  simpl in Hall. apply andb_true_iff in Hall as [Hc Hall].
  rewrite append_cons. simpl. by rewrite Hc, IH.
Qed.

Lemma re_search_leading (id rest : string) :
  id ≠ EmptyString → Str.forallb is_id_char id = true →
  take_id rest = EmptyString →
  re_search (sheet_link_prefix +:+ id +:+ rest) = Some id.
Proof.
  intros Hne Hall Hrest. rewrite re_search_unfold. unfold match_here.
  rewrite strip_prefix_append, take_id_exact by done. by destruct id.
Qed.

Lemma re_search_id (url id : string) :
  re_search url = Some id →
  id ≠ EmptyString ∧ Str.forallb is_id_char id = true.
Proof.
  induction url as [|a url IH]; [by vm_compute|].
  rewrite re_search_unfold. unfold match_here.
  destruct (Str.strip_prefix _ _) as [r|]; [|by apply IH].
  destruct (take_id_split r) as (post & _ & Hall).
  destruct (take_id r) as [|c t]; [by apply IH|]. by intros [= <-].
Qed.

(** X1. A text that begins with a spreadsheet link is resolved to the
    export link of that spreadsheet: the identifier is the whole run of
    identifier characters after the prefix, whatever follows it. *)
Theorem resolver_reads_leading_link (id rest : string) :
  id ≠ EmptyString → Str.forallb is_id_char id = true →
  take_id rest = EmptyString →
  get_google_sheet_download_link (sheet_link_prefix +:+ id +:+ rest)
  = inr (sheet_link_prefix +:+ id +:+ "/export?format=xlsx").
Proof.
  intros Hne Hall Hrest. unfold get_google_sheet_download_link.
  by rewrite re_search_leading.
Qed.

Lemma resolver_reads_leading_link_witness :
  get_google_sheet_download_link
    (sheet_link_prefix +:+ "1AbC-d_9" +:+ "/edit?usp=sharing")
  = inr (sheet_link_prefix +:+ "1AbC-d_9" +:+ "/export?format=xlsx").
Proof.
  apply (resolver_reads_leading_link "1AbC-d_9" "/edit?usp=sharing");
    [discriminate | reflexivity | reflexivity].
Defined.

(** X2. The resolver is idempotent: the export link it produces is itself
    resolved, and to the same export link. *)
Theorem resolver_idempotent (url download_url : string) :
  get_google_sheet_download_link url = inr download_url →
  get_google_sheet_download_link download_url = inr download_url.
Proof.
  unfold get_google_sheet_download_link.
  destruct (re_search url) as [id|] eqn:E; [|done]. intros [= <-].
  destruct (re_search_id _ _ E) as [Hne Hall].
  by rewrite re_search_leading.
Qed.

Lemma resolver_idempotent_witness :
  get_google_sheet_download_link Examples.export_url
  = inr Examples.export_url.
Proof.
  apply (resolver_idempotent Examples.sheet_url Examples.export_url).
  reflexivity.
Defined.

Lemma nonspace_to_end_spec (s : string) :
  nonspace_to_end s = true ↔
  ∃ body tail,
    s = body +:+ tail ∧ body ≠ EmptyString
    ∧ Str.forallb (fun c => negb (is_space c)) body = true
    ∧ (tail = EmptyString ∨ tail = String "010" EmptyString).
Proof.
  split.
  - induction s as [|c s IH]; [done|].
    change (nonspace_to_end (String c s))
      with (negb (is_space c)
            && match s with
               | EmptyString => true
               | String "010"%char EmptyString => true
               | _ => nonspace_to_end s
               end).
    intros [Hc Hs]%andb_true_iff.
    assert (s = EmptyString ∨ s = String "010" EmptyString
            ∨ nonspace_to_end s = true) as [->|[->|Hrec]].
    { destruct s as [|d [|e s]]; [by left|..];
        destruct d as [[] [] [] [] [] [] [] []];
        first [by right; left | right; right; exact Hs]. }
    + exists (String c EmptyString), EmptyString. simpl. rewrite Hc. auto.
    + exists (String c EmptyString), (String "010" EmptyString).
      simpl. rewrite Hc. auto.
    + destruct (IH Hrec) as (body & tail & -> & Hne & Hall & Htail).
      exists (String c body), tail. simpl. rewrite Hc, Hall. auto.
  - intros (body & tail & -> & Hne & Hall & Htail).
    induction body as [|c body IH]; [done|].
    simpl in Hall. apply andb_true_iff in Hall as [Hc Hall].
    rewrite append_cons.
    change (nonspace_to_end (String c (body +:+ tail)))
      with (negb (is_space c)
            && match body +:+ tail with
               | EmptyString => true
               | String "010"%char EmptyString => true
               | _ => nonspace_to_end (body +:+ tail)
               end).
    rewrite Hc. simpl. destruct body as [|d body].
    + rewrite append_nil_l. by destruct Htail as [->| ->].
    + rewrite (IH ltac:(done) Hall). rewrite append_cons.
      destruct d as [[] [] [] [] [] [] [] []]; by destruct (body +:+ tail).
Qed.

(** X3. [is_valid_url] accepts exactly the texts made of [http://] or
    [https://], a non-empty run of characters that are not white space, and
    then nothing, or one final line feed. *)
Theorem is_valid_url_spec (url : string) :
  is_valid_url url = true ↔ Behaviour.well_formed_url url.
Proof.
  unfold is_valid_url, Behaviour.well_formed_url. split.
  - destruct (Str.strip_prefix "https://" url) as [rest|] eqn:E.
    + apply strip_prefix_spec in E as ->.
      intros (body & tail & -> & ?)%nonspace_to_end_spec.
      exists "https://", body, tail. tauto.
    + destruct (Str.strip_prefix "http://" url) as [rest|] eqn:E'; [|done].
      apply strip_prefix_spec in E' as ->.
      intros (body & tail & -> & ?)%nonspace_to_end_spec.
      exists "http://", body, tail. tauto.
  - intros (scheme & body & tail & -> & [-> | ->] & Hrest).
    + assert (Str.strip_prefix "https://" ("http://" +:+ body +:+ tail) = None)
        as -> by done.
      rewrite strip_prefix_append. apply nonspace_to_end_spec. eauto.
    + rewrite strip_prefix_append. apply nonspace_to_end_spec. eauto.
Qed.

End ResolverMore.

(** ** What download_sheet does besides returning a status *)

Section DownloadEffects.
Import SheetDownloader.

Ltac in_trace H :=
  apply list_elem_of_In in H; simpl in H;
  repeat (destruct H as [H|H]); try discriminate H; try done.

(** A local call that is supposed to return did raise. *)
Ltac clash :=
  match goal with
  | Hloc : ∀ c, c ∈ _ → local_raises _ c = None,
    Hx : local_raises _ _ = Some _ |- _ =>
      rewrite Hloc in Hx by set_solver; discriminate Hx
  end.

(** The local calls of a list all return. *)
Ltac all_return :=
  let c := fresh "c" in
  let Hc := fresh "Hc" in
  intros c Hc;
  repeat (apply elem_of_cons in Hc as [->|Hc]; [done|]);
  by apply elem_of_nil in Hc.

(** All the ways through [download_sheet] for a link that resolves, each
    exception told by its status. *)
Ltac download_paths e dl r :=
  unfold raised;
  repeat first
    [ match goal with
      | |- context [local_raises e ?c] =>
          let Hc := fresh "Hraise" in
          let ex := fresh "ex" in
          let Hex := fresh "Hex" in
          destruct (local_raises e c) as [ex|] eqn:Hc;
          [destruct (handle_exception_cases ex) as [Hex|Hex];
           rewrite Hex; apply eq_sym in Hex|]
      end
    | match goal with
      | |- context [is_wsl e] => destruct (is_wsl e)
      | |- context [cmd_start e dl] => destruct (cmd_start e dl)
      | |- context [webbrowser_open e dl] => destruct (webbrowser_open e dl)
      end ];
  simpl.

Ltac solve_trace :=
  lazymatch goal with
  | |- (_ ≤ _)%nat => simpl; lia
  | |- ∀ u, _ ∈ _ → _ =>
      let H := fresh in
      intros ? H; in_trace H; try (injection H as <-); eauto 8
  | |- _ ↔ _ =>
      split;
      [ intros;
        repeat match goal with H : ∃ _, _ |- _ => destruct H end;
        match goal with H : _ ∈ _ |- _ => in_trace H end
      | intros ?; try done;
        repeat (lazymatch goal with |- ∃ _, _ => eexists end);
        apply list_elem_of_In; simpl; eauto 10 ]
  | |- _ → _ =>
      intros;
      repeat match goal with H : ∃ _, _ |- _ => destruct H end;
      try match goal with H : _ ∈ _ |- _ => in_trace H end;
      try done; eauto 10
  end.

(** X4. The effects of [download_sheet] go with its status. It makes at most
    one HTTP request, and only to the export link of the given URL. The
    callback is called and returns exactly when the status is 0, and then
    the staging file was written before. A staging file is written only
    when the status is 0, or when the write or the callback raised. The
    watcher thread is started exactly when the status is 1. The browser is
    launched, on the export link, only when the status is 1 or -2, or when
    starting the thread raised. *)
Theorem download_effects_follow_status (e : env) (url : string) :
  let status := fst (fst (download_sheet e url)) in
  let trace := snd (download_sheet e url) in
  let raised_in (c : local_call) :=
    ∃ ex, local_raises e c = Some ex ∧ status = handle_exception ex in
  (length (List.filter Spec.is_http_get trace) ≤ 1)%nat
  ∧ (∀ u, EvHttpGet u ∈ trace → get_google_sheet_download_link url = inr u)
  ∧ ((∃ p, EvCallback p ∈ trace) ↔ status = 0)
  ∧ (status = 0 → ∃ p d, EvWrite p d ∈ trace ∧ EvCallback p ∈ trace)
  ∧ ((∃ p d, EvWrite p d ∈ trace) →
     status = 0 ∨ raised_in WriteStaged ∨ raised_in Callback)
  ∧ ((∃ b, EvThreadStart b ∈ trace) ↔ status = 1)
  ∧ (∀ u, EvBrowser u ∈ trace →
          get_google_sheet_download_link url = inr u
          ∧ (status = 1 ∨ status = -2 ∨ raised_in StartThread)).
Proof.
  cbv zeta. unfold download_sheet.
  destruct (get_google_sheet_download_link url) as [?|dl] eqn:Hurl.
  { simpl. split_and!; solve_trace. }
  destruct (requests_get e dl) as [r|ex].
  2:{ unfold raised. simpl.
      destruct (handle_exception_cases ex) as [-> | ->];
        split_and!; solve_trace. }
  destruct (_ || _).
  - unfold open_browser. rewrite (resolved_link_is_valid _ _ Hurl).
    cbn [negb]. download_paths e dl r.
    all: split_and!; solve_trace.
  - destruct (status_code r =? 200); [|simpl; split_and!; solve_trace].
    download_paths e dl r.
    all: split_and!; try solve_trace.
    eexists _, _. split; apply list_elem_of_In; simpl; eauto.
Qed.

(** One way through [download_sheet], against the classification. *)
Ltac classified :=
  split_and!;
  [ split;
    [ intros ?;
      first [ lia
            | split_and!; [done|intros [?|?]; done|all_return] ]
    | intros (? & Hp & ?);
      first [ lia | clash | done | exfalso; apply Hp; auto; fail ] ]
  | split;
    [ intros ?;
      first [ lia | split_and!; [lia|lia|intros [?|?]; done] ]
    | intros (? & ? & Hp);
      first [ lia | done | exfalso; apply Hp; auto; fail ] ]
  | intros [?|?]; first [ lia | auto ]
  | intros [?|[?|?]] ?; first [ done | lia | clash | auto ] ].

(** X5. How a response is classified. The status is 0 exactly for a 200
    response that does not look like a page when the local calls of the
    staging branch return; it is -3 exactly for a response that is neither
    200 nor 401 and does not look like a page; the browser fallback (1 or
    -2) is only entered by a 401 response or one that looks like a page,
    whatever its status code, and such a response ends in 1 or -2 when the
    local calls of the fallback branch return. *)
Theorem response_classification (e : env) (url download_url : string)
    (r : response) :
  get_google_sheet_download_link url = inr download_url →
  requests_get e download_url = Responds r →
  let status := fst (fst (download_sheet e url)) in
  (status = 0 ↔
   status_code r = 200 ∧ ¬ Behaviour.looks_like_page r
   ∧ Spec.staging_returns e)
  ∧ (status = -3 ↔
     status_code r ≠ 200 ∧ status_code r ≠ 401
     ∧ ¬ Behaviour.looks_like_page r)
  ∧ (status = 1 ∨ status = -2 →
     status_code r = 401 ∨ Behaviour.looks_like_page r)
  ∧ (status_code r = 401 ∨ Behaviour.looks_like_page r →
     Spec.fallback_returns e → status = 1 ∨ status = -2).
Proof.
  intros Hurl Hget. cbv zeta. unfold download_sheet. rewrite Hurl, Hget.
  unfold Behaviour.looks_like_page, Behaviour.content_type_of,
    Spec.staging_returns, Spec.fallback_returns.
  rewrite <- !contains_spec.
  unfold open_browser. rewrite (resolved_link_is_valid _ _ Hurl). cbn [negb].
  destruct (Str.contains "text/html" _), (Str.contains "application/json" _);
    simpl; rewrite ?orb_true_r; simpl.
  1-3: download_paths e download_url r; classified.
  destruct (Z.eqb_spec (status_code r) 401) as [H401|H401]; simpl.
  { download_paths e download_url r; classified. }
  destruct (Z.eqb_spec (status_code r) 200) as [H200|H200]; simpl;
    [download_paths e download_url r|]; classified.
Qed.

Lemma response_classification_witness :
  let status :=
    fst (fst (download_sheet
                (Examples.desktop (Responds Examples.not_found_page) true)
                Examples.sheet_url)) in
  (status = 0 ↔
   status_code Examples.not_found_page = 200
   ∧ ¬ Behaviour.looks_like_page Examples.not_found_page
   ∧ Spec.staging_returns
       (Examples.desktop (Responds Examples.not_found_page) true))
  ∧ (status = -3 ↔
     status_code Examples.not_found_page ≠ 200
     ∧ status_code Examples.not_found_page ≠ 401
     ∧ ¬ Behaviour.looks_like_page Examples.not_found_page)
  ∧ (status = 1 ∨ status = -2 →
     status_code Examples.not_found_page = 401
     ∨ Behaviour.looks_like_page Examples.not_found_page)
  ∧ (status_code Examples.not_found_page = 401
     ∨ Behaviour.looks_like_page Examples.not_found_page →
     Spec.fallback_returns
       (Examples.desktop (Responds Examples.not_found_page) true) →
     status = 1 ∨ status = -2).
Proof.
  apply (response_classification
           (Examples.desktop (Responds Examples.not_found_page) true)
           Examples.sheet_url Examples.export_url Examples.not_found_page);
    reflexivity.
Defined.

End DownloadEffects.

(** ** When the watcher fires *)

Section WatcherOutcome.
Import SheetDownloader.

Variable w : watch_env.
Variable baseline_file : option path.
Variable timeout : Z.

Local Abbreviation nothing_new := (Behaviour.nothing_new w baseline_file timeout).

(** Polls that show nothing new are gone through, one sleep each. *)
Lemma watch_loop_goes_on (k i fuel : nat) (r : watch_end) (evs : list event) :
  (∀ j, (i ≤ j < i + k)%nat → nothing_new j) →
  watch_loop fuel w baseline_file timeout (i + k) = Some (r, evs) →
  watch_loop (k + fuel) w baseline_file timeout i
  = Some (r, Behaviour.polls_from w i k ++ evs).
Proof.
  revert i. induction k as [|k IH]; intros i Hnew Hrun.
  - by rewrite Nat.add_0_r in Hrun.
  - change (S k + fuel)%nat with (S (k + fuel)).
    rewrite watch_loop_unfold. cbv zeta.
    destruct (Hnew i ltac:(lia)) as (Hin & o & Ho & Hsame).
    unfold Spec.in_time in Hin.
    destruct (Z.ltb_spec (clock w (S i) - clock w 0) timeout); [|lia].
    rewrite Ho. rewrite (IH (S i)); cycle 1.
    { intros j Hj. apply Hnew. lia. }
    { by replace (S i + k)%nat with (i + S k)%nat by lia. }
    unfold Behaviour.polls_from. cbn [seq flat_map]. rewrite Ho. simpl.
    case_bool_decide as Hne; [|done].
    destruct Hsame as [->| ->]; [done|done].
Qed.

(** X6. What a watch ends with is decided by the first poll that is not
    "nothing new". After [n] polls that showed only the baseline or no file:
    if the deadline has passed the watch times out without calling the
    callback; if the next poll raises the watch ends, again without calling
    it; and if the next poll returns a file other than the baseline the
    callback is called on that file, once, at once. *)
Theorem watcher_outcome (n : nat) :
  (∀ i, (i < n)%nat → nothing_new i) →
  (¬ Spec.in_time w timeout n →
   _watch_for_download (S n) w baseline_file timeout
   = Some (TimedOut, Behaviour.polls w n))
  ∧ (Spec.in_time w timeout n → observe w n = PollError →
     _watch_for_download (S n) w baseline_file timeout
     = Some (Failed, Behaviour.polls w n))
  ∧ (∀ f,
       Spec.in_time w timeout n → observe w n = Latest (Some f) →
       Some f ≠ baseline_file →
       _watch_for_download (S n) w baseline_file timeout
       = Some (Detected,
               Behaviour.polls w n ++ [EvLatestXlsx (Some f); EvCallback f])).
Proof.
  intros Hnew. unfold _watch_for_download, Spec.in_time.
  assert (∀ r evs,
    watch_loop 1 w baseline_file timeout n = Some (r, evs) →
    watch_loop (S n) w baseline_file timeout 0
    = Some (r, Behaviour.polls w n ++ evs)) as Hgo.
  { intros r evs Hrun. replace (S n) with (n + 1)%nat by lia.
    apply (watch_loop_goes_on n 0); [|done]. intros j Hj. apply Hnew. lia. }
  split_and!.
  - intros Hout. rewrite <- (app_nil_r (Behaviour.polls w n)). apply Hgo.
    rewrite watch_loop_unfold. cbv zeta.
    by destruct (Z.ltb_spec (clock w (S n) - clock w 0) timeout).
  - intros Hin Herr. rewrite <- (app_nil_r (Behaviour.polls w n)). apply Hgo.
    rewrite watch_loop_unfold. cbv zeta.
    destruct (Z.ltb_spec (clock w (S n) - clock w 0) timeout); [|lia].
    by rewrite Herr.
  - intros f Hin Hf Hne. apply Hgo.
    rewrite watch_loop_unfold. cbv zeta.
    destruct (Z.ltb_spec (clock w (S n) - clock w 0) timeout); [|lia].
    rewrite Hf. by rewrite bool_decide_eq_true_2.
Qed.

End WatcherOutcome.

Lemma watcher_outcome_witness :
  SheetDownloader._watch_for_download 3 Examples.arriving
    (Some Examples.old_download) SheetDownloader.default_timeout
  = Some (SheetDownloader.Detected,
          Behaviour.polls Examples.arriving 2
          ++ [SheetDownloader.EvLatestXlsx (Some Examples.new_download);
              SheetDownloader.EvCallback Examples.new_download]).
Proof.
  destruct (watcher_outcome Examples.arriving (Some Examples.old_download)
              SheetDownloader.default_timeout 2) as (_ & _ & Hfire).
  - intros i Hi. split; [vm_compute; destruct i as [|[|]]; (done || lia)|].
    exists (Some Examples.old_download).
    destruct i as [|[|i]]; [by split; [|left]..|lia].
  - apply (Hfire Examples.new_download); [by vm_compute|done|by vm_compute].
Defined.

(** ** What export changes, and when it succeeds *)

Section ExportMore.
Import Fs Main.
Context {fmt : ZipFormat}.


Lemma archive_apart (h : host) :
  (archive_path h ∉ prefixes (user_data_dir h))
  ∧ ¬ (n8n_data_dir h `prefix_of` archive_path h)
  ∧ archive_path h ≠ env_file h
  ∧ parent (archive_path h) = user_data_dir h
  ∧ user_data_dir h ∈ prefixes (user_data_dir h).
Proof.
  unfold archive_path, env_file, n8n_data_dir.
  destruct (layout h) as (root & tail & Hlen & -> & Hu). split_and!.
  - rewrite elem_of_prefixes. intros [_ Hp%prefix_length].
    rewrite length_app in Hp. simpl in Hp. lia.
  - rewrite Hu, <- !app_assoc. intros Hp%prefix_app_inv.
    destruct tail as [|a [|b tail]]; simpl in *; [..|lia].
    + by apply prefix_cons_inv_1 in Hp.
    + by apply prefix_cons_inv_2, prefix_cons_inv_1 in Hp.
  - rewrite Hu, <- !app_assoc. intros Heq%(inj (app root)).
    destruct tail as [|a [|b tail]]; simpl in *; (done || lia).
  - apply removelast_last.
  - rewrite elem_of_prefixes. split; [|done]. rewrite Hu. by destruct root.
Qed.

Lemma all_files_after_mkdir (h : host) (m m1 : fs) :
  mkdir_parents m (user_data_dir h) = inr m1 →
  (∀ x, x ∈ all_files h m1 ↔ x ∈ all_files h m)
  ∧ (all_files h m1 = [] ↔ all_files h m = [])
  ∧ exists_ m1 (n8n_data_dir h) = exists_ m (n8n_data_dir h)
  ∧ exists_ m1 (env_file h) = exists_ m (env_file h)
  ∧ m1 !! env_file h = m !! env_file h.
Proof.
  intros E.
  assert (Hkeep : ∀ p, n8n_data_dir h `prefix_of` p ∨ p = env_file h →
                       m1 !! p = m !! p)
    by (intros p; apply (mkdir_user_data_keeps h m m1 p E)).
  assert (Hmem : ∀ x, x ∈ all_files h m1 ↔ x ∈ all_files h m).
  { intros [rel d]. rewrite !elem_of_all_files. unfold is_dir, file_at.
    rewrite (Hkeep (n8n_data_dir h)) by by left.
    rewrite (Hkeep (n8n_data_dir h ++ rel)) by (left; by eexists). done. }
  split_and!; [done| | | |].
  - split; intros Hnil.
    + destruct (all_files h m) as [|x l] eqn:El; [done|].
      assert (x ∈ all_files h m1) as Hx by (apply Hmem; by left).
      rewrite Hnil in Hx. by apply elem_of_nil in Hx.
    + destruct (all_files h m1) as [|x l] eqn:El; [done|].
      assert (x ∈ all_files h m) as Hx by (apply Hmem; by left).
      rewrite Hnil in Hx. by apply elem_of_nil in Hx.
  - unfold exists_. by rewrite Hkeep by by left.
  - unfold exists_. by rewrite Hkeep by by right.
  - apply Hkeep. by right.
Qed.



Lemma zipf_write_all_ok (h : host) (sources : list (path * entry)) :
  snd (zipf_write_all h sources) = None
  ↔ ∀ p, p ∈ map fst sources → zipf_write h p = None.
Proof.
  induction sources as [|[p e] rest IH]; simpl.
  - split; [by intros _ ? ?%elem_of_nil|done].
  - destruct (zipf_write h p) as [r|] eqn:Ep; simpl.
    + split; [done|]. intros Hall. rewrite <- Ep. apply Hall. by left.
    + destruct (zipf_write_all h rest) as [w r]. simpl in *. rewrite IH.
      split.
      * intros Hall q [->|Hq]%elem_of_cons; [done|by apply Hall].
      * intros Hall q Hq. apply Hall. by right.
Qed.

Lemma export_sources_paths (h : host) (m : fs) (p : path) :
  p ∈ map fst (export_sources h m)
  ↔ (∃ rel d, (rel, d) ∈ all_files h m ∧ p = n8n_data_dir h ++ rel)
    ∨ (p = env_file h ∧ is_Some (m !! env_file h)).
Proof.
  unfold export_sources. rewrite map_app, elem_of_app, map_map.
  rewrite list_elem_of_fmap. split.
  - intros [([rel d] & -> & Hin)|Henv]; [left; eauto|right].
    destruct (m !! env_file h) as [[d|]|];
      [apply list_elem_of_singleton in Henv..|by apply elem_of_nil in Henv];
      eauto.
  - intros [(rel & d & Hin & ->)|[-> [n Hn]]].
    + left. by exists (rel, d).
    + right. rewrite Hn. destruct n; by left.
Qed.


(** X8. Export succeeds exactly when the container is not running, no file
    is in the way of the archive directory, the data directory exists, there
    is something to archive (a kept file, or an environment file), the
    archive path is not a directory, and adding to the archive raises on
    none of the kept files nor on the environment file. It then returns the
    archive path, at which there is now a file. *)
Theorem export_succeeds_iff (h : host) (m : fs) :
  let r := export_n8n_data h m in
  (fst (fst r) = true ↔
   is_docker_running h = false
   ∧ (∀ q, q ∈ prefixes (user_data_dir h) → is_file m q = false)
   ∧ exists_ m (n8n_data_dir h) = true
   ∧ (all_files h m ≠ [] ∨ exists_ m (env_file h) = true)
   ∧ is_dir m (archive_path h) = false
   ∧ (∀ rel d, (rel, d) ∈ all_files h m →
               zipf_write h (n8n_data_dir h ++ rel) = None)
   ∧ (exists_ m (env_file h) = true → zipf_write h (env_file h) = None))
  ∧ (fst (fst r) = true →
     snd (fst r) = str (archive_path h)
     ∧ is_file (snd r) (archive_path h) = true).
Proof.
  cbv zeta. destruct (archive_apart h) as (Hnotpre & _ & _ & Hpar & Hself).
  destruct (env_file_apart h) as (Hene & _).
  unfold export_n8n_data. destruct (is_docker_running h).
  { split; [split; [done|by intros [? _]]|done]. }
  destruct (mkdir_parents m (user_data_dir h)) as [?|m1] eqn:E.
  { split; [split; [done|]|done]. intros (_ & Hfree & _).
    destruct (mkdir_succeeds m (user_data_dir h) Hfree) as [? ?]. congruence. }
  assert (∀ q, q ∈ prefixes (user_data_dir h) → is_file m q = false) as Hfree.
  { intros q Hq%list_elem_of_In. unfold mkdir_parents in E.
    destruct (existsb (is_file m) _) eqn:Ex; [done|].
    destruct (is_file m q) eqn:Eq; [|done].
    assert (existsb (is_file m) (prefixes (user_data_dir h)) = true);
      [|congruence].
    apply existsb_exists. eauto. }
  destruct (all_files_after_mkdir h m m1 E) as (Hmem & Hnil & -> & Henv & Hlk).
  assert (is_dir m1 (archive_path h) = is_dir m (archive_path h)) as Hdir.
  { unfold is_dir. rewrite (lookup_mkdir _ _ _ _ E). by rewrite decide_False. }
  assert (is_dir m1 (parent (archive_path h)) = true) as Hpardir.
  { unfold is_dir. rewrite Hpar, (lookup_mkdir _ _ _ _ E), decide_True by done.
    apply orb_true_r. }
  (* whether every file can be added *)
  assert (snd (zipf_write_all h (export_sources h m1)) = None
          ↔ (∀ rel d, (rel, d) ∈ all_files h m →
                      zipf_write h (n8n_data_dir h ++ rel) = None)
            ∧ (exists_ m (env_file h) = true →
               zipf_write h (env_file h) = None)) as Hwrite.
  { rewrite zipf_write_all_ok.
    assert (exists_ m (env_file h) = true ↔ is_Some (m1 !! env_file h)) as ->.
    { unfold exists_. rewrite Hlk, bool_decide_eq_false_2 by done. simpl.
      apply bool_decide_eq_true. }
    split.
    - intros Hall. split.
      + intros rel d Hin%Hmem. apply Hall, export_sources_paths. left. eauto.
      + intros Hex. apply Hall, export_sources_paths. by right.
    - intros [Hfiles Hex] p [(rel & d & Hin%Hmem & ->)|[-> Hin]]%export_sources_paths;
        eauto. }
  destruct (exists_ m (n8n_data_dir h)); simpl;
    [|split; [split; [done|intuition (done || congruence)]|done]].
  rewrite Henv.
  destruct (_ =? _)%nat eqn:Et.
  { split; [split; [done|]|done]. intros (_ & _ & _ & Hsome & _). exfalso.
    destruct (all_files h m1) as [|x l] eqn:El; simpl in Et.
    - destruct (exists_ m (env_file h)); [done|].
      destruct Hsome as [Hsome|?]; [|done]. by apply Hsome, Hnil.
    - done. }
  assert (all_files h m ≠ [] ∨ exists_ m (env_file h) = true) as Hsome.
  { destruct (all_files h m1) as [|x l] eqn:El; simpl in Et.
    - right. by destruct (exists_ m (env_file h)).
    - left. intros Hm%Hnil. congruence. }
  unfold write_file. rewrite Hdir, Hpardir.
  destruct (is_dir m (archive_path h)); simpl.
  { split; [split; [done|intuition (done || congruence)]|done]. }
  destruct (zipf_write_all h (export_sources h m1)) as [written [r|]];
    simpl in *.
  - split; [split; [done|]|done].
    intros (_ & _ & _ & _ & _ & Hf & He).
    assert (Some r = None) by (apply Hwrite; by split). done.
  - destruct (proj1 Hwrite eq_refl) as [Hf He].
    split; [split; [intros _; split_and!; done|done]|].
    intros _. split; [done|]. unfold is_file. by rewrite lookup_insert_eq.
Qed.

(** X9. What an exported archive holds. Its entries are: one entry
    n8n-data/<relative path> for every file below the data directory that
    is not named .first_run_done and has no component nodes in its relative
    path, with the bytes of that file; and one entry for the environment
    file if it exists (.env with its bytes, or the empty directory entry
    .env/ when a directory is there). Nothing else is in the archive. *)
Theorem export_entries_spec (h : host) (m : fs) (n : string) (d : list byte) :
  (n, d) ∈ export_entries h m ↔
  (∃ rel,
     n = "n8n-data/" +:+ Str.join_slash rel
     ∧ rel ≠ [] ∧ kept rel = true
     ∧ is_dir m (n8n_data_dir h) = true
     ∧ file_at m (n8n_data_dir h ++ rel) = Some d)
  ∨ (n = ".env" ∧ file_at m (env_file h) = Some d)
  ∨ (n = ".env/" ∧ d = [] ∧ m !! env_file h = Some Dir).
Proof.
  unfold export_entries. rewrite elem_of_app, list_elem_of_fmap. split.
  - intros [([rel d'] & [= -> ->] & Hin)|Henv].
    + left. apply elem_of_all_files in Hin as (? & Hne & ? & ?).
      exists rel. by rewrite arcname_unfold.
    + right. unfold file_at.
      destruct (m !! env_file h) as [[d'|]|];
        [apply list_elem_of_singleton in Henv..|by apply elem_of_nil in Henv];
        injection Henv as -> ->; auto.
  - intros [(rel & -> & Hne & Hk & Hd & Hf)|[[-> Hf]|(-> & -> & Hd)]].
    + left. exists (rel, d). split; [by rewrite arcname_unfold|].
      by apply elem_of_all_files.
    + right. apply file_at_Some in Hf. rewrite Hf. by left.
    + right. rewrite Hd. by left.
Qed.

End ExportMore.

(** ** What import leaves behind *)

Section ImportMore.
Import Fs Main.
Context {fmt : ZipFormat}.

Lemma import_members_app (h : host) (es : list entry)
    (broken : string → option damage) (l1 l2 : list string) (m : fs) :
  import_members h es broken (l1 ++ l2) m
  = match import_members h es broken l1 m with
    | (Some e, m1) => (Some e, m1)
    | (None, m1) => import_members h es broken l2 m1
    end.
Proof.
  revert m. induction l1 as [|x l1 IH]; intros m; [done|].
  simpl. destruct (import_member h es broken x m) as [[e|] m1]; [done|].
  apply IH.
Qed.

Lemma extract_writes (es : list entry) (broken : string → option damage)
    (member : string) (target : path) (m m1 : fs) :
  extract es broken member target m = (None, m1) →
  file_at m1 target = Some (zip_read es member).
Proof.
  unfold extract.
  destruct (broken member) as [[?|?]|];
    [done|by destruct (write_file _ _ _)|].
  destruct (write_file m _ _) as [?|m2] eqn:Ew; [done|]. intros [= <-].
  apply file_at_Some. rewrite (lookup_write _ _ _ _ _ Ew).
  by rewrite decide_True.
Qed.

(** A member that has a file target and is imported without error leaves
    its bytes there. *)
Lemma import_member_writes (h : host) (es : list entry)
    (broken : string → option damage) (member : string) (m m1 : fs)
    (t : path) :
  Behaviour.file_target h member = Some t →
  import_member h es broken member m = (None, m1) →
  file_at m1 t = Some (zip_read es member).
Proof.
  unfold Behaviour.file_target, import_member.
  destruct (Str.startswith member "n8n-data/").
  - destruct (Str.ends_with_slash member); [done|]. intros [= <-].
    destruct (mkdir_parents m _) as [?|m0]; [done|]. apply extract_writes.
  - case_bool_decide; [|done]. intros [= <-]. apply extract_writes.
Qed.

(** X10. Import overwrites, and the last member aimed at a path wins. When
    an import succeeds, a path that is the file target of some member, and
    is not a destination of any later member, holds the bytes read for that
    member afterwards, whatever was there before. This is for members
    without a component [..], whose paths are compared as they are
    written. *)
Theorem import_last_writer_wins (h : host) (archive : path) (m : fs)
    (b : list byte) (es : list entry) (before after : list string)
    (member : string) (t : path) :
  file_at m archive = Some b →
  zip_unpack b = Some es →
  namelist es = before ++ member :: after →
  fst (fst (import_n8n_data h archive m)) = true →
  Behaviour.file_target h member = Some t →
  (∀ x, x ∈ member :: after → Spec.plain x) →
  (∀ later, later ∈ after → ¬ Spec.destination h later t) →
  file_at (snd (import_n8n_data h archive m)) t = Some (zip_read es member).
Proof.
  intros Hb Hes Hnames Hok Ht _ Hafter. revert Hok.
  unfold import_n8n_data. destruct (is_docker_running h); [done|].
  destruct (negb (exists_ m archive)); [done|]. rewrite Hb.
  destruct (negb (zip_is_zipfile b)); [done|]. rewrite Hes, Hnames.
  rewrite import_members_app.
  destruct (import_members h es (zip_damage b) before m) as [[e|] m1];
    [done|].
  cbn [import_members].
  destruct (import_member h es (zip_damage b) member m1) as [[e|] m2]
    eqn:Estep; [done|].
  pose proof (import_members_frame h es (zip_damage b) after m2 t Hafter)
    as Hframe.
  destruct (import_members h es (zip_damage b) after m2) as [[e|] m3];
    [done|].
  intros _. simpl in *. unfold file_at. rewrite Hframe.
  by apply (import_member_writes h es (zip_damage b) member m1 m2).
Qed.

(** The first part of an import of an exported archive: the members of the
    data files are written, and what is left are the members of the
    environment file. *)
Lemma roundtrip_files_written (h : host) (m m1 dest : fs)
    (broken : string → option damage) :
  (∀ member, broken member = None) →
  Spec.data_dir_tree h m →
  mkdir_parents m (user_data_dir h) = inr m1 →
  Spec.data_dir_empty h dest →
  ∃ m2,
    import_members h (export_entries h m1) broken
      (namelist (export_entries h m1)) dest
    = import_members h (export_entries h m1) broken
        (map fst (match m1 !! env_file h with
                  | Some (File d) => [(".env", d)]
                  | Some Dir => [(".env/", [])]
                  | None => []
                  end)) m2
    ∧ (∀ q, q ∈ prefixes (n8n_data_dir h) → m2 !! q = Some Dir)
    ∧ m2 !! env_file h = dest !! env_file h.
Proof.
  intros Hok Htree Emk [Hdirs Hempty].
  set (es := export_entries h m1).
  assert (Hkeep : ∀ rel, m1 !! (n8n_data_dir h ++ rel) = m !! (n8n_data_dir h ++ rel)).
  { intros rel. apply (mkdir_user_data_keeps h m m1 _ Emk). left. by eexists. }
  set (src := fun r d => (r, d) ∈ all_files h m1).
  assert (Hsrc : ∀ r d, src r d →
            r ≠ [] ∧ file_at m (n8n_data_dir h ++ r) = Some d).
  { intros r d (_ & Hne & Hf & _)%elem_of_all_files. split; [done|].
    unfold file_at in *. by rewrite <- Hkeep. }
  assert (Hvalid : ∀ r d, src r d → r ≠ [] ∧ Forall Spec.valid_name r).
  { intros r d [Hne Hf]%Hsrc. split; [done|]. by destruct (Htree r d Hne Hf). }
  assert (Hfun : ∀ r d d', src r d → src r d' → d = d').
  { intros r d d' [_ Hf]%Hsrc [_ Hf']%Hsrc. congruence. }
  assert (Hpre : ∀ r d r' d', src r d → src r' d' → r `prefix_of` r' → r = r').
  { intros r d r' d' [_ Hf]%Hsrc [Hne' Hf']%Hsrc [k ->].
    destruct k as [|c k]; [by rewrite app_nil_r|].
    destruct (Htree _ _ Hne' Hf') as [_ Hd].
    specialize (Hd (length r)). rewrite take_app_length in Hd.
    apply file_at_Some in Hf. rewrite Hd in Hf; [done|].
    rewrite length_app. simpl. lia. }
  assert (Hread : ∀ r d, src r d → zip_read es (arcname r) = d).
  { intros r d Hr. apply export_entries_read; [|done].
    intros r0 d0 Hr0. by destruct (Hvalid r0 d0 Hr0). }
  destruct (restore_files h es broken Hok src Hvalid Hfun
              Hpre Hread (all_files h m1) [] dest
              (map fst (match m1 !! env_file h with
                        | Some (File d) => [(".env", d)]
                        | Some Dir => [(".env/", [])]
                        | None => []
                        end)))
    as (m2 & Erun & (Hdirs2 & _) & Henv2).
  { split_and!; [done|by intros ? ? ?%elem_of_nil|..].
    - intros r d Hne Hl. rewrite Hempty in Hl; [done|]. by exists r.
    - intros r Hne Hl. rewrite Hempty in Hl; [done|]. by exists r. }
  { by intros ? ? ?%elem_of_nil. }
  { done. }
  exists m2. split_and!; [|done..]. rewrite <- Erun. f_equal.
  unfold namelist, es, export_entries. rewrite map_app, map_map.
  f_equal. apply map_ext. by intros [? ?].
Qed.

(** X11. The round trip restores the environment file too. Under the
    conditions of the round trip of the data directory, the import succeeds
    and the environment-file location then holds the bytes of the original
    environment file; when the original installation had no environment
    file, the location is left as it was in the destination. *)
Theorem export_then_import_restores_env_file (h : host) (m m' dest : fs)
    (s : string) :
  zip_sound fmt →
  Spec.data_dir_tree h m →
  export_n8n_data h m = ((true, s), m') →
  file_at dest (archive_path h) = file_at m' (archive_path h) →
  Spec.data_dir_empty h dest →
  dest !! env_file h ≠ Some Dir →
  ∃ msg final,
    import_n8n_data h (archive_path h) dest = ((true, msg), final)
    ∧ file_at final (env_file h)
      = match m !! env_file h with
        | Some (File d) => Some d
        | _ => file_at dest (env_file h)
        end.
Proof.
  intros Hzip Htree (Hrun & m1 & Emk & Harch)%export_success Hdest
    Hdestempty Henvdir.
  destruct (Hzip (export_entries h m1)) as (Hz & Hun & Hok).
  destruct (roundtrip_files_written h m m1 dest
              (zip_damage (zip_pack (export_entries h m1))) Hok Htree Emk
              Hdestempty)
    as (m2 & Erun & Hdirs2 & Henv2).
  assert (m1 !! env_file h = m !! env_file h) as Henvsame
    by (apply (mkdir_user_data_keeps h m m1 _ Emk); by right).
  unfold import_n8n_data. rewrite Hrun, Hdest, Harch.
  assert (exists_ dest (archive_path h) = true) as ->.
  { rewrite Harch in Hdest. apply file_at_Some in Hdest.
    by eapply exists_of_lookup. }
  simpl. rewrite Hz, Hun. simpl. rewrite Erun.
  assert (∀ d, m1 !! env_file h = Some (File d) →
               zip_read (export_entries h m1) ".env" = d) as Hread.
  { intros d Hd. unfold zip_read, export_entries.
    by rewrite Hd, rev_unit. }
  destruct (env_file_apart h) as (Hene & _ & _ & Hpar & Hdn).
  rewrite <- Henvsame.
  destruct (m1 !! env_file h) as [[d|]|] eqn:Eenv; simpl.
  - assert (Str.startswith ".env" "n8n-data/" = false) as Hs by done.
    unfold import_member, extract.
    rewrite Hs, bool_decide_eq_true_2, Hok by done.
    rewrite write_succeeds; cycle 1.
    { unfold is_dir. rewrite Henv2, bool_decide_eq_false_2 by done.
      by destruct (dest !! env_file h) as [[|]|]. }
    { unfold is_dir. rewrite Hpar, (Hdirs2 _ Hdn). apply orb_true_r. }
    eexists _, _. split; [done|]. apply file_at_Some.
    rewrite lookup_insert_eq. by rewrite (Hread d).
  - eexists _, _. split; [done|]. unfold file_at. by rewrite Henv2.
  - eexists _, _. split; [done|]. unfold file_at. by rewrite Henv2.
Qed.

(** X19. The frame of import. Whether it succeeds or stops half way, import
    leaves every path as it was unless the path is a destination of some
    member of the archive: the environment file for the member .env, or,
    for a member n8n-data/<rest>, the path [n8n_data_dir / rest] and the
    directories leading to it. A member whose name neither starts with
    n8n-data/ nor is .env changes nothing. This is for archives whose
    member names have no component [..], whose paths are compared as they
    are written. *)
Theorem import_touches_only_member_destinations (h : host) (archive : path)
    (m : fs) (b : list byte) (es : list entry) :
  file_at m archive = Some b →
  zip_unpack b = Some es →
  (∀ member, member ∈ namelist es → Spec.plain member) →
  (∀ member m0,
     Str.startswith member "n8n-data/" = false → member ≠ ".env" →
     import_member h es (zip_damage b) member m0 = (None, m0))
  ∧ (∀ p,
       (∀ member, member ∈ namelist es → ¬ Spec.destination h member p) →
       snd (import_n8n_data h archive m) !! p = m !! p).
Proof.
  intros Hb Hes _. split.
  - intros member m0. apply import_member_skips.
  - intros p Hp. unfold import_n8n_data.
    destruct (is_docker_running h); [done|].
    destruct (negb (exists_ m archive)); [done|]. rewrite Hb.
    destruct (negb (zip_is_zipfile b)); [done|]. rewrite Hes.
    pose proof (import_members_frame h es (zip_damage b) (namelist es) m p Hp)
      as H.
    by destruct (import_members h es (zip_damage b) (namelist es) m)
      as [[e|] m1].
Qed.

End ImportMore.

Lemma import_last_writer_wins_witness :
  Fs.file_at
    (snd (@Main.import_n8n_data Stored.format Examples.stopped
            Examples.archive Samples.before_update))
    (Examples.data ++ ["config"])
  = Some (zip_read Samples.update_entries "n8n-data/./config").
Proof.
  apply (@import_last_writer_wins Stored.format Examples.stopped
           Examples.archive Samples.before_update
           (Stored.pack Samples.update_entries) Samples.update_entries
           ["n8n-data/config"] ["README.md"] "n8n-data/./config"
           (Examples.data ++ ["config"])).
  - by vm_compute.
  - by vm_compute.
  - reflexivity.
  - by vm_compute.
  - by vm_compute.
  - intros x Hx%list_elem_of_In Hin%list_elem_of_In.
    destruct Hx as [<-|[<-|[]]]; vm_compute in Hin;
      intuition discriminate.
  - intros later ->%list_elem_of_singleton [[Hs _]|[He _]]; discriminate.
Defined.

Lemma export_then_import_restores_env_file_witness :
  ∃ msg final,
    @Main.import_n8n_data Stored.format Examples.stopped
      (Main.archive_path Examples.stopped)
      (Examples.fresh Roundtrip.archive_bytes)
    = ((true, msg), final)
    ∧ Fs.file_at final (Main.env_file Examples.stopped)
      = match Examples.installed !! Main.env_file Examples.stopped with
        | Some (Fs.File d) => Some d
        | _ => Fs.file_at (Examples.fresh Roundtrip.archive_bytes)
                 (Main.env_file Examples.stopped)
        end.
Proof.
  apply (@export_then_import_restores_env_file Stored.format
           Examples.stopped Examples.installed (snd Roundtrip.exported)
           (Examples.fresh Roundtrip.archive_bytes)
           (snd (fst Roundtrip.exported))).
  - apply stored_sound.
  - apply installed_is_tree.
  - change (Roundtrip.exported
            = (true, snd (fst Roundtrip.exported), snd Roundtrip.exported)).
    assert (fst (fst Roundtrip.exported) = true) as Hok
      by (vm_compute; reflexivity).
    destruct Roundtrip.exported as [[ok s] m']. simpl in Hok.
    rewrite Hok. reflexivity.
  - vm_compute. reflexivity.
  - apply fresh_is_empty.
  - vm_compute. congruence.
Defined.

(** ** The newest spreadsheet of a folder *)

Section LatestXlsx.
Import Downloads.

Lemma max_by_mtime_split (best : string * Z) (l : listing) :
  ∃ before after,
    best :: l = before ++ max_by_mtime best l :: after
    ∧ (∀ f, f ∈ before → snd f < snd (max_by_mtime best l))
    ∧ (∀ f, f ∈ after → snd f ≤ snd (max_by_mtime best l)).
Proof.
  revert best. induction l as [|f l IH]; intros best.
  { exists [], []. split_and!; [done|by intros ? ?%elem_of_nil..]. }
  simpl. destruct (Z.ltb_spec (snd best) (snd f)) as [Hlt|Hge].
  - destruct (IH f) as (before & after & Heq & Hb & Ha).
    remember (max_by_mtime f l) as top eqn:Etop. clear Etop IH.
    exists (best :: before), after. split_and!; [by rewrite Heq| |done].
    intros g [->|Hg]%elem_of_cons; [|by apply Hb].
    destruct before as [|x before]; simpl in Heq;
      injection Heq as Hf Hl.
    + by subst top.
    + subst x. assert (snd f < snd top); [|lia].
      apply Hb. by left.
  - destruct (IH best) as (before & after & Heq & Hb & Ha).
    remember (max_by_mtime best l) as top eqn:Etop. clear Etop IH.
    destruct before as [|x before]; simpl in Heq;
      injection Heq as Hbest Hl.
    + subst top after.
      exists [], (f :: l). split_and!; [done| |].
      * by intros ? ?%elem_of_nil.
      * intros g [->|Hg]%elem_of_cons; [lia|]. by apply Ha.
    + subst x l.
      exists (best :: f :: before), after. split_and!; [done| |done].
      assert (snd best < snd top) by (apply Hb; by left).
      intros g [->|[->|Hg]%elem_of_cons]%elem_of_cons; [done|lia|].
      apply Hb. by right.
Qed.

(** X12. [get_latest_xlsx] returns nothing exactly when no entry of the
    folder is named *.xlsx. Otherwise it returns such an entry whose
    modification time is the greatest among them, and the first one in the
    order of the scan when several share that time. *)
Theorem get_latest_xlsx_spec (folder : listing) :
  match get_latest_xlsx folder with
  | None => ∀ f, f ∈ folder → is_xlsx f = false
  | Some name =>
      ∃ t before after,
        List.filter is_xlsx folder = before ++ (name, t) :: after
        ∧ Text.endswith name ".xlsx" = true
        ∧ (name, t) ∈ folder
        ∧ (∀ f, f ∈ before → snd f < t)
        ∧ (∀ f, f ∈ after → snd f ≤ t)
  end.
Proof.
  unfold get_latest_xlsx.
  destruct (List.filter is_xlsx folder) as [|f l] eqn:E.
  - intros f Hf%list_elem_of_In. destruct (is_xlsx f) eqn:Ex; [|done].
    assert (In f (List.filter is_xlsx folder)) as Hin
      by (apply filter_In; auto).
    by rewrite E in Hin.
  - destruct (max_by_mtime_split f l) as (before & after & Heq & Hb & Ha).
    destruct (max_by_mtime f l) as [name t] eqn:Em. simpl in *.
    exists t, before, after.
    assert (In (name, t) (List.filter is_xlsx folder)) as Hin.
    { rewrite E, Heq. apply in_elt. }
    apply filter_In in Hin as [Hin Hx].
    split_and!; [done|done|by apply list_elem_of_In|done..].
Qed.

End LatestXlsx.

(** ** Which files the hand-off accepts *)

Section AcceptedNames.
Import Fs Handoff.

Lemma lower_char_dot (c : ascii) :
  Text.lower_char c = "."%char ↔ c = "."%char.
Proof.
  destruct c as [[] [] [] [] [] [] [] []]; vm_compute; split; congruence.
Qed.

Lemma lower_char_not_dot (c d : ascii) :
  Text.lower_char c = d → d ≠ "."%char → Ascii.eqb c "." = false.
Proof.
  intros <- Hd. apply Ascii.eqb_neq. intros Hc. by apply Hd, lower_char_dot.
Qed.

Lemma length_append (s t : string) :
  String.length (s +:+ t) = (String.length s + String.length t)%nat.
Proof. induction s as [|a s IH]; simpl; [done|]. by rewrite <- IH. Qed.

Lemma drop_append (s t : string) : Str.drop (String.length s) (s +:+ t) = t.
Proof. induction s as [|a s IH]; simpl; done. Qed.

Lemma substring_drop (i : nat) (s : string) :
  s = substring 0 i s +:+ Str.drop i s.
Proof.
  revert s. induction i as [|i IH]; intros [|a s]; simpl; try done.
  rewrite append_cons. f_equal. apply IH.
Qed.

Lemma rfind_dot_from_none (s : string) (i : nat) (found : option nat) :
  Str.forallb (fun c => negb (Ascii.eqb c ".")) s = true →
  Text.rfind_dot_from s i found = found.
Proof.
  revert i. induction s as [|a s IH]; intros i; simpl; [done|].
  intros [Ha Hs]%andb_true_iff. apply negb_true_iff in Ha.
  rewrite Ha. by apply IH.
Qed.

Lemma rfind_dot_from_last (stem rest : string) (i : nat) (found : option nat) :
  Str.forallb (fun c => negb (Ascii.eqb c ".")) rest = true →
  Text.rfind_dot_from (stem +:+ String "." rest) i found
  = Some (i + String.length stem)%nat.
Proof.
  intros Hrest. revert i found.
  induction stem as [|a stem IH]; intros i found.
  - rewrite append_nil_l. cbn [Text.rfind_dot_from].
    rewrite Ascii.eqb_refl, rfind_dot_from_none by done.
    simpl. by rewrite Nat.add_0_r.
  - rewrite append_cons. cbn [Text.rfind_dot_from]. rewrite IH.
    simpl. f_equal. lia.
Qed.

(** A text that is [.xlsx] up to the case of its letters is a dot and four
    more characters, none of them a dot. *)
Lemma lower_xlsx (ext : string) :
  Text.lower ext = ".xlsx" →
  ∃ rest, ext = String "." rest ∧ String.length rest = 4%nat
          ∧ Str.forallb (fun c => negb (Ascii.eqb c ".")) rest = true.
Proof.
  destruct ext as [|c0 [|c1 [|c2 [|c3 [|c4 [|c5 ?]]]]]]; simpl; try done.
  intros [= H0 H1 H2 H3 H4]. apply lower_char_dot in H0 as ->.
  eexists. split_and!; [done..|]. simpl.
  rewrite (lower_char_not_dot _ _ H1), (lower_char_not_dot _ _ H2),
    (lower_char_not_dot _ _ H3), (lower_char_not_dot _ _ H4); done.
Qed.

Lemma suffix_xlsx_spec (file : path) :
  Text.lower (suffix file) = ".xlsx" ↔ Delivery.spreadsheet_name file.
Proof.
  unfold Delivery.spreadsheet_name, suffix. split.
  - destruct (Text.rfind_dot (name file)) as [i|]; [|done].
    destruct (_ && _) eqn:Hi; [|done]. intros Hx.
    exists (substring 0 i (name file)), (Str.drop i (name file)).
    split_and!; [apply substring_drop| |done].
    apply andb_true_iff in Hi as [Hpos%Nat.ltb_lt Hlen%Nat.ltb_lt].
    destruct i as [|i]; [lia|]. by destruct (name file).
  - intros (stem & ext & -> & Hstem & Hx).
    destruct (lower_xlsx _ Hx) as (rest & -> & Hlen & Hrest).
    unfold Text.rfind_dot. rewrite rfind_dot_from_last by done.
    rewrite length_append. simpl String.length. rewrite Hlen.
    assert (0 < String.length stem)%nat by (destruct stem; simpl; [done|lia]).
    replace ((0 <? 0 + String.length stem)
             && (0 + String.length stem <? String.length stem + 5 - 1))%nat
      with true
      by (symmetry; apply andb_true_iff; split; apply Nat.ltb_lt; lia).
    by rewrite Nat.add_0_l, drop_append.
Qed.

End AcceptedNames.

(** ** Handing the sheet to the workflow *)

Section HandOff.
Import Fs Handoff Delivery.
Variables (h : Main.host) (now : string) (w : n8n) (flag : bool).

Lemma parent_destination : parent (destination h now) = sheets_dir h.
Proof. apply removelast_last. Qed.

Lemma sheets_dir_made : sheets_dir h ∈ prefixes (sheets_dir h).
Proof.
  apply elem_of_prefixes. split; [|done].
  unfold sheets_dir. by destruct (parent (parent _)).
Qed.

Lemma destination_apart : destination h now ∉ prefixes (sheets_dir h).
Proof.
  intros [_ Hp%prefix_length]%elem_of_prefixes.
  unfold destination in Hp. rewrite length_app in Hp. simpl in Hp. lia.
Qed.

Lemma is_dir_after_mkdir (m m1 : fs) (t p : path) :
  mkdir_parents m t = inr m1 → p ∉ prefixes t → is_dir m1 p = is_dir m p.
Proof.
  intros Hm Hp. unfold is_dir. rewrite (lookup_mkdir _ _ _ p Hm).
  by destruct (decide _).
Qed.

Lemma mkdir_keeps_files (m m1 : fs) (t p : path) (d : list byte) :
  mkdir_parents m t = inr m1 →
  (file_at m1 p = Some d ∨ file_at m p = Some d) →
  (p ∉ prefixes t) ∧ m1 !! p = Some (File d) ∧ m !! p = Some (File d).
Proof.
  intros Hm Hd. pose proof (lookup_mkdir _ _ _ p Hm) as Hp.
  rewrite !file_at_Some in Hd. destruct (decide (p ∈ prefixes t)) as [Hin|Hout].
  - destruct Hd as [Hd|Hd]; [congruence|]. exfalso.
    unfold mkdir_parents in Hm. destruct (existsb _ _) eqn:E; [done|].
    assert (existsb (is_file m) (prefixes t) = true); [|congruence].
    apply existsb_exists. exists p. split; [by apply list_elem_of_In|].
    unfold is_file. by rewrite Hd.
  - rewrite Hp. split; [done|]. destruct Hd as [Hd|Hd]; [|done].
    rewrite Hp in Hd. done.
Qed.

(** What a copy that succeeds did. *)
Lemma copy2_done (m m2 : fs) (src dst : path) :
  copy2 m src dst = inr m2 →
  let target := if is_dir m dst then dst ++ [name src] else dst in
  ∃ d, file_at m src = Some d ∧ src ≠ target
       ∧ m2 = <[target := File d]> m.
Proof.
  intros Hc target. unfold copy2 in Hc. fold target in Hc.
  destruct (exists_ m src && bool_decide (src = target)) eqn:Hsame; [done|].
  destruct (is_dir m src); [done|].
  destruct (file_at m src) as [d|] eqn:Hd; [|done].
  exists d. split; [done|].
  apply file_at_Some in Hd. rewrite (exists_of_lookup _ _ _ Hd) in Hsame.
  simpl in Hsame. apply bool_decide_eq_false in Hsame. split; [done|].
  destruct (write_file m target d) as [e|m'] eqn:Hw; [done|].
  injection Hc as <-. apply map_eq. intros p.
  rewrite (lookup_write _ _ _ p _ Hw).
  destruct (decide (p = target)) as [->|Hne].
  - by rewrite lookup_insert_eq.
  - by rewrite lookup_insert_ne.
Qed.

(** The hand-off once the sheet is copied. *)
Lemma handoff_run (f : path) (m m1 m2 : fs) :
  Text.lower (suffix f) = ".xlsx" →
  mkdir_parents m (sheets_dir h) = inr m1 →
  copy2 m1 f (destination h now) = inr m2 →
  get_file_callback h now w flag (Some f) m
  = {| ended := fst (fst (trigger w (new_name now)));
       files := if bool_decide (parent f ≠ sheets_dir h)
                then delete f m2 else m2;
       posts := snd (fst (trigger w (new_name now)));
       processing := snd (trigger w (new_name now));
       bar := snd (trigger w (new_name now)) |}.
Proof.
  intros Hx Hm Hc. unfold get_file_callback.
  rewrite (bool_decide_eq_true_2 _ Hx). cbn [negb].
  rewrite parent_destination, Hm, Hc.
  by destruct (trigger w (new_name now)) as [[e sent] fl].
Qed.

(** Without a copy there is no POST, the sheet stays where it was, and the
    hand-off ends in one of three ways. *)
Lemma handoff_stops (file : option path) (m : fs) :
  let r := get_file_callback h now w flag file m in
  (∃ f m1 m2, file = Some f ∧ Text.lower (suffix f) = ".xlsx"
              ∧ mkdir_parents m (sheets_dir h) = inr m1
              ∧ copy2 m1 f (destination h now) = inr m2)
  ∨ (posts r = []
     ∧ (∀ f d, file = Some f → file_at m f = Some d →
               file_at (files r) f = Some d)
     ∧ match ended r with
       | NoFile => file = None
       | InvalidFileType =>
           files r = m ∧ ∃ f, file = Some f ∧ Text.lower (suffix f) ≠ ".xlsx"
       | ErrorProcessing (inl _) =>
           ∃ f, file = Some f ∧ Text.lower (suffix f) = ".xlsx"
       | _ => False
       end).
Proof.
  intros r. subst r. unfold get_file_callback.
  destruct file as [f|]; [|right; simpl; split; [done|split; done]].
  case_bool_decide as Hx; cbn [negb];
    [|right; simpl; split; [done|split; [by intros ? ? [= <-]|eauto]]].
  rewrite parent_destination.
  destruct (mkdir_parents m (sheets_dir h)) as [e|m1] eqn:Hm;
    [right; simpl; split; [done|split; [by intros ? ? [= <-]|eauto]]|].
  destruct (copy2 m1 f (destination h now)) as [e|m2] eqn:Hc;
    [|left; eauto 10].
  right. simpl. split; [done|split; [|eauto]].
  intros ? d [= <-] Hd.
  destruct (mkdir_keeps_files _ _ _ f d Hm) as (_ & H1 & _); [by right|].
  by apply file_at_Some.
Qed.

Lemma trigger_spec (n : string) :
  let test := Post test_webhook_url n "default.docx" in
  let prod := Post webhook_url n "default.docx" in
  let t := trigger w n in
  (snd (fst t) = [test] ∨ snd (fst t) = [test; prod])
  ∧ (prod ∈ snd (fst t) ↔ ∃ c, test_webhook w = Answers c)
  ∧ (fst (fst t) = Waiting
     ↔ (∃ c, test_webhook w = Answers c) ∧ webhook w = Answers 200)
  ∧ match fst (fst t) with
    | NoFile | InvalidFileType | ErrorProcessing (inl _) => False
    | _ => True
    end.
Proof.
  intros test prod t. subst t. unfold trigger. fold test prod.
  assert (prod ∉ [test]) as Hnot.
  { intros Hin%list_elem_of_singleton. discriminate. }
  assert (prod ∈ [test; prod]) as Hin by (right; left).
  destruct (test_webhook w) as [c|e].
  - destruct (webhook w) as [c'|e'].
    + destruct (Z.eqb_spec c' 200) as [->|Hne]; simpl;
        split_and!; naive_solver.
    + destruct (SheetDownloader.issubclass _ _); simpl;
        split_and!; naive_solver.
  - destruct (SheetDownloader.issubclass _ _); simpl;
      split_and!; naive_solver.
Qed.

(** Once the copy is made, the bytes of the sheet are where the copy
    landed. *)
Lemma handoff_delivered (f : path) (m m1 m2 : fs) :
  mkdir_parents m (sheets_dir h) = inr m1 →
  copy2 m1 f (destination h now) = inr m2 →
  ∃ d, file_at m f = Some d
       ∧ file_at (if bool_decide (parent f ≠ sheets_dir h)
                  then delete f m2 else m2) (landing h now m f) = Some d.
Proof.
  intros Hm Hc. pose proof (copy2_done _ _ _ _ Hc) as Hd. cbv zeta in Hd.
  rewrite (is_dir_after_mkdir _ _ _ _ Hm destination_apart) in Hd.
  fold (landing h now m f) in Hd. destruct Hd as (d & Hd & Hne & ->).
  exists d.
  destruct (mkdir_keeps_files _ _ _ f d Hm) as (_ & _ & H0); [by left|].
  split; [by apply file_at_Some|]. apply file_at_Some.
  case_bool_decide; [rewrite lookup_delete_ne by done|];
    by rewrite lookup_insert_eq.
Qed.

(** X13. The hand-off turns a file down as being of the wrong type exactly
    when its name is not a non-empty stem followed by [.xlsx] in any case of
    the letters: [Budget.XLSX] passes, the bare [.xlsx] and [a.xlsx.] do
    not. A file turned down is left alone and nothing is posted. *)
Theorem handoff_rejects_other_names (file : option path) (m : fs) :
  let r := get_file_callback h now w flag file m in
  (ended r = InvalidFileType ↔ ∃ f, file = Some f ∧ ¬ spreadsheet_name f)
  ∧ (ended r = InvalidFileType → files r = m ∧ posts r = []).
Proof.
  intros r. pose proof (handoff_stops file m) as Hs. cbv zeta in Hs.
  fold r in Hs.
  destruct Hs as [(f & m1 & m2 & -> & Hx & Hm & Hc)|(Hp & _ & He)].
  - subst r. rewrite (handoff_run _ _ _ _ Hx Hm Hc). simpl.
    pose proof (trigger_spec (new_name now)) as Ht. cbv zeta in Ht.
    destruct Ht as (_ & _ & _ & Ht).
    split; [split|]; try (intros Hi; by rewrite Hi in Ht).
    intros (f' & [= <-] & Hn). destruct Hn. by apply suffix_xlsx_spec.
  - split; [split|].
    + intros Hi. rewrite Hi in He. destruct He as (_ & f & -> & Hn).
      exists f. split; [done|]. by rewrite <- suffix_xlsx_spec.
    + intros (f & -> & Hn). rewrite <- suffix_xlsx_spec in Hn.
      destruct (ended r) as [| |[e|e]| | |]; try done.
      destruct He as (f' & [= <-] & Hx). done.
    + intros Hi. rewrite Hi in He. by destruct He.
Qed.

(** X14. A sheet with a spreadsheet name, handed off when nothing is in the
    way of the sheets directory, ends up in that directory under the new
    name, an older file of that name being overwritten. The original is gone
    unless it lay in the sheets directory itself, in which case both files
    are there. The directories down to the sheets directory exist afterwards
    and nothing else is touched, whatever the workflow engine answers. *)
Theorem handoff_moves_sheet (file : path) (m : fs) (d : list byte) :
  file_at m file = Some d →
  Text.lower (suffix file) = ".xlsx" →
  (∀ q, q ∈ prefixes (sheets_dir h) → is_file m q = false) →
  is_dir m (destination h now) = false →
  file ≠ destination h now →
  let r := get_file_callback h now w flag (Some file) m in
  file_at (files r) (destination h now) = Some d
  ∧ files r !! file
    = (if decide (parent file = sheets_dir h) then Some (File d) else None)
  ∧ (∀ q, q ∈ prefixes (sheets_dir h) → files r !! q = Some Dir)
  ∧ (∀ p, p ≠ file → p ≠ destination h now →
          p ∉ prefixes (sheets_dir h) → files r !! p = m !! p).
Proof.
  intros Hd Hx Hfree Hnd Hne r.
  destruct (mkdir_succeeds m (sheets_dir h) Hfree) as [m1 Hm].
  destruct (mkdir_keeps_files _ _ _ file d Hm) as (Hout & H1 & H0);
    [by right|].
  assert (file ≠ []) as Hroot.
  { intros ->. apply suffix_xlsx_spec in Hx as (stem & ext & Hn & Hs & _).
    by destruct stem. }
  assert (copy2 m1 file (destination h now)
          = inr (<[destination h now := File d]> m1)) as Hc.
  { unfold copy2.
    rewrite (is_dir_after_mkdir _ _ _ _ Hm destination_apart), Hnd.
    rewrite (bool_decide_eq_false_2 _ Hne), andb_false_r.
    assert (is_dir m1 file = false) as ->.
    { unfold is_dir. by rewrite H1, (bool_decide_eq_false_2 _ Hroot). }
    assert (file_at m1 file = Some d) as -> by by apply file_at_Some.
    rewrite write_succeeds; [done| |].
    - by rewrite (is_dir_after_mkdir _ _ _ _ Hm destination_apart).
    - rewrite parent_destination. unfold is_dir.
      rewrite (lookup_mkdir _ _ _ _ Hm).
      destruct (decide _) as [|Hn]; [apply orb_true_r|].
      destruct Hn. apply sheets_dir_made. }
  subst r. rewrite (handoff_run _ _ _ _ Hx Hm Hc). simpl.
  split_and!.
  - apply file_at_Some.
    case_bool_decide; [rewrite lookup_delete_ne by done|];
      by rewrite lookup_insert_eq.
  - case_bool_decide as Hp; destruct (decide _) as [Hq|Hq]; try done.
    + by rewrite lookup_delete_eq.
    + by rewrite lookup_insert_ne.
  - intros q Hq.
    assert (q ≠ file) by (by intros ->).
    assert (q ≠ destination h now)
      by (intros ->; by apply destination_apart).
    case_bool_decide; rewrite ?lookup_delete_ne by done;
      rewrite lookup_insert_ne, (lookup_mkdir _ _ _ _ Hm) by done;
      by destruct (decide _).
  - intros p Hp1 Hp2 Hp3.
    case_bool_decide; rewrite ?lookup_delete_ne by done;
      rewrite lookup_insert_ne, (lookup_mkdir _ _ _ _ Hm) by done;
      by destruct (decide _).
Qed.

(** X15. Whatever the file and the state of the disk, the hand-off sends no
    POST, the test trigger alone, or the test trigger followed by the
    production trigger, both naming the new sheet. The production trigger is
    sent exactly when the test trigger was sent and answered, with any
    status. A POST is only sent once the bytes of the sheet are in place,
    and the hand-off goes on to wait for results exactly when the production
    trigger was answered with status 200. *)
Theorem handoff_posts (file : option path) (m : fs) :
  let r := get_file_callback h now w flag file m in
  (posts r = [] ∨ posts r = [test_post now]
   ∨ posts r = [test_post now; prod_post now])
  ∧ (prod_post now ∈ posts r
     ↔ posts r ≠ [] ∧ ∃ c, test_webhook w = Answers c)
  ∧ (posts r ≠ [] →
     ∃ f d, file = Some f ∧ file_at m f = Some d
            ∧ file_at (files r) (landing h now m f) = Some d)
  ∧ (ended r = Waiting
     ↔ posts r ≠ [] ∧ (∃ c, test_webhook w = Answers c)
       ∧ webhook w = Answers 200).
Proof.
  intros r. pose proof (handoff_stops file m) as Hs. cbv zeta in Hs.
  fold r in Hs.
  destruct Hs as [(f & m1 & m2 & -> & Hx & Hm & Hc)|(Hp & _ & He)].
  - subst r. rewrite (handoff_run _ _ _ _ Hx Hm Hc). simpl.
    pose proof (trigger_spec (new_name now)) as Ht. cbv zeta in Ht.
    fold (test_post now) (prod_post now) in Ht.
    destruct Ht as (Hp & Hprod & Hwait & _).
    assert (snd (fst (trigger w (new_name now))) ≠ []) as Hsent
      by (by destruct Hp as [-> | ->]).
    split_and!.
    + tauto.
    + rewrite Hprod. tauto.
    + intros _. destruct (handoff_delivered _ _ _ _ Hm Hc) as (d & ? & ?).
      eauto.
    + rewrite Hwait. tauto.
  - rewrite Hp. split_and!.
    + by left.
    + split; [by intros ?%elem_of_nil|by intros [? _]].
    + done.
    + split; [|by intros [? _]].
      intros Hi. rewrite Hi in He. done.
Qed.

(** X16. The hand-off never loses the sheet: however it ends, the bytes of
    the file it was given are still at the place of the file, or at the
    place where its copy landed. *)
Theorem handoff_keeps_the_sheet (f : path) (m : fs) (d : list byte) :
  file_at m f = Some d →
  let r := get_file_callback h now w flag (Some f) m in
  file_at (files r) f = Some d
  ∨ file_at (files r) (landing h now m f) = Some d.
Proof.
  intros Hd r. pose proof (handoff_stops (Some f) m) as Hs. cbv zeta in Hs.
  fold r in Hs.
  destruct Hs as [(f' & m1 & m2 & [= <-] & Hx & Hm & Hc)|(_ & Hk & _)].
  - right. subst r. rewrite (handoff_run _ _ _ _ Hx Hm Hc). simpl.
    destruct (handoff_delivered _ _ _ _ Hm Hc) as (d' & Hd' & Hl).
    congruence.
  - left. by apply Hk.
Qed.

End HandOff.

Lemma handoff_moves_sheet_witness :
  let r := Handoff.get_file_callback Examples.stopped "1700000000"
             Samples.engine_up false (Some Samples.budget)
             Samples.with_download in
  let sheets := Handoff.sheets_dir Examples.stopped in
  let destination := Handoff.destination Examples.stopped "1700000000" in
  Fs.file_at (Handoff.files r) destination = Some [x50; x4b; x03; x04]
  ∧ Handoff.files r !! Samples.budget
    = (if decide (Fs.parent Samples.budget = sheets)
       then Some (Fs.File [x50; x4b; x03; x04]) else None)
  ∧ (∀ q, q ∈ Fs.prefixes sheets → Handoff.files r !! q = Some Fs.Dir)
  ∧ (∀ p, p ≠ Samples.budget → p ≠ destination →
          p ∉ Fs.prefixes sheets →
          Handoff.files r !! p = Samples.with_download !! p).
Proof.
  apply (handoff_moves_sheet Examples.stopped "1700000000"
           Samples.engine_up false Samples.budget Samples.with_download
           [x50; x4b; x03; x04]).
  - vm_compute. reflexivity.
  - vm_compute. reflexivity.
  - intros q Hq%list_elem_of_In. simpl in Hq.
    repeat (destruct Hq as [<-|Hq]; [by vm_compute|]). done.
  - vm_compute. reflexivity.
  - discriminate.
Defined.

Lemma handoff_keeps_the_sheet_witness :
  let r := Handoff.get_file_callback Examples.running "1700000000"
             Samples.engine_up true (Some Examples.archive)
             (Examples.fresh [x50; x4b]) in
  Fs.file_at (Handoff.files r) Examples.archive = Some [x50; x4b]
  ∨ Fs.file_at (Handoff.files r)
      (Delivery.landing Examples.running "1700000000"
         (Examples.fresh [x50; x4b]) Examples.archive)
    = Some [x50; x4b].
Proof.
  apply (handoff_keeps_the_sheet Examples.running "1700000000"
           Samples.engine_up true Examples.archive
           (Examples.fresh [x50; x4b]) [x50; x4b]).
  vm_compute. reflexivity.
Defined.

(** ** The download panel *)

Section DownloadPanel.
Import SheetDownloader Panel.

(** The three ways [download_sheet] can go, by what its trace amounts to. *)
Lemma download_sheet_cases (e : env) (url : string) :
  let r := download_sheet e url in
  (fst r = (1, Some {| thread_baseline := latest_download e |})
   ∧ started (snd r) = Some (latest_download e)
   ∧ called_back (snd r) = []
   ∧ ∀ m, written (snd r) m = m)
  ∨ (∃ staged,
       fst r = (0, None)
       ∧ started (snd r) = None
       ∧ called_back (snd r) = [staged])
  ∨ (snd (fst r) = None
     ∧ fst (fst r) ∈ [-1; -2; -3; -4; -6]
     ∧ started (snd r) = None
     ∧ called_back (snd r) = []).
Proof.
  intros r. subst r. unfold download_sheet.
  assert (∀ c : Z, c = -1 ∨ c = -2 ∨ c = -3 ∨ c = -4 ∨ c = -6 →
                   c ∈ [-1; -2; -3; -4; -6]) as Hin.
  { intros c Hc. apply list_elem_of_In. simpl.
    destruct Hc as [->|[->|[->|[->| ->]]]]; auto 10. }
  assert (∀ ex evs,
    started evs = None → called_back evs = [] →
    snd (fst (raised ex evs)) = None
    ∧ fst (fst (raised ex evs)) ∈ [-1; -2; -3; -4; -6]
    ∧ started (snd (raised ex evs)) = None
    ∧ called_back (snd (raised ex evs)) = []) as Hraised.
  { intros ex evs Hs Hc. unfold raised. simpl. split_and!; try done.
    apply Hin. destruct (handle_exception_cases ex) as [-> | ->]; auto. }
  destruct (get_google_sheet_download_link url) as [?|dl] eqn:Hurl.
  { right. right. simpl. split_and!; try done. apply Hin. auto. }
  destruct (requests_get e dl) as [resp|ex].
  2:{ right. right. by apply Hraised. }
  destruct (_ || _).
  - destruct (local_raises e ScanDownloads);
      [right; right; by apply Hraised|].
    unfold open_browser. rewrite (resolved_link_is_valid _ _ Hurl).
    cbn [negb].
    destruct (is_wsl e);
      [destruct (cmd_start e dl)
      |destruct (local_raises e WebbrowserOpen);
       [right; right; by apply Hraised|destruct (webbrowser_open e dl)]].
    all: try (right; right; simpl; split_and!; try done; apply Hin; auto; fail).
    all: destruct (local_raises e StartThread);
      [right; right; by apply Hraised|left; simpl; split_and!; done].
  - destruct (status_code resp =? 200).
    2:{ right. right. simpl. split_and!; try done. apply Hin. auto. }
    destruct (local_raises e AppDownloadsFolder);
      [right; right; by apply Hraised|].
    destruct (local_raises e OpenStaged);
      [right; right; by apply Hraised|].
    destruct (local_raises e WriteStaged);
      [right; right; by apply Hraised|].
    destruct (local_raises e Callback);
      [right; right; by apply Hraised|].
    right. left. eexists. simpl. split_and!; done.
Qed.

(** X17. A click on the download button with a blank entry changes nothing
    and asks nobody. Otherwise [download_sheet] is called on the stripped
    entry and the panel is left in one of three ways: waiting for a manual
    download, both buttons disabled and the bar running, the watcher thread
    started and no callback called yet; or both buttons disabled with the
    callback called on the one staged file; or both buttons enabled again
    and one of five error texts on the label, the text about a timeout not
    being among them. The last branch of the handler is never taken. *)
Theorem download_handler_outcomes (e : env) (entry : string) (g : panel) :
  let r := download_from_sheets e entry g in
  let g' := fst (fst r) in
  let evs := snd r in
  (Text.strip entry = EmptyString ∧ g' = g ∧ evs = [])
  ∨ (Text.strip entry ≠ EmptyString
     ∧ snd (fst r) = []
     ∧ evs = snd (download_sheet e (Text.strip entry))
     ∧ ((g' = {| download_btn := false; local_file_btn := false;
                 progress_label := "Waiting for download...";
                 progress_bar := true;
                 download_thread :=
                   Some {| thread_baseline := latest_download e |} |}
         ∧ started evs = Some (latest_download e)
         ∧ called_back evs = [])
        ∨ (∃ staged,
             g' = {| download_btn := false; local_file_btn := false;
                     progress_label := progress_label g;
                     progress_bar := progress_bar g;
                     download_thread := None |}
             ∧ started evs = None
             ∧ called_back evs = [staged])
        ∨ (∃ msg,
             g' = {| download_btn := true; local_file_btn := true;
                     progress_label := "Error: " +:+ msg;
                     progress_bar := false;
                     download_thread := None |}
             ∧ msg ∈ ["Invalid Google Sheets URL";
                      "Failed to open browser for authentication";
                      "HTTP error during download";
                      "Network error during download";
                      "Unknown error"]
             ∧ started evs = None
             ∧ called_back evs = []))).
Proof.
  intros r g' evs. subst r g' evs. unfold download_from_sheets.
  case_bool_decide as Hs; [by left|]. right. split; [done|].
  pose proof (download_sheet_cases e (Text.strip entry)) as Hc.
  cbv zeta in Hc.
  destruct (download_sheet e (Text.strip entry)) as [[res thread] evs].
  simpl in Hc.
  destruct Hc as [(Hf & Hst & Hcb & _)
                 |[(staged & Hf & Hst & Hcb)
                  |(-> & Hres & Hst & Hcb)]].
  - injection Hf as -> ->. simpl. split_and!; try done. by left.
  - injection Hf as -> ->. simpl. split_and!; try done. right. left. eauto.
  - assert (∀ c, c ∈ [-1; -2; -3; -4; -6] →
              Main.download_failed_message c
              ∈ ["Invalid Google Sheets URL";
                 "Failed to open browser for authentication";
                 "HTTP error during download";
                 "Network error during download";
                 "Unknown error"]
              ∧ (c =? 1) = false ∧ (c =? 0) = false ∧ (c <? 0) = true)
      as Hmsg.
    { intros c Hc. apply list_elem_of_In in Hc. simpl in Hc.
      repeat (destruct Hc as [<-|Hc]; [split; [|done];
        apply list_elem_of_In; vm_compute; auto 10|]).
      done. }
    destruct (Hmsg res Hres) as (Hm & -> & -> & ->). simpl.
    split_and!; try done. right. right. eauto.
Qed.

Lemma called_back_polls (we : watch_env) (i k : nat) :
  called_back (Behaviour.polls_from we i k) = [].
Proof.
  unfold Behaviour.polls_from. revert i.
  induction k as [|k IH]; intros i; [done|].
  cbn [seq flat_map]. unfold called_back in *. rewrite omap_app, IH.
  by destruct (observe we i).
Qed.

(** The watch after [n] polls that show nothing new. *)
Lemma watch_after_quiet_polls (we : watch_env) (baseline : option path)
    (timeout : Z) (n : nat) (r : watch_end) (evs : list event) :
  (∀ i, (i < n)%nat → Behaviour.nothing_new we baseline timeout i) →
  watch_loop 1 we baseline timeout n = Some (r, evs) →
  _watch_for_download (S n) we baseline timeout
  = Some (r, Behaviour.polls we n ++ evs).
Proof.
  intros Hnew Hrun. unfold _watch_for_download.
  replace (S n) with (n + 1)%nat by lia.
  apply (watch_loop_goes_on we baseline timeout n 0); [|done].
  intros j Hj. apply Hnew. lia.
Qed.

(** X18. A manual download that never arrives locks the panel. When the
    handler has started the watcher and the polls show nothing new until
    the deadline passes, or until a poll raises, the click ends with both
    buttons disabled, the progress bar running and the label still saying
    that a download is awaited; nothing was moved or posted, and nothing is
    left to run that would change this. When instead a poll returns a new
    file, the callback is served on it and both buttons are enabled. *)
Theorem unanswered_download_locks_panel (e : env) (we : watch_env)
    (h : Main.host) (now : string) (w : Handoff.n8n) (entry : string)
    (a : app) (n : nat) :
  Text.strip entry ≠ EmptyString →
  fst (fst (download_sheet e (Text.strip entry))) = 1 →
  (∀ i, (i < n)%nat →
        Behaviour.nothing_new we (latest_download e) default_timeout i) →
  let awaiting :=
    {| widgets :=
         {| download_btn := false; local_file_btn := false;
            progress_label := "Waiting for download...";
            progress_bar := true;
            download_thread :=
              Some {| thread_baseline := latest_download e |} |};
       disk := disk a; sent := sent a; busy := busy a |} in
  (¬ Spec.in_time we default_timeout n
   ∨ Spec.in_time we default_timeout n ∧ observe we n = PollError →
   click_download (S n) e we h now w entry a = Some awaiting)
  ∧ (∀ f, Spec.in_time we default_timeout n →
          observe we n = Latest (Some f) →
          Some f ≠ latest_download e →
          click_download (S n) e we h now w entry a
          = Some (run_callback h now w awaiting f)
          ∧ download_btn (widgets (run_callback h now w awaiting f)) = true
          ∧ local_file_btn (widgets (run_callback h now w awaiting f))
            = true).
Proof.
  intros Hentry Hstatus Hnew awaiting.
  assert (∀ r wevs,
    watch_loop 1 we (latest_download e) default_timeout n = Some (r, wevs) →
    click_download (S n) e we h now w entry a
    = Some (foldl (run_callback h now w) awaiting (called_back wevs)))
    as Hclick.
  { intros r wevs Hrun.
    pose proof (watch_after_quiet_polls _ _ _ _ _ _ Hnew Hrun) as Hw.
    unfold click_download, download_from_sheets.
    rewrite (bool_decide_eq_false_2 _ Hentry).
    pose proof (download_sheet_cases e (Text.strip entry)) as Hc.
    cbv zeta in Hc.
    destruct (download_sheet e (Text.strip entry)) as [[res thread] evs].
    simpl in Hc, Hstatus. subst res.
    destruct Hc as [(Hf & Hst & Hcb & Hwr)
                   |[(staged & Hf & _)|(_ & Hres & _)]];
      [|done|set_solver].
    injection Hf as ->. simpl. rewrite Hst. simpl. rewrite Hw. simpl.
    unfold called_back in *. rewrite !omap_app, Hcb, Hwr.
    fold (called_back (Behaviour.polls we n)).
    unfold Behaviour.polls. by rewrite called_back_polls. }
  unfold Spec.in_time. split.
  - intros [Hout|[Hin Herr]].
    + rewrite (Hclick TimedOut []); [done|].
      rewrite watch_loop_unfold. cbv zeta.
      by destruct (Z.ltb_spec (clock we (S n) - clock we 0) default_timeout).
    + rewrite (Hclick Failed []); [done|].
      rewrite watch_loop_unfold. cbv zeta.
      destruct (Z.ltb_spec (clock we (S n) - clock we 0) default_timeout);
        [|lia].
      by rewrite Herr.
  - intros f Hin Hf Hne.
    rewrite (Hclick Detected [EvLatestXlsx (Some f); EvCallback f]);
      [done|].
    rewrite watch_loop_unfold. cbv zeta.
    destruct (Z.ltb_spec (clock we (S n) - clock we 0) default_timeout);
      [|lia].
    rewrite Hf. by rewrite bool_decide_eq_true_2.
Qed.

End DownloadPanel.

Lemma unanswered_download_locks_panel_witness :
  Panel.click_download 100
    (Examples.desktop
       (SheetDownloader.Responds Examples.unauthorized_response) true)
    Examples.idle Examples.stopped "1700000000" Samples.engine_up
    (" " +:+ Examples.sheet_url) Samples.ready
  = Some
      {| Panel.widgets :=
           {| Panel.download_btn := false; Panel.local_file_btn := false;
              Panel.progress_label := "Waiting for download...";
              Panel.progress_bar := true;
              Panel.download_thread :=
                Some {| SheetDownloader.thread_baseline :=
                          Some Examples.old_download |} |};
         Panel.disk := Samples.with_download;
         Panel.sent := [];
         Panel.busy := false |}.
Proof.
  refine (proj1 (unanswered_download_locks_panel
                   (Examples.desktop
                      (SheetDownloader.Responds
                         Examples.unauthorized_response) true)
                   Examples.idle Examples.stopped "1700000000"
                   Samples.engine_up (" " +:+ Examples.sheet_url)
                   Samples.ready 99 _ _ _) _).
  - vm_compute. discriminate.
  - vm_compute. reflexivity.
  - intros i Hi. split.
    + unfold Spec.in_time, SheetDownloader.default_timeout. simpl. lia.
    + exists (Some Examples.old_download). split; [done|by left].
  - left. unfold Spec.in_time, SheetDownloader.default_timeout. simpl. lia.
Defined.

Lemma import_touches_only_member_destinations_witness :
  (∀ member m0,
     Str.startswith member "n8n-data/" = false → member ≠ ".env" →
     Main.import_member Examples.stopped Samples.update_entries
       (@zip_damage Stored.format (Stored.pack Samples.update_entries))
       member m0 = (None, m0))
  ∧ (∀ p,
       (∀ member, member ∈ namelist Samples.update_entries →
                  ¬ Spec.destination Examples.stopped member p) →
       snd (@Main.import_n8n_data Stored.format Examples.stopped
              Examples.archive Samples.before_update) !! p
       = Samples.before_update !! p).
Proof.
  apply (@import_touches_only_member_destinations Stored.format
           Examples.stopped Examples.archive Samples.before_update
           (Stored.pack Samples.update_entries) Samples.update_entries).
  - by vm_compute.
  - by vm_compute.
  - intros x Hx%list_elem_of_In Hin%list_elem_of_In.
    destruct Hx as [<-|[<-|[<-|[]]]]; vm_compute in Hin;
      intuition discriminate.
Defined.
